(** * RAG-Note-Taker: the RAG service layer of [rag/services.py]

    A shallow embedding of [DocumentParser], [TextChunker] and [RagService]
    and the properties of them that the specification states.

    Conventions.
    - A Python [str] is a list of Unicode code points ([pystr]); [len],
      slicing, [rfind] and [strip] work on code points as they do in
      Python, [lower] and [capitalize] change the case of ASCII letters.
    - A Python [int] is a [Z]; [//] is [Z.div] (both round towards minus
      infinity for a positive divisor).
    - A call into a library (pypdf, python-docx, Haystack, ChromaDB,
      google-genai, the file system) returns or raises: a [result], taken
      from an environment [env] that the statements quantify over. A
      method of the service is a computation [M] over the vector store and
      the list of calls made; [try ... except Exception] is [try_except]. *)

From Stdlib Require Import ZArith Lia String Ascii Strings.Byte DecimalString.
From stdpp Require Import base list gmap sorting.

Local Open Scope Z_scope.

(** ** Python strings *)

Abbreviation char := N (only parsing).
Definition pystr := list char.

(** A literal of the source, read as code points (the literals of
    [services.py] that we write this way are ASCII). *)
Definition lit (s : string) : pystr :=
  List.map N_of_ascii (list_ascii_of_string s).

Definition len {A} (s : list A) : Z := Z.of_nat (length s).

(** [s[i:j]]: a negative index counts from the end, and indices beyond
    either end are clamped. *)
Definition clamp_index (n i : Z) : Z :=
  if i <? 0 then Z.max 0 (i + n) else Z.min i n.

Definition slice {A} (s : list A) (i j : Z) : list A :=
  let lo := clamp_index (len s) i in
  let hi := clamp_index (len s) j in
  take (Z.to_nat (hi - lo)) (drop (Z.to_nat lo) s).

(** [s.startswith(sub)] *)
Fixpoint startswith (s sub : pystr) {struct sub} : bool :=
  match sub, s with
  | [], _ => true
  | _ :: _, [] => false
  | a :: sub', b :: s' => if N.eqb a b then startswith s' sub' else false
  end.

(** [s.rfind(sub)]: the highest index at which [sub] occurs in [s], and
    [-1] when it does not occur. The scan goes left to right and keeps the
    latest index seen. *)
Fixpoint rfind_from (s sub : pystr) (i last : Z) : Z :=
  match s with
  | [] => if startswith [] sub then i else last
  | _ :: s' => rfind_from s' sub (i + 1) (if startswith s sub then i else last)
  end.

Definition rfind (s sub : pystr) : Z := rfind_from s sub 0 (-1).

(** [c.isspace()] for one code point: the characters Python's [str.strip()]
    removes. *)
Definition isspace (c : char) : bool :=
  ((9 <=? c) && (c <=? 13) || (28 <=? c) && (c <=? 32) ||
   (c =? 133) || (c =? 160) || (c =? 5760) ||
   (8192 <=? c) && (c <=? 8202) || (c =? 8232) || (c =? 8233) ||
   (c =? 8239) || (c =? 8287) || (c =? 12288))%N.

Fixpoint lstrip (s : pystr) : pystr :=
  match s with
  | [] => []
  | c :: s' => if isspace c then lstrip s' else s
  end.

Definition rstrip (s : pystr) : pystr := reverse (lstrip (reverse s)).

Definition strip (s : pystr) : pystr := rstrip (lstrip s).

(** ** TextChunker *)

Module TextChunker.

Record t := mk { chunk_size : Z; chunk_overlap : Z }.

(** [TextChunker()] *)
Definition default : t := mk 500 50.

(** ['. '], ['.\n'], ['! '], ['? '] *)
Definition markers : list pystr :=
  [[46; 32]; [46; 10]; [33; 32]; [63; 32]]%N.

(** The [for punct in ...] loop: the first marker, in the order of the
    list, whose last occurrence in the window is beyond
    [chunk_size // 2] gives the new [end] and leaves the loop. *)
Fixpoint sentence_break (self : t) (window : pystr) (start : Z)
    (puncts : list pystr) : option Z :=
  match puncts with
  | [] => None
  | punct :: rest =>
      let last_punct := rfind window punct in
      if chunk_size self `div` 2 <? last_punct
      then Some (start + last_punct + len punct)
      else sentence_break self window start rest
  end.

(** The value of [end] when the chunk is cut, for the window that begins
    at [start]. *)
Definition window_end (self : t) (text : pystr) (start : Z) : Z :=
  let end_ := start + chunk_size self in
  if end_ <? len text then
    match sentence_break self (slice text start end_) start markers with
    | Some e => e
    | None => end_
    end
  else end_.

(** One turn of the [while] loop: the chunks after it and the next [start]. *)
Definition step (self : t) (text : pystr) (start : Z) (chunks : list pystr)
    : list pystr * Z :=
  let end_ := window_end self text start in
  let chunk := strip (slice text start end_) in
  (if bool_decide (chunk = []) then chunks else chunks ++ [chunk],
   end_ - chunk_overlap self).

(** The [while start < text_length] loop, at most [fuel] turns of it;
    [None] when the loop is still running after them. *)
Fixpoint loop (fuel : nat) (self : t) (text : pystr) (start : Z)
    (chunks : list pystr) : option (list pystr) :=
  if start <? len text then
    match fuel with
    | O => None
    | S fuel' =>
        let '(chunks', start') := step self text start chunks in
        loop fuel' self text start' chunks'
    end
  else Some chunks.

Definition chunk (fuel : nat) (self : t) (text : pystr)
    : option (list pystr) :=
  if bool_decide (text = []) then Some [] else loop fuel self text 0 [].

End TextChunker.

(** ** Exceptions, outcomes and the effects of a call *)

Inductive exn_class :=
| ValueError
| UnicodeDecodeError
| OtherException (name : pystr).

(** An exception object: its class and [str(e)]. Every exception of the
    model is an instance of [Exception]; [KeyboardInterrupt] and the
    other classes outside [Exception] are not modelled. *)
Record exn := mk_exn { exn_cls : exn_class; exn_str : pystr }.

(** What a call into a library does: it returns or it raises. *)
Inductive result (A : Type) :=
| Ok (a : A)
| Err (e : exn).
Arguments Ok {A} a.
Arguments Err {A} e.

(** What a call of the service does: it returns, it raises, or it runs
    for ever. *)
Inductive outcome (A : Type) :=
| Returned (a : A)
| Raised (e : exn)
| Diverged.
Arguments Returned {A} a.
Arguments Raised {A} e.
Arguments Diverged {A}.

(** [meta] of a Haystack document as [index_document] builds it. *)
Record metadata := mk_meta {
  meta_user_id : Z;
  meta_document_id : Z;
  meta_document_name : pystr;
  meta_chunk_index : Z
}.

(** The embedding model's vectors are never inspected by the service; a
    vector is kept as a list of integers standing for its coordinates. *)
Definition embedding := list Z.

(** A Haystack [Document]. *)
Record hdoc := mk_hdoc {
  doc_id : pystr;
  content : pystr;
  meta : metadata;
  doc_embedding : option embedding
}.

(** What the collection keeps under a document's id. *)
Record stored := mk_stored {
  st_content : pystr;
  st_meta : metadata;
  st_embedding : option embedding
}.

Definition stored_of (d : hdoc) : stored :=
  mk_stored (content d) (meta d) (doc_embedding d).
Definition hdoc_of (kv : pystr * stored) : hdoc :=
  mk_hdoc kv.1 (st_content kv.2) (st_meta kv.2) (st_embedding kv.2).

(** The filter of [answer_question]: [meta.user_id == u] and
    [meta.document_id in ids]. *)
Record retrieval_filter := mk_filter {
  flt_user_id : Z;
  flt_document_ids : list Z
}.

(** A filter dictionary as the service writes it down for the store: the
    keys in order, each with its value. *)
Inductive filter_atom :=
| FInt (n : Z)
| FInts (ns : list Z)
| FStr (s : pystr).

Inductive filter_value :=
| FAtom (a : filter_atom)
| FDicts (ds : list (list (pystr * filter_atom))).

Definition filter_dict := list (pystr * filter_value).

(** Haystack's filter syntax, in which the Chroma store and its
    retriever take their filters: a comparison has the keys ['field'],
    ['operator'] and ['value'], a logical filter the keys ['operator'] and
    ['conditions']. Either way a filter has an ['operator'] key; a
    dictionary without one is not a filter, and the store refuses it with
    an exception before it looks at the collection. *)
Definition has_operator (filters : filter_dict) : bool :=
  bool_decide (lit "operator" ∈ filters.*1).

Inductive log_level := INFO | WARNING | ERROR.

(** The calls that leave the process, in the order they are made. *)
Inductive event :=
| EvOpen (path : pystr) (encoding : pystr)
| EvPdfReader (path : pystr)
| EvDocxDocument (path : pystr)
| EvEmbedDocuments (docs : list hdoc)
| EvEmbedText (text : pystr)
| EvWriteDocuments (docs : list hdoc)
| EvFilterDocuments (filters : filter_dict)
| EvDeleteDocuments (ids : list pystr)
| EvRetrieve (flt : retrieval_filter) (top_k : Z)
| EvGenaiClient (api_key : pystr)
| EvGenerateContent (model : pystr) (contents : pystr)
| EvLog (level : log_level).

(** The ChromaDB collection (documents by id) and the calls made so far. *)
Record world := mk_world {
  store : gmap pystr stored;
  trace : list event
}.

(** What the libraries and the machine answer. The service decides
    nothing of this, so the statements below hold for every [env]. *)
Record env := mk_env {
  (** the bytes of a file, or the [OSError] of [open] *)
  file_bytes : pystr -> result (list byte);
  (** [PdfReader(path).pages], each page with what [extract_text()] does *)
  pdf_pages : pystr -> result (list (result pystr));
  (** [DocxDocument(path).paragraphs], each paragraph's [text] *)
  docx_paragraphs : pystr -> result (list pystr);
  (** the id Haystack derives for a new [Document] *)
  new_doc_id : pystr -> metadata -> pystr;
  embedder_warm_up : result unit;
  embed_documents : list hdoc -> result (list hdoc);
  embed_text : pystr -> result embedding;
  (** the exception of a store call, when it fails *)
  write_error : gmap pystr stored -> list hdoc -> option exn;
  (** what [filter_documents] gives for a filter that the store takes *)
  filter_result : gmap pystr stored -> filter_dict -> result (list hdoc);
  (** the exception with which the store refuses a dictionary that is
      not a filter *)
  filter_refusal : exn;
  delete_error : gmap pystr stored -> list pystr -> option exn;
  retrieve : gmap pystr stored -> embedding -> retrieval_filter -> Z ->
             result (list hdoc);
  (** [settings.GOOGLE_API_KEY]: [None] or a string *)
  GOOGLE_API_KEY : option pystr;
  genai_client : pystr -> result unit;
  (** [generate_content(...)]: the response's [text], [None] when the
      response is empty or has no text *)
  generate_content : pystr -> pystr -> result (option pystr)
}.

(** A computation: from the world before to its outcome and the world
    after. The world after is kept when the call raises. *)
Definition M (A : Type) : Type := world -> outcome A * world.

Definition ret {A} (a : A) : M A := fun w => (Returned a, w).
Definition raise {A} (e : exn) : M A := fun w => (Raised e, w).
Definition bind {A B} (c : M A) (k : A -> M B) : M B :=
  fun w =>
    match c w with
    | (Returned a, w') => k a w'
    | (Raised e, w') => (Raised e, w')
    | (Diverged, w') => (Diverged, w')
    end.
Definition diverge {A} : M A := fun w => (Diverged, w).
Definition lift {A} (r : result A) : M A :=
  match r with Ok a => ret a | Err e => raise e end.
Definition emit (ev : event) : M unit :=
  fun w => (Returned tt, mk_world (store w) (trace w ++ [ev])).
Definition get_store : M (gmap pystr stored) := fun w => (Returned (store w), w).
Definition put_store (s : gmap pystr stored) : M unit :=
  fun w => (Returned tt, mk_world s (trace w)).

Notation "x <- c ;; k" := (bind c (fun x => k))
  (at level 100, c at next level, right associativity).
Notation "c ;;; k" := (bind c (fun _ => k))
  (at level 100, right associativity).

(** [try: body except Exception as e: handler e] *)
Definition try_except {A} (body : M A) (handler : exn -> M A) : M A :=
  fun w =>
    match body w with
    | (Raised e, w') => handler e w'
    | r => r
    end.

(** [try: body except UnicodeDecodeError: handler] *)
Definition try_except_decode {A} (body : M A) (handler : M A) : M A :=
  fun w =>
    match body w with
    | (Raised (mk_exn UnicodeDecodeError msg), w') => handler w'
    | r => r
    end.

Definition logger (level : log_level) : M unit := emit (EvLog level).

(** [sep.join(parts)] *)
Fixpoint join (sep : pystr) (parts : list pystr) : pystr :=
  match parts with
  | [] => []
  | [p] => p
  | p :: rest => p ++ sep ++ join sep rest
  end.

(** Case mapping, on the ASCII letters. [str.lower()] and
    [str.capitalize()] also map letters outside ASCII; here those code
    points are left as they are. None of them lowers to a letter of
    [pdf], [docx] or [txt], so the dispatch of [parse] is the one Python
    makes, and the roles that the program stores and capitalizes are
    ['user'] and ['assistant']. *)
Definition lower_char (c : char) : char :=
  if ((65 <=? c) && (c <=? 90))%N then (c + 32)%N else c.
Definition upper_char (c : char) : char :=
  if ((97 <=? c) && (c <=? 122))%N then (c - 32)%N else c.
Definition lower (s : pystr) : pystr := List.map lower_char s.
Definition capitalize (s : pystr) : pystr :=
  match s with
  | [] => []
  | c :: s' => upper_char c :: lower s'
  end.

(** ** Text files: decoding and newline translation *)

Definition is_cont (b : N) : bool := ((128 <=? b) && (b <=? 191))%N.

(** The second byte of a three-byte and of a four-byte sequence: no
    overlong form, no surrogate, nothing above U+10FFFF. *)
Definition second_ok3 (b0 b1 : N) : bool :=
  (if b0 =? 224 then (160 <=? b1) && (b1 <=? 191)
   else if b0 =? 237 then (128 <=? b1) && (b1 <=? 159)
   else is_cont b1)%N.
Definition second_ok4 (b0 b1 : N) : bool :=
  (if b0 =? 240 then (144 <=? b1) && (b1 <=? 191)
   else if b0 =? 244 then (128 <=? b1) && (b1 <=? 143)
   else is_cont b1)%N.

(** [bytes.decode('utf-8')], strict: [None] is a [UnicodeDecodeError]. *)
Fixpoint utf8_decode (bs : list N) : option pystr :=
  match bs with
  | [] => Some []
  | b0 :: r0 =>
      if (b0 <? 128)%N then cons b0 <$> utf8_decode r0
      else if ((194 <=? b0) && (b0 <=? 223))%N then
        match r0 with
        | b1 :: r1 =>
            if is_cont b1
            then cons ((b0 - 192) * 64 + (b1 - 128))%N <$> utf8_decode r1
            else None
        | _ => None
        end
      else if ((224 <=? b0) && (b0 <=? 239))%N then
        match r0 with
        | b1 :: b2 :: r2 =>
            if second_ok3 b0 b1 && is_cont b2
            then cons ((b0 - 224) * 4096 + (b1 - 128) * 64 + (b2 - 128))%N
                   <$> utf8_decode r2
            else None
        | _ => None
        end
      else if ((240 <=? b0) && (b0 <=? 244))%N then
        match r0 with
        | b1 :: b2 :: b3 :: r3 =>
            if second_ok4 b0 b1 && is_cont b2 && is_cont b3
            then cons ((b0 - 240) * 262144 + (b1 - 128) * 4096 +
                       (b2 - 128) * 64 + (b3 - 128))%N <$> utf8_decode r3
            else None
        | _ => None
        end
      else None
  end.

(** [bytes.decode('latin-1')]: every byte is its own code point. *)
Definition latin1_decode (bs : list byte) : pystr := List.map Byte.to_N bs.

Inductive encoding_name := Utf8 | Latin1.
Definition encoding_str (enc : encoding_name) : pystr :=
  match enc with Utf8 => lit "utf-8" | Latin1 => lit "latin-1" end.

Definition decode (enc : encoding_name) (bs : list byte) : option pystr :=
  match enc with
  | Utf8 => utf8_decode (List.map Byte.to_N bs)
  | Latin1 => Some (latin1_decode bs)
  end.

(** Text mode with the default [newline=None]: ['\r\n'] and ['\r'] are
    read as ['\n']. *)
Fixpoint universal_newlines (s : pystr) : pystr :=
  match s with
  | [] => []
  | c :: rest =>
      if (c =? 13)%N then
        10%N :: match rest with
                | c' :: rest' =>
                    if (c' =? 10)%N then universal_newlines rest'
                    else universal_newlines rest
                | [] => []
                end
      else c :: universal_newlines rest
  end.

(** [with open(file_path, 'r', encoding=enc) as f: return f.read()] *)
Definition read_text (E : env) (file_path : pystr) (enc : encoding_name)
    : M pystr :=
  emit (EvOpen file_path (encoding_str enc)) ;;;
  bs <- lift (file_bytes E file_path) ;;
  match decode enc bs with
  | Some s => ret (universal_newlines s)
  | None => raise (mk_exn UnicodeDecodeError (lit "invalid byte sequence"))
  end.

(** ** DocumentParser *)

Module DocumentParser.

(** The [for page in reader.pages] loop of [parse_pdf]. *)
Fixpoint extract_pages (pages : list (result pystr)) (text_parts : list pystr)
    : result (list pystr) :=
  match pages with
  | [] => Ok text_parts
  | Ok text :: rest =>
      extract_pages rest
        (if bool_decide (text = []) then text_parts else text_parts ++ [text])
  | Err e :: _ => Err e
  end.

Definition parse_pdf (E : env) (file_path : pystr) : M pystr :=
  try_except
    (emit (EvPdfReader file_path) ;;;
     pages <- lift (pdf_pages E file_path) ;;
     text_parts <- lift (extract_pages pages []) ;;
     ret (join [10; 10]%N text_parts))
    (fun e => logger ERROR ;;; raise e).

Definition parse_docx (E : env) (file_path : pystr) : M pystr :=
  try_except
    (emit (EvDocxDocument file_path) ;;;
     paragraphs <- lift (docx_paragraphs E file_path) ;;
     let text_parts :=
       List.filter (fun t => negb (bool_decide (strip t = []))) paragraphs in
     ret (join [10; 10]%N text_parts))
    (fun e => logger ERROR ;;; raise e).

Definition parse_txt (E : env) (file_path : pystr) : M pystr :=
  try_except_decode
    (read_text E file_path Utf8)
    (read_text E file_path Latin1).

(** The [parsers] dictionary of [parse]. *)
Definition parsers (E : env) : gmap pystr (pystr -> M pystr) :=
  <[lit "pdf" := parse_pdf E]>
    (<[lit "docx" := parse_docx E]>
       (<[lit "txt" := parse_txt E]> ∅)).

Definition parse (E : env) (file_path extension : pystr) : M pystr :=
  match parsers E !! lower extension with
  | Some parser => parser file_path
  | None =>
      raise (mk_exn ValueError (lit "Unsupported file type: " ++ extension))
  end.

End DocumentParser.

(** ** The [Document] model of [documents/models.py] *)

Record document := mk_document {
  pk : Z;            (** [document_model.id] *)
  name : pystr;
  file_path : pystr  (** [document_model.file.path] *)
}.

(** [s.split('.')[-1]]: what follows the last ['.'], all of [s] when it
    has none. *)
Fixpoint last_segment (s : pystr) : pystr :=
  match s with
  | [] => []
  | c :: s' =>
      if bool_decide (46%N ∈ s') then last_segment s'
      else if (c =? 46)%N then s' else s
  end.

(** The [file_extension] property. *)
Definition file_extension (d : document) : pystr :=
  if bool_decide (46%N ∈ name d) then lower (last_segment (name d)) else [].

(** ** RagService *)

Module RagService.

(** The [filters] of [delete_document_embeddings] (services.py:218-221):
    the two field names, each mapped to its value. *)
Definition delete_filters (document_id user_id : Z) : filter_dict :=
  [(lit "meta.document_id", FAtom (FInt document_id));
   (lit "meta.user_id", FAtom (FInt user_id))].

(** The [filters] of [answer_question] (services.py:252-258), which go to
    the retriever of the same store. *)
Definition answer_filters (user_id : Z) (selected_document_ids : list Z)
    : filter_dict :=
  [(lit "operator", FAtom (FStr (lit "AND")));
   (lit "conditions",
    FDicts [[(lit "field", FStr (lit "meta.user_id"));
             (lit "operator", FStr (lit "=="));
             (lit "value", FInt user_id)];
            [(lit "field", FStr (lit "meta.document_id"));
             (lit "operator", FStr (lit "in"));
             (lit "value", FInts selected_document_ids)]])].

(** [document_store.filter_documents(filters=filters)]. The store first
    reads the dictionary as a filter and refuses one that has no
    ['operator']. *)
Definition filter_documents (E : env) (filters : filter_dict)
    : M (list hdoc) :=
  st <- get_store ;;
  emit (EvFilterDocuments filters) ;;;
  if has_operator filters then lift (filter_result E st filters)
  else raise (filter_refusal E).

(** [document_store.delete_documents(document_ids)] *)
Definition delete_documents (E : env) (ids : list pystr) : M unit :=
  st <- get_store ;;
  emit (EvDeleteDocuments ids) ;;;
  match delete_error E st ids with
  | Some e => raise e
  | None => put_store (foldr delete st ids)
  end.

(** [DocumentWriter(document_store).run(documents)] *)
Definition write_documents (E : env) (docs : list hdoc) : M unit :=
  st <- get_store ;;
  emit (EvWriteDocuments docs) ;;;
  match write_error E st docs with
  | Some e => raise e
  | None => put_store (foldr (fun d m => <[doc_id d := stored_of d]> m) st docs)
  end.

(** [TextChunker().chunk(text)]. The loop is given [len(text)] turns,
    which the default sizes never use up ([chunk_default_returns]). *)
Definition run_chunker (text : pystr) : M (list pystr) :=
  match TextChunker.chunk (length text) TextChunker.default text with
  | Some chunks => ret chunks
  | None => diverge
  end.

(** The [try] block of [index_document]. *)
Definition index_document_try (E : env) (document_model : document)
    (user_id : Z) : M bool :=
  let file_path := file_path document_model in
  let extension := file_extension document_model in
  text <- DocumentParser.parse E file_path extension ;;
  if bool_decide (strip text = []) then
    logger WARNING ;;; ret false
  else
    chunks <- run_chunker text ;;
    let haystack_docs :=
      imap (fun i chunk =>
              let m := mk_meta user_id (pk document_model)
                               (name document_model) (Z.of_nat i) in
              mk_hdoc (new_doc_id E chunk m) chunk m None) chunks in
    lift (embedder_warm_up E) ;;;
    emit (EvEmbedDocuments haystack_docs) ;;;
    embedded_docs <- lift (embed_documents E haystack_docs) ;;
    write_documents E embedded_docs ;;;
    logger INFO ;;;
    ret true.

Definition index_document (E : env) (document_model : document) (user_id : Z)
    : M bool :=
  try_except (index_document_try E document_model user_id)
             (fun e => logger ERROR ;;; ret false).

(** The [try] block of [delete_document_embeddings]. *)
Definition delete_document_embeddings_try (E : env) (document_id user_id : Z)
    : M unit :=
  let filters := delete_filters document_id user_id in
  docs <- filter_documents E filters ;;
  if bool_decide (docs = []) then ret tt
  else
    let doc_ids := doc_id <$> docs in
    delete_documents E doc_ids ;;;
    logger INFO.

Definition delete_document_embeddings (E : env) (document_id user_id : Z)
    : M unit :=
  try_except (delete_document_embeddings_try E document_id user_id)
             (fun e => logger ERROR).

(** The fixed answers. *)
Definition no_information : pystr :=
  lit "I couldn't find any relevant information in the selected documents.".
Definition key_not_configured : pystr :=
  lit "Error: Google API key is not configured. Please set GOOGLE_API_KEY in your .env file.".
Definition no_response : pystr :=
  lit "I couldn't generate a response. Please try again.".
Definition error_prefix : pystr :=
  lit "An error occurred while processing your question: ".
Definition placeholder_key : pystr := lit "your-google-api-key-here".

(** A message of the history: the dictionary with ['role'] and
    ['content'] that [ChatMessage.get_history_for_context] builds. *)
Definition message := gmap pystr pystr.

Definition render_message (msg : message) : pystr :=
  let role := capitalize (default (lit "user") (msg !! lit "role")) in
  let content := default [] (msg !! lit "content") in
  role ++ lit ": " ++ content.

(** [prompt_template.format(history=..., context=..., question=...)] *)
Definition prompt_of (history context question : pystr) : pystr :=
  lit "You are a helpful assistant answering questions based on the provided documents.

Recent conversation:
" ++ history ++ lit "

Relevant document excerpts:
" ++ context ++ lit "

User question: " ++ question ++ lit "

Please provide a clear, accurate answer based on the document excerpts above. If the documents don't contain enough information to answer the question, say so clearly.

Answer:".

(** The [try] block of [answer_question]. *)
Definition answer_question_try (E : env) (question : pystr) (user_id : Z)
    (selected_document_ids : list Z) (chat_history : option (list message))
    : M pystr :=
  let filters := mk_filter user_id selected_document_ids in
  lift (embedder_warm_up E) ;;;
  emit (EvEmbedText question) ;;;
  query_embedding <- lift (embed_text E question) ;;
  st <- get_store ;;
  emit (EvRetrieve filters 5) ;;;
  docs <- lift (retrieve E st query_embedding filters 5) ;;
  if bool_decide (docs = []) then ret no_information
  else
    let context := join (lit "

---

") (content <$> docs) in
    let history_text :=
      match chat_history with
      | Some ((_ :: _) as h) =>
          join [10%N] (render_message <$> slice h (-10) (len h))
      | _ => []
      end in
    let prompt :=
      prompt_of (if bool_decide (history_text = [])
                 then lit "No previous history." else history_text)
                context question in
    match GOOGLE_API_KEY E with
    | None => ret key_not_configured
    | Some api_key =>
        if bool_decide (api_key = []) || bool_decide (api_key = placeholder_key)
        then ret key_not_configured
        else
          emit (EvGenaiClient api_key) ;;;
          lift (genai_client E api_key) ;;;
          emit (EvGenerateContent (lit "gemini-2.5-flash") prompt) ;;;
          response_text <- lift (generate_content E (lit "gemini-2.5-flash") prompt) ;;
          match response_text with
          | Some ((_ :: _) as t) => ret t
          | _ => ret no_response
          end
    end.

Definition answer_question (E : env) (question : pystr) (user_id : Z)
    (selected_document_ids : list Z) (chat_history : option (list message))
    : M pystr :=
  try_except (answer_question_try E question user_id selected_document_ids
                                  chat_history)
             (fun e => logger ERROR ;;; ret (error_prefix ++ exn_str e)).

End RagService.

(** ** Notions the statements use *)

(** [sub] is found in [s] at index [k]. *)
Definition occurs_at (s sub : pystr) (k : Z) : Prop :=
  0 <= k <= len s ∧ startswith (drop (Z.to_nat k) s) sub = true.

(** [r] is the index of the last occurrence of [sub] in [s]. *)
Definition last_occurrence (s sub : pystr) (r : Z) : Prop :=
  occurs_at s sub r ∧ ∀ k, r < k -> ¬ occurs_at s sub k.

(** [c] is a run of consecutive characters of [text]. *)
Definition substring (c text : pystr) : Prop :=
  ∃ pre post, text = pre ++ c ++ post.

(** A call to the language model: the client being built, or a
    generation request. *)
Definition model_call (ev : event) : Prop :=
  match ev with
  | EvGenaiClient _ | EvGenerateContent _ _ => True
  | _ => False
  end.

(** A call that reaches the vector store or the embedding model. *)
Definition store_or_embedder_call (ev : event) : Prop :=
  match ev with
  | EvWriteDocuments _ | EvDeleteDocuments _ | EvFilterDocuments _
  | EvRetrieve _ _ | EvEmbedDocuments _ | EvEmbedText _ => True
  | _ => False
  end.

(** ** An environment and a collection to run the service on *)

Definition sample_hdoc (id text : string) (user doc idx : Z) : hdoc :=
  mk_hdoc (lit id) (lit text) (mk_meta user doc (lit "notes.txt") idx) None.

(** No library call fails for a reason of its own (the store still
    refuses what is not a filter); the file holds [bytes], the key is
    [key] and the retriever returns [retrieved]. *)
Definition sample_env (bytes : list byte) (key : option pystr)
    (retrieved : list hdoc) : env :=
  {| file_bytes := fun _ => Ok bytes;
     pdf_pages := fun _ => Ok [Ok (lit "page one"); Ok []; Ok (lit "page three")];
     docx_paragraphs := fun _ => Ok [lit "first"; lit "  "; lit "second"];
     new_doc_id := fun text m => text;
     embedder_warm_up := Ok tt;
     embed_documents := fun docs => Ok docs;
     embed_text := fun _ => Ok [1; 2; 3];
     write_error := fun _ _ => None;
     filter_result := fun _ _ => Ok [];
     filter_refusal :=
       mk_exn (OtherException (lit "ChromaDocumentStoreFilterError"))
              (lit "Invalid filter syntax.");
     delete_error := fun _ _ => None;
     retrieve := fun _ _ _ _ => Ok retrieved;
     GOOGLE_API_KEY := key;
     genai_client := fun _ => Ok tt;
     generate_content := fun _ _ => Ok (Some (lit "An answer.")) |}.

(** Three stored chunks: document 5 of user 1, document 5 of user 2 and
    document 6 of user 1. *)
Definition sample_store : gmap pystr stored :=
  <[lit "a" := stored_of (sample_hdoc "a" "alpha" 1 5 0)]>
    (<[lit "b" := stored_of (sample_hdoc "b" "beta" 2 5 0)]>
       (<[lit "c" := stored_of (sample_hdoc "c" "gamma" 1 6 0)]> ∅)).

(** The character of [text] at index [i] lies inside one of the chunks,
    at the place the chunk has in the text. *)
Definition covered (text : pystr) (chunks : list pystr) (i : nat) : Prop :=
  ∃ c pre post,
    c ∈ chunks ∧ text = pre ++ c ++ post ∧
    (length pre <= i < length pre + length c)%nat.

(** The Haystack documents that [index_document] builds from the chunks
    (the [for i, chunk in enumerate(chunks)] loop). *)
Definition chunk_documents (E : env) (document_model : document)
    (user_id : Z) (chunks : list pystr) : list hdoc :=
  imap (fun i chunk =>
          let m := mk_meta user_id (pk document_model)
                           (name document_model) (Z.of_nat i) in
          mk_hdoc (new_doc_id E chunk m) chunk m None) chunks.

(** The pieces of the prompt of [answer_question], as the [try] block
    computes them: the history lines (or the fixed placeholder), the
    retrieved contents with their separator, and the filled template. *)
Definition history_block (chat_history : option (list RagService.message))
    : pystr :=
  let history_text :=
    match chat_history with
    | Some ((_ :: _) as h) =>
        join [10%N] (RagService.render_message <$> slice h (-10) (len h))
    | _ => []
    end in
  if bool_decide (history_text = [])
  then lit "No previous history." else history_text.

Definition context_block (docs : list hdoc) : pystr :=
  join (lit "

---

") (content <$> docs).

Definition prompt_for (question : pystr) (docs : list hdoc)
    (chat_history : option (list RagService.message)) : pystr :=
  RagService.prompt_of (history_block chat_history) (context_block docs)
                       question.

(** A call that changes the collection. *)
Definition store_change (ev : event) : Prop :=
  match ev with
  | EvWriteDocuments _ | EvDeleteDocuments _ => True
  | _ => False
  end.

(** ** [chat/models.py]: ChatMessage *)

(** A row of the table: the owner, the role, the content and the time it
    was created, in microseconds. *)
Record chat_message := mk_chat {
  chat_user : Z;
  chat_role : pystr;
  chat_content : pystr;
  created_at : Z
}.

Module ChatMessage.

(** [timedelta(hours=1)] *)
Definition hour : Z := 3600 * 1000000.

(** The order of [order_by('created_at')]. *)
Definition created_before (a b : chat_message) : Prop :=
  created_at a <= created_at b.

#[global] Instance created_before_dec a b : Decision (created_before a b).
Proof. unfold created_before. apply _. Defined.

Section queries.

(** [order_by('created_at')]: the order the database returns the rows
    in. It is ascending in [created_at]; which of two rows of the same
    time comes first is the database's choice. *)
Variable order_by_created_at : list chat_message -> list chat_message.

(** [get_recent_history(user, hours)] at the time [now]:
    [filter(user=user, created_at__gte=cutoff_time).order_by('created_at')] *)
Definition get_recent_history (table : list chat_message) (now : Z)
    (user : Z) (hours : Z) : list chat_message :=
  let cutoff_time := now - hours * hour in
  order_by_created_at
    (filter (fun msg => chat_user msg = user ∧ cutoff_time <= created_at msg)
            table).

(** [{'role': msg.role, 'content': msg.content}] *)
Definition message_dict (msg : chat_message) : RagService.message :=
  <[lit "role" := chat_role msg]> (<[lit "content" := chat_content msg]> ∅).

(** [get_history_for_context(user, hours, max_messages)]. The slice
    [[:max_messages]] of a query set is a [LIMIT]; Django refuses a
    negative bound with a [ValueError]. *)
Definition get_history_for_context (table : list chat_message) (now : Z)
    (user : Z) (hours : Z) (max_messages : Z)
    : result (list RagService.message) :=
  if max_messages <? 0
  then Err (mk_exn ValueError (lit "Negative indexing is not supported."))
  else
    let messages :=
      take (Z.to_nat max_messages) (get_recent_history table now user hours) in
    Ok (message_dict <$> messages).

End queries.

End ChatMessage.

(** ** [documents/forms.py] and [documents/views.py]: the upload checks *)

(** An uploaded file: [file.name] and [file.size]. *)
Record uploaded_file := mk_upload { up_name : pystr; up_size : Z }.

(** [file.name.split('.')[-1].lower()] *)
Definition upload_extension (file : uploaded_file) : pystr :=
  lower (last_segment (up_name file)).

(** [10 * 1024 * 1024] *)
Definition max_upload_size : Z := 10 * 1024 * 1024.

Module DocumentUploadForm.

Definition allowed_extensions : list pystr :=
  [lit "pdf"; lit "txt"; lit "docx"].

(** [clean_file], applied to [cleaned_data.get('file')]. A Django file
    object is true when its name is not empty. *)
Definition clean_file (file : option uploaded_file)
    : result (option uploaded_file) :=
  match file with
  | Some f =>
      if bool_decide (up_name f = []) then Ok file
      else
        let ext := upload_extension f in
        if bool_decide (ext ∉ allowed_extensions) then
          Err (mk_exn (OtherException (lit "ValidationError"))
                 (lit "Unsupported file type. Allowed: " ++
                  join (lit ", ") allowed_extensions))
        else if max_upload_size <? up_size f then
          Err (mk_exn (OtherException (lit "ValidationError"))
                 (lit "File size must be under 10MB."))
        else Ok file
  | None => Ok file
  end.

End DocumentUploadForm.


(** ** The Django side of the views *)

(** [str(n)] for an integer. *)
Definition str_of_int (n : Z) : pystr :=
  lit (NilZero.string_of_int (Z.to_int n)).

(** A row of the [Document] table (the primary key is the key of the
    table): owner, name, [file.path], [is_deleted], [is_indexed]. *)
Record document_row := mk_row {
  row_user : Z;
  row_name : pystr;
  row_path : pystr;
  row_deleted : bool;
  row_indexed : bool
}.

Inductive flash_level := FlashError | FlashWarning | FlashSuccess | FlashInfo.

(** What a request works on: the [Document] table by primary key, the
    [ChatMessage] table, the messages of [django.contrib.messages] and
    the world of the RAG service. *)
Record site := mk_site {
  documents : gmap Z document_row;
  chat_messages : list chat_message;
  flashes : list (flash_level * pystr);
  rag : world
}.

(** What the database and the storage answer. Reading queries are taken
    to succeed; a [save()] or a [create] may raise. *)
Record django := mk_django {
  (** the primary key and the storage path that the first [save()] gives
      to a document made from this file *)
  new_document : gmap Z document_row -> uploaded_file -> Z * pystr;
  (** the exception of a [document.save()], when it fails *)
  document_save_error : gmap Z document_row -> Z -> document_row -> option exn;
  (** the exception of [ChatMessage.objects.create], when it fails *)
  chat_create_error : list chat_message -> chat_message -> option exn;
  (** the order in which a query on documents returns ids *)
  document_order : list Z -> list Z;
  (** the order of [order_by('created_at')] *)
  chat_order : list chat_message -> list chat_message
}.

(** A view: from the site before to its outcome and the site after. *)
Definition V (A : Type) : Type := site -> outcome A * site.

Definition vret {A} (a : A) : V A := fun s => (Returned a, s).
Definition vraise {A} (e : exn) : V A := fun s => (Raised e, s).
Definition vbind {A B} (c : V A) (k : A -> V B) : V B :=
  fun s =>
    match c s with
    | (Returned a, s') => k a s'
    | (Raised e, s') => (Raised e, s')
    | (Diverged, s') => (Diverged, s')
    end.

Notation "x <~ c ;; k" := (vbind c (fun x => k))
  (at level 100, c at next level, right associativity).
Notation "c ;;~ k" := (vbind c (fun _ => k))
  (at level 100, right associativity).

(** [try: body except Exception as e: handler e] in a view. *)
Definition vtry {A} (body : V A) (handler : exn -> V A) : V A :=
  fun s =>
    match body s with
    | (Raised e, s') => handler e s'
    | r => r
    end.

(** A call of [rag_service]. *)
Definition via_rag {A} (c : M A) : V A :=
  fun s =>
    let '(o, w) := c (rag s) in
    (o, mk_site (documents s) (chat_messages s) (flashes s) w).

(** [messages.error(request, text)] and the like. *)
Definition flash (level : flash_level) (text : pystr) : V unit :=
  fun s =>
    (Returned tt,
     mk_site (documents s) (chat_messages s) (flashes s ++ [(level, text)])
             (rag s)).

(** [document.save()] for the row [row] with primary key [id]. *)
Definition save_document (D : django) (id : Z) (row : document_row) : V unit :=
  fun s =>
    match document_save_error D (documents s) id row with
    | Some e => (Raised e, s)
    | None =>
        (Returned tt,
         mk_site (<[id := row]> (documents s)) (chat_messages s) (flashes s)
                 (rag s))
    end.

(** [ChatMessage.objects.create(user=..., role=..., content=...)] at the
    time [now]. *)
Definition create_chat_message (D : django) (msg : chat_message) : V unit :=
  fun s =>
    match chat_create_error D (chat_messages s) msg with
    | Some e => (Raised e, s)
    | None =>
        (Returned tt,
         mk_site (documents s) (chat_messages s ++ [msg]) (flashes s) (rag s))
    end.

(** [redirect('documents:list')] *)
Definition documents_list : pystr := lit "documents:list".

(** *** [documents/views.py] *)

Module DocumentUploadView.

(** The two checks at the head of the loop of [post]: the error message
    of the file that is not let through. *)
Definition rejection (file : uploaded_file) : option pystr :=
  let ext := upload_extension file in
  if bool_decide (ext ∉ [lit "pdf"; lit "txt"; lit "docx"]) then
    Some (lit "File '" ++ up_name file ++ lit "' has an unsupported type.")
  else if max_upload_size <? up_size file then
    Some (lit "File '" ++ up_name file ++ lit "' exceeds the 10MB limit.")
  else None.

(** The [try] block of the loop: [True] when the file counts as a
    success. *)
Definition upload_try (E : env) (D : django) (user : Z) (file : uploaded_file)
    : V bool :=
  fun s =>
    let '(id, path) := new_document D (documents s) file in
    let row := mk_row user (up_name file) path false false in
    (save_document D id row ;;~
     success <~ via_rag (RagService.index_document E
                           (mk_document id (up_name file) path) user) ;;
     if success : bool then
       save_document D id (mk_row user (up_name file) path false true) ;;~
       vret true
     else
       flash FlashWarning
         (lit "Indexing failed for '" ++ up_name file ++ lit "'.") ;;~
       vret false) s.

(** The [for file in files] loop with its two counters. *)
Fixpoint loop (E : env) (D : django) (user : Z) (files : list uploaded_file)
    (success_count fail_count : Z) : V (Z * Z) :=
  match files with
  | [] => vret (success_count, fail_count)
  | file :: rest =>
      match rejection file with
      | Some text =>
          flash FlashError text ;;~
          loop E D user rest success_count (fail_count + 1)
      | None =>
          ok <~ vtry (upload_try E D user file)
                  (fun e =>
                     flash FlashError
                       (lit "Error uploading '" ++ up_name file ++ lit "': " ++
                        exn_str e) ;;~
                     vret false) ;;
          if ok : bool
          then loop E D user rest (success_count + 1) fail_count
          else loop E D user rest success_count (fail_count + 1)
      end
  end.

Definition post (E : env) (D : django) (user : Z) (files : list uploaded_file)
    : V pystr :=
  if bool_decide (files = []) then
    flash FlashError (lit "No files selected.") ;;~ vret documents_list
  else
    counts <~ loop E D user files 0 0 ;;
    (if 0 <? counts.1 then
       flash FlashSuccess
         (lit "Successfully uploaded and indexed " ++ str_of_int counts.1 ++
          lit " document(s).")
     else vret tt) ;;~
    (if 0 <? counts.2 then
       flash FlashInfo
         (lit "Failed to process " ++ str_of_int counts.2 ++ lit " document(s).")
     else vret tt) ;;~
    vret documents_list.

End DocumentUploadView.

Module DocumentDeleteView.

(** [get_object_or_404(Document, pk=pk, user=request.user)] *)
Definition get_object_or_404 (user pk : Z) : V document_row :=
  fun s =>
    match documents s !! pk with
    | Some row =>
        if bool_decide (row_user row = user) then (Returned row, s)
        else (Raised (mk_exn (OtherException (lit "Http404"))
                        (lit "No Document matches the given query.")), s)
    | None => (Raised (mk_exn (OtherException (lit "Http404"))
                         (lit "No Document matches the given query.")), s)
    end.

Definition post (E : env) (D : django) (user pk : Z) : V pystr :=
  document <~ get_object_or_404 user pk ;;
  save_document D pk
    (mk_row (row_user document) (row_name document) (row_path document)
            true (row_indexed document)) ;;~
  via_rag (RagService.delete_document_embeddings E pk user) ;;~
  flash FlashSuccess (lit "'" ++ row_name document ++ lit "' has been deleted.") ;;~
  vret documents_list.

End DocumentDeleteView.

(** *** [chat/views.py] *)

(** The body of a chat request once [json.loads] has read it, for a
    JSON object whose ['message'], when there is one, is a string and
    whose ['document_ids'], when there are some, is a list of integers.
    Other bodies that [json.loads] reads (JSON that is no object, a
    message that is no string, ids that are no integers) are outside the
    model, and so is a body that it cannot decode, for which it raises
    [UnicodeDecodeError]: the code sends them to the handler of
    [Exception]. *)
Record chat_payload := mk_payload {
  p_message : option pystr;
  p_document_ids : option (list Z)
}.

(** A [JsonResponse]: the status, ['success'], ['error'] and, in
    ['message'], the role, the content and the time of creation. *)
Record json_response := mk_response {
  status : Z;
  resp_success : bool;
  resp_error : option pystr;
  resp_message : option (pystr * pystr * Z)
}.

(** The times that [timezone.now()] gives in one request: when the
    question is saved, when the history is read, when the answer is
    saved. *)
Record clock := mk_clock { t_question : Z; t_history : Z; t_answer : Z }.

Module ChatAPIView.

(** [list(user_docs.filter(id__in=selected_doc_ids).values_list('id', flat=True))] *)
Definition valid_doc_ids (D : django) (docs : gmap Z document_row)
    (user : Z) (selected_doc_ids : list Z) : list Z :=
  document_order D
    ((map_to_list
        (filter (fun kv => (row_user kv.2 = user ∧ row_deleted kv.2 = false) ∧
                           kv.1 ∈ selected_doc_ids) docs)).*1).

Definition bad_request (text : pystr) : json_response :=
  mk_response 400 false (Some text) None.

(** The [try] block of [post], after [json.loads]. *)
Definition post_try (E : env) (D : django) (C : clock) (user : Z)
    (data : chat_payload) : V json_response :=
  let question := strip (default [] (p_message data)) in
  let selected_doc_ids := default [] (p_document_ids data) in
  if bool_decide (question = []) then
    vret (bad_request (lit "Please enter a message."))
  else if bool_decide (selected_doc_ids = []) then
    vret (bad_request (lit "Please select at least one document."))
  else
    fun s =>
      let valid := valid_doc_ids D (documents s) user selected_doc_ids in
      if bool_decide (valid = []) then
        (Returned (bad_request (lit "Selected documents are not available.")), s)
      else
        (create_chat_message D (mk_chat user (lit "user") question (t_question C)) ;;~
         history <~ (fun s' =>
                       match ChatMessage.get_history_for_context (chat_order D)
                               (chat_messages s') (t_history C) user 24 10 with
                       | Ok h => (Returned h, s')
                       | Err e => (Raised e, s')
                       end) ;;
         answer <~ via_rag (RagService.answer_question E question user valid
                              (Some history)) ;;
         create_chat_message D
           (mk_chat user (lit "assistant") answer (t_answer C)) ;;~
         vret (mk_response 200 true None
                 (Some (lit "assistant", answer, t_answer C)))) s.

(** [post]. [None] is a body that is not JSON: [json.loads] raises
    [JSONDecodeError], the one exception that the first handler takes.
    The queries that only read the tables are taken to succeed. *)
Definition post (E : env) (D : django) (C : clock) (user : Z)
    (body : option chat_payload) : V json_response :=
  match body with
  | None => vret (bad_request (lit "Invalid request format."))
  | Some data =>
      vtry (post_try E D C user data)
        (fun e =>
           vret (mk_response 500 false
                   (Some (lit "An error occurred: " ++ exn_str e)) None))
  end.

End ChatAPIView.

Module ClearHistoryView.

(** [ChatMessage.objects.filter(user=request.user).delete()] *)
Definition post (user : Z) : V json_response :=
  fun s =>
    (Returned (mk_response 200 true None None),
     mk_site (documents s)
             (filter (fun msg => chat_user msg ≠ user) (chat_messages s))
             (flashes s) (rag s)).

End ClearHistoryView.

(** A database that never fails, gives the key [100] and keeps orders. *)
Definition sample_django : django :=
  {| new_document := fun _ file => (100, lit "/m/" ++ up_name file);
     document_save_error := fun _ _ _ => None;
     chat_create_error := fun _ _ => None;
     document_order := fun ids => ids;
     chat_order := merge_sort ChatMessage.created_before |}.

(** A site with document 5 of user 1, document 6 of user 1 (deleted) and
    document 7 of user 2, one earlier question of user 1 and the three
    stored chunks of [sample_store]. *)
Definition sample_site : site :=
  {| documents :=
       <[5 := mk_row 1 (lit "notes.txt") (lit "/m/notes.txt") false true]>
         (<[6 := mk_row 1 (lit "old.txt") (lit "/m/old.txt") true true]>
            (<[7 := mk_row 2 (lit "theirs.pdf") (lit "/m/theirs.pdf") false true]>
               ∅));
     chat_messages := [mk_chat 1 (lit "user") (lit "Hello?") 1000];
     flashes := [];
     rag := mk_world sample_store [] |}.

(** * Proofs *)

(** Unfolds the plumbing of a computation. *)
Ltac run :=
  unfold try_except, try_except_decode, bind, lift, ret, raise, logger, emit,
    get_store, put_store, diverge in *; cbn [store trace fst snd] in *.

(** The same, by normalisation: for goals with many library calls. *)
Ltac run_all :=
  cbv beta iota zeta delta
    [try_except try_except_decode bind lift ret raise emit logger
     get_store put_store diverge store trace] in *.

(** ** The model on small inputs *)

Example slice_examples :
  slice (lit "abcdefghij") (-1) 9 = [] ∧
  slice (lit "abcdefghij") 0 (-1) = lit "abcdefghi" ∧
  slice (lit "abcdefghij") (-20) 3 = lit "abc" ∧
  slice (lit "abcdefghij") 5 100 = lit "fghij" ∧
  slice (lit "abcdefghij") (-2) 20 = lit "ij".
Proof. vm_compute. done. Qed.

Example rfind_examples :
  rfind (lit "abc") [] = 3 ∧ rfind [] [] = 0 ∧
  rfind (lit "a. b. ") (lit ". ") = 4 ∧ rfind (lit "abc") (lit "x") = -1.
Proof. vm_compute. done. Qed.

Example strip_example :
  strip ([32; 9; 160] ++ lit "a b" ++ [10; 8232; 13])%N = lit "a b".
Proof. vm_compute. done. Qed.

Example utf8_examples :
  utf8_decode [195; 169]%N = Some [233]%N ∧
  utf8_decode [244; 143; 191; 191]%N = Some [1114111]%N ∧
  utf8_decode [233; 116; 233]%N = None ∧
  utf8_decode [237; 160; 128]%N = None ∧
  utf8_decode [244; 144; 128; 128]%N = None ∧
  utf8_decode [192; 128]%N = None ∧
  utf8_decode [224; 159; 191]%N = None ∧
  utf8_decode [194]%N = None.
Proof. vm_compute. done. Qed.

Example file_extension_examples :
  file_extension (mk_document 1 (lit "a.b.C") (lit "/m/a.b.C")) = lit "c" ∧
  file_extension (mk_document 1 (lit "abc.") (lit "/m/abc.")) = [] ∧
  file_extension (mk_document 1 (lit "abc") (lit "/m/abc")) = [].
Proof. vm_compute. done. Qed.

Example capitalize_example : capitalize (lit "hello WORLD") = lit "Hello world".
Proof. vm_compute. done. Qed.

Example chunk_short :
  TextChunker.chunk 5 TextChunker.default (lit "short text") = Some [lit "short text"].
Proof. vm_compute. reflexivity. Qed.

Example chunk_small :
  TextChunker.chunk 20 (TextChunker.mk 10 2) (lit "Hello wor. Next one! and then more text.")
  = Some [lit "Hello wor."; lit "r. Next on"; lit "one! and t"; lit "then more"; lit "re text."].
Proof. vm_compute. reflexivity. Qed.

Example chunk_sentence :
  TextChunker.chunk 20 (TextChunker.mk 10 2) (lit "abcdefg. hijklmnopqrstu")
  = Some [lit "abcdefg."; lit ". hijklmno"; lit "nopqrstu"].
Proof. vm_compute. reflexivity. Qed.

Example chunk_empty : TextChunker.chunk 0 TextChunker.default [] = Some [].
Proof. reflexivity. Qed.

(** [parse] on ["xlsx"] raises at once; ["PDF"] and ["TxT"] reach their
    parsers. *)
Example parse_examples :
  DocumentParser.parse (sample_env [] None []) (lit "/m/t.xlsx") (lit "xlsx")
    (mk_world ∅ [])
  = (Raised (mk_exn ValueError (lit "Unsupported file type: xlsx")), mk_world ∅ []) ∧
  DocumentParser.parse (sample_env [] None []) (lit "/m/t.PDF") (lit "PDF")
    (mk_world ∅ [])
  = (Returned (lit "page one" ++ [10; 10]%N ++ lit "page three"),
     mk_world ∅ [EvPdfReader (lit "/m/t.PDF")]) ∧
  DocumentParser.parse (sample_env [xe9; x0d; x0a; x74] None []) (lit "/m/t.TxT")
    (lit "TxT") (mk_world ∅ [])
  = (Returned [233; 10; 116]%N,
     mk_world ∅ [EvOpen (lit "/m/t.TxT") (lit "utf-8");
                 EvOpen (lit "/m/t.TxT") (lit "latin-1")]).
Proof. vm_compute. done. Qed.

(** An extension outside the three: the [ValueError] is caught and logged. *)
Example index_document_unsupported :
  RagService.index_document (sample_env [] None [])
    (mk_document 7 (lit "sheet.xlsx") (lit "/m/sheet.xlsx")) 1
    (mk_world sample_store [])
  = (Returned false, mk_world sample_store [EvLog ERROR]).
Proof. vm_compute. reflexivity. Qed.

(** A file of spaces and newlines: nothing is embedded or written. *)
Example index_document_blank :
  RagService.index_document (sample_env [x20; x0a; x09; x20] None [])
    (mk_document 7 (lit "blank.txt") (lit "/m/blank.txt")) 1
    (mk_world sample_store [])
  = (Returned false,
     mk_world sample_store
       [EvOpen (lit "/m/blank.txt") (lit "utf-8"); EvLog WARNING]).
Proof. vm_compute. reflexivity. Qed.

(** A whole question: two chunks retrieved, two earlier messages, a key. *)
Example answer_question_example :
  RagService.answer_question
    (sample_env [] (Some (lit "secret"))
       [sample_hdoc "a" "alpha" 1 5 0; sample_hdoc "c" "gamma" 1 6 0])
    (lit "What is new?") 1 [5; 6]
    (Some [<[lit "role" := lit "user"]> (<[lit "content" := lit "hi"]> ∅);
           <[lit "role" := lit "assistant"]> (<[lit "content" := lit "hello"]> ∅)])
    (mk_world sample_store [])
  = (Returned (lit "An answer."),
     mk_world sample_store
       [EvEmbedText (lit "What is new?");
        EvRetrieve (mk_filter 1 [5; 6]) 5;
        EvGenaiClient (lit "secret");
        EvGenerateContent (lit "gemini-2.5-flash")
          (lit "You are a helpful assistant answering questions based on the provided documents.

Recent conversation:
User: hi
Assistant: hello

Relevant document excerpts:
alpha

---

gamma

User question: What is new?

Please provide a clear, accurate answer based on the document excerpts above. If the documents don't contain enough information to answer the question, say so clearly.

Answer:")]).
Proof. vm_compute. reflexivity. Qed.

(** Indexing a text file of two sentences writes its one chunk. *)
Example index_document_example :
  RagService.index_document
    (sample_env [x48; x69; x2e; x20; x42; x79; x65; x2e; x0a] None [])
    (mk_document 7 (lit "notes.TXT") (lit "/m/notes.TXT")) 1 (mk_world ∅ [])
  = (Returned true,
     mk_world
       (<[lit "Hi. Bye." :=
            mk_stored (lit "Hi. Bye.") (mk_meta 1 7 (lit "notes.TXT") 0) None]> ∅)
       [EvOpen (lit "/m/notes.TXT") (lit "utf-8");
        EvEmbedDocuments
          [mk_hdoc (lit "Hi. Bye.") (lit "Hi. Bye.")
                   (mk_meta 1 7 (lit "notes.TXT") 0) None];
        EvWriteDocuments
          [mk_hdoc (lit "Hi. Bye.") (lit "Hi. Bye.")
                   (mk_meta 1 7 (lit "notes.TXT") 0) None];
        EvLog INFO]).
Proof. vm_compute. reflexivity. Qed.

(** ** Strings *)

Section strings.

Lemma len_nonneg {A} (s : list A) : 0 <= len s.
Proof. unfold len. lia. Qed.

Lemma len_app {A} (s t : list A) : len (s ++ t) = len s + len t.
Proof. unfold len. rewrite length_app. lia. Qed.

Lemma startswith_prefix s sub : startswith s sub = true <-> sub `prefix_of` s.
Proof.
  revert s. induction sub as [|a sub IH]; intros s; simpl.
  - split; [intros _; apply prefix_nil | done].
  - destruct s as [|b s].
    + split; [done | intros [k Hk]; discriminate].
    + destruct (N.eqb_spec a b) as [->|Hne].
      * rewrite IH. split; [apply prefix_cons | apply prefix_cons_inv_2].
      * split; [done | intros H; apply prefix_cons_inv_1 in H; congruence].
Qed.

Lemma startswith_length s sub :
  startswith s sub = true -> (length sub <= length s)%nat.
Proof. rewrite startswith_prefix. apply prefix_length. Qed.

Lemma slice_substring (s : pystr) i j : substring (slice s i j) s.
Proof.
  unfold slice.
  exists (take (Z.to_nat (clamp_index (len s) i)) s),
    (drop (Z.to_nat (clamp_index (len s) j - clamp_index (len s) i))
          (drop (Z.to_nat (clamp_index (len s) i)) s)).
  by rewrite !take_drop.
Qed.

Lemma slice_length {A} (s : list A) i j : i <= j -> len (slice s i j) <= j - i.
Proof.
  intros Hij. unfold slice, len, clamp_index.
  rewrite length_take, length_drop.
  destruct (Z.ltb_spec i 0), (Z.ltb_spec j 0); lia.
Qed.

Lemma lstrip_suffix s : lstrip s `suffix_of` s.
Proof.
  induction s as [|c s IH]; simpl; [done|].
  destruct (isspace c); [by apply suffix_cons_r | done].
Qed.

Lemma rstrip_prefix s : rstrip s `prefix_of` s.
Proof.
  unfold rstrip. destruct (lstrip_suffix (reverse s)) as [k Hk].
  exists (reverse k).
  rewrite <- (reverse_involutive s), Hk at 1. by rewrite reverse_app.
Qed.

Lemma strip_substring s : substring (strip s) s.
Proof.
  unfold strip.
  destruct (lstrip_suffix s) as [pre Hpre].
  destruct (rstrip_prefix (lstrip s)) as [post Hpost].
  exists pre, post. by rewrite <- Hpost.
Qed.

Lemma substring_trans a b c : substring a b -> substring b c -> substring a c.
Proof.
  intros (p1 & q1 & ->) (p2 & q2 & ->).
  exists (p2 ++ p1), (q1 ++ q2). by rewrite <- !(assoc_L (++)).
Qed.

Lemma substring_length c text : substring c text -> len c <= len text.
Proof. intros (pre & post & ->). rewrite !len_app. pose proof (len_nonneg pre). pose proof (len_nonneg post). lia. Qed.

Lemma strip_length s : len (strip s) <= len s.
Proof. apply substring_length, strip_substring. Qed.

(** What [rfind_from] returns: either no index of [s] has an occurrence
    and the result is [last], or the result is [i] plus the last such
    index. *)
Lemma rfind_from_spec s sub i last :
  (rfind_from s sub i last = last ∧
   ∀ k, (k <= length s)%nat -> startswith (drop k s) sub = false) ∨
  (∃ k, rfind_from s sub i last = i + Z.of_nat k ∧ (k <= length s)%nat ∧
        startswith (drop k s) sub = true ∧
        ∀ k', (k < k' <= length s)%nat -> startswith (drop k' s) sub = false).
Proof.
  revert i last. induction s as [|c s IH]; intros i last.
  - cbn [rfind_from]. destruct (startswith [] sub) eqn:Hs.
    + right. exists 0%nat. repeat split; [lia | done | done | simpl; lia].
    + left. split; [done|]. intros k Hk. by rewrite drop_nil.
  - cbn [rfind_from].
    destruct (IH (i + 1) (if startswith (c :: s) sub then i else last))
      as [[Hr Hno] | (k & Hr & Hk & Hocc & Hlast)].
    + destruct (startswith (c :: s) sub) eqn:Hs.
      * right. exists 0%nat. repeat split; [lia | simpl; lia | done |].
        intros [|k'] Hk'; [lia|]. simpl. apply Hno. simpl in Hk'. lia.
      * left. split; [done|]. intros [|k] Hk; [done|].
        simpl. apply Hno. simpl in Hk. lia.
    + right. exists (S k). repeat split; [lia | simpl; lia | done |].
      intros [|k'] Hk'; [lia|]. simpl. apply Hlast. simpl in Hk'. lia.
Qed.

Lemma rfind_spec s sub :
  (rfind s sub = -1 ∧ ∀ k, ¬ occurs_at s sub k) ∨
  (last_occurrence s sub (rfind s sub) ∧ rfind s sub + len sub <= len s).
Proof.
  unfold rfind.
  destruct (rfind_from_spec s sub 0 (-1)) as [[Hr Hno] | (k & Hr & Hk & Hocc & Hlast)].
  - left. split; [done|]. intros k [Hk Hocc].
    rewrite Hno in Hocc; [done|]. unfold len in Hk. lia.
  - right. rewrite Hr. split; [split|].
    + split; [unfold len; lia|]. by rewrite Z.add_0_l, Nat2Z.id.
    + intros k' Hlt [Hk' Hocc'].
      rewrite Hlast in Hocc'; [done|]. unfold len in Hk'. lia.
    + apply startswith_length in Hocc. rewrite length_drop in Hocc.
      unfold len. lia.
Qed.

Lemma rfind_bound s sub : -1 <= rfind s sub ∧ (0 <= rfind s sub -> rfind s sub + len sub <= len s).
Proof.
  destruct (rfind_spec s sub) as [[-> _] | [[[Hk _] _] Hb]]; lia.
Qed.

End strings.

(** ** TextChunker: one window *)

Section chunker.

Import TextChunker.

Variable self : TextChunker.t.
Variable text : pystr.

Let cs := chunk_size self.
Let ov := chunk_overlap self.

Lemma markers_len p : p ∈ markers -> len p = 2.
Proof.
  unfold markers. rewrite !elem_of_cons, elem_of_nil.
  intros [->|[->|[->|[->|[]]]]]; reflexivity.
Qed.

(** The marker loop stops at the first marker of the list that has an
    occurrence beyond [chunk_size // 2]. *)
Lemma sentence_break_first window start pre p post :
  (∀ q, q ∈ pre -> rfind window q <= cs `div` 2) ->
  cs `div` 2 < rfind window p ->
  sentence_break self window start (pre ++ p :: post)
  = Some (start + rfind window p + len p).
Proof.
  intros Hpre Hp. induction pre as [|q pre IH]; cbn [sentence_break app].
  - fold cs. destruct (Z.ltb_spec (cs `div` 2) (rfind window p)); [done | lia].
  - fold cs. destruct (Z.ltb_spec (cs `div` 2) (rfind window q)) as [Hq|_].
    + specialize (Hpre q (list_elem_of_here _ _)). lia.
    + apply IH. intros q' Hq'. apply Hpre. by apply list_elem_of_further.
Qed.

Lemma sentence_break_none window start puncts :
  (∀ q, q ∈ puncts -> rfind window q <= cs `div` 2) ->
  sentence_break self window start puncts = None.
Proof.
  induction puncts as [|q puncts IH]; intros H; cbn [sentence_break]; [done|].
  fold cs. destruct (Z.ltb_spec (cs `div` 2) (rfind window q)) as [Hq|_].
  - specialize (H q (list_elem_of_here _ _)). lia.
  - apply IH. intros q' Hq'. apply H. by apply list_elem_of_further.
Qed.

Lemma sentence_break_some window start puncts e :
  sentence_break self window start puncts = Some e ->
  ∃ p, p ∈ puncts ∧ cs `div` 2 < rfind window p ∧
       e = start + rfind window p + len p.
Proof.
  induction puncts as [|q puncts IH]; cbn [sentence_break]; [done|].
  fold cs. destruct (Z.ltb_spec (cs `div` 2) (rfind window q)) as [Hq|_].
  - intros [= <-]. exists q. split; [apply list_elem_of_here | done].
  - intros H. destruct (IH H) as (p & Hp & Hlt & ->).
    exists p. split; [by apply list_elem_of_further | done].
Qed.

(** Where the cut falls: never beyond the raw boundary, and at least
    [min(chunk_size, chunk_size // 2 + 3)] characters after [start]. *)
Lemma window_end_bounds start :
  0 <= cs ->
  start + Z.min cs (cs `div` 2 + 3) <= window_end self text start <= start + cs.
Proof.
  intros Hcs. unfold window_end. fold cs.
  destruct (Z.ltb_spec (start + cs) (len text)) as [Hlt|_]; [|lia].
  destruct (sentence_break _ _ _ _) as [e|] eqn:Hsb; [|lia].
  apply sentence_break_some in Hsb as (p & Hp & Hhalf & ->).
  apply markers_len in Hp as Hlen.
  pose proof (rfind_bound (slice text start (start + cs)) p) as [_ Hb].
  pose proof (slice_length text start (start + cs)).
  pose proof (Z.div_pos cs 2). lia.
Qed.

Lemma step_start start chunks :
  (step self text start chunks).2 = window_end self text start - ov.
Proof. reflexivity. Qed.

(** With an overlap below the size and at most [chunk_size // 2 + 2],
    [start] grows in every turn of the loop. *)
Lemma step_advances start chunks :
  0 <= ov < cs -> ov <= cs `div` 2 + 2 ->
  start < (step self text start chunks).2.
Proof.
  intros Hov Hhalf. rewrite step_start.
  pose proof (window_end_bounds start). lia.
Qed.

(** The chunk of a window is no longer than [chunk_size]. *)
Lemma window_chunk_length start :
  0 <= cs ->
  len (strip (slice text start (window_end self text start))) <= cs.
Proof.
  intros Hcs. pose proof (window_end_bounds start Hcs).
  pose proof (strip_length (slice text start (window_end self text start))).
  pose proof (slice_length text start (window_end self text start)).
  pose proof (Z.div_pos cs 2). lia.
Qed.

(** ** TextChunker: the loop *)

Lemma loop_unfold fuel start chunks :
  loop fuel self text start chunks =
  if start <? len text then
    match fuel with
    | O => None
    | S fuel' =>
        loop fuel' self text (step self text start chunks).2
             (step self text start chunks).1
    end
  else Some chunks.
Proof. destruct fuel; reflexivity. Qed.

(** A property of the list of chunks that every turn keeps holds of the
    list returned. *)
Lemma loop_invariant (P : list pystr -> Prop) :
  (∀ start chunks, P chunks -> P (step self text start chunks).1) ->
  ∀ fuel start chunks res,
    P chunks -> loop fuel self text start chunks = Some res -> P res.
Proof.
  intros Hstep. induction fuel as [|fuel IH]; intros start chunks res HP;
    rewrite loop_unfold; destruct (start <? len text); try done.
  - by intros [= <-].
  - apply IH. by apply Hstep.
  - by intros [= <-].
Qed.

(** More turns do not change what a finished loop returned. *)
Lemma loop_fuel_mono fuel fuel' start chunks res :
  (fuel <= fuel')%nat ->
  loop fuel self text start chunks = Some res ->
  loop fuel' self text start chunks = Some res.
Proof.
  revert fuel' start chunks. induction fuel as [|fuel IH];
    intros fuel' start chunks Hle;
    rewrite (loop_unfold fuel' start chunks);
    [rewrite (loop_unfold 0 start chunks)
    |rewrite (loop_unfold (S fuel) start chunks)];
    destruct (start <? len text); try done.
  destruct fuel' as [|fuel']; [lia|]. apply IH. lia.
Qed.

(** When [start] grows in every turn, the loop is over after as many turns
    as there are characters from [start] to the end of the text. *)
Lemma loop_terminates :
  (∀ start chunks, start < (step self text start chunks).2) ->
  ∀ fuel start chunks,
    len text - start <= Z.of_nat fuel ->
    ∃ res, loop fuel self text start chunks = Some res.
Proof.
  intros Hadv. induction fuel as [|fuel IH]; intros start chunks Hfuel;
    rewrite loop_unfold; destruct (Z.ltb_spec start (len text)); eauto; [lia|].
  apply IH. specialize (Hadv start chunks). lia.
Qed.

Lemma step_chunks_length start chunks :
  0 <= cs ->
  Forall (fun c => len c <= cs) chunks ->
  Forall (fun c => len c <= cs) (step self text start chunks).1.
Proof.
  intros Hcs Hall. unfold step. cbn [fst]. case_bool_decide; [done|].
  apply Forall_app. split; [done|].
  apply Forall_singleton. by apply window_chunk_length.
Qed.

Lemma step_chunks_substring start chunks :
  Forall (fun c => c ≠ [] ∧ substring c text) chunks ->
  Forall (fun c => c ≠ [] ∧ substring c text) (step self text start chunks).1.
Proof.
  intros Hall. unfold step. cbn [fst]. case_bool_decide as Hne; [done|].
  apply Forall_app. split; [done|].
  apply Forall_singleton. split; [done|].
  eapply substring_trans; [apply strip_substring | apply slice_substring].
Qed.

End chunker.

(** ** TextChunker: the statements *)

Section chunker_statements.

Import TextChunker.

Lemma last_occurrence_unique s sub r r' :
  last_occurrence s sub r -> last_occurrence s sub r' -> r = r'.
Proof.
  intros [Ho Hmax] [Ho' Hmax'].
  destruct (Z.lt_trichotomy r r') as [Hlt|[->|Hlt]]; [|done|].
  - by apply Hmax in Hlt.
  - by apply Hmax' in Hlt.
Qed.

Lemma last_occurrence_rfind s sub r :
  last_occurrence s sub r -> rfind s sub = r.
Proof.
  intros Hr. destruct (rfind_spec s sub) as [[_ Hno] | [Hlast _]].
  - destruct Hr as [Ho _]. by apply Hno in Ho.
  - by apply (last_occurrence_unique s sub).
Qed.

(** With no occurrence later than [half], [rfind] is at most [half]. *)
Lemma rfind_le_half s sub half :
  -1 <= half ->
  (∀ r, last_occurrence s sub r -> r <= half) -> rfind s sub <= half.
Proof.
  intros Hhalf H. destruct (rfind_spec s sub) as [[-> _] | [Hlast _]]; [lia|].
  by apply H.
Qed.

(** The loop of the chunker with ten-character windows that overlap by
    eight: the first window is cut at 8, right after the ['. '] found at
    index 6, and the next window starts at [8 - 8 = 0] again. *)
Lemma loop_overlap_8_of_10 fuel chunks :
  loop fuel (mk 10 8) (lit "aaaaaa. bbbbbbbbbbbb") 0 chunks = None.
Proof.
  revert chunks. induction fuel as [|fuel IH]; intros chunks;
    rewrite loop_unfold; [reflexivity|].
  change (0 <? len (lit "aaaaaa. bbbbbbbbbbbb")) with true. cbv iota.
  change ((step (mk 10 8) (lit "aaaaaa. bbbbbbbbbbbb") 0 chunks).2) with 0.
  apply IH.
Qed.

(** C2, counterexample: with [chunk_size = 10 > overlap = 8 >= 0] the
    next [start] of the first window is [0] again, and [chunk] returns
    for no number of turns. *)
Lemma chunk_overlap_8_of_10_never_returns :
  0 <= chunk_overlap (mk 10 8) < chunk_size (mk 10 8) ∧
  (step (mk 10 8) (lit "aaaaaa. bbbbbbbbbbbb") 0 []).2 = 0 ∧
  ¬ ∃ fuel res, chunk fuel (mk 10 8) (lit "aaaaaa. bbbbbbbbbbbb") = Some res.
Proof.
  split; [simpl; lia|]. split; [reflexivity|].
  intros (fuel & res & H). unfold chunk in H.
  rewrite bool_decide_eq_false_2 in H by discriminate.
  by rewrite loop_overlap_8_of_10 in H.
Qed.

(** C2, as amended: for every text and every configuration with
    [chunk_size > overlap >= 0] and [overlap <= chunk_size // 2 + 2],
    [start] grows in every turn of the loop, [chunk] returns within
    [len(text)] turns, and every chunk returned has at most
    [chunk_size] plus one marker length (2) characters. *)
Theorem chunk_terminates_bounded (self : TextChunker.t) (text : pystr) :
  0 <= chunk_overlap self < chunk_size self ->
  chunk_overlap self <= chunk_size self `div` 2 + 2 ->
  (∀ start chunks, start < (step self text start chunks).2) ∧
  ∃ res, chunk (length text) self text = Some res ∧
         Forall (fun c => len c <= chunk_size self + 2) res.
Proof.
  intros Hov Hhalf.
  assert (Hadv : ∀ start chunks, start < (step self text start chunks).2)
    by (intros; by apply step_advances).
  split; [done|]. unfold chunk. case_bool_decide.
  - exists []. by split.
  - destruct (loop_terminates self text Hadv (length text) 0 []) as [res Hres];
      [unfold len; lia|].
    exists res. split; [done|].
    eapply Forall_impl.
    + apply (loop_invariant self text (Forall (fun c => len c <= chunk_size self)))
        with (3 := Hres); [|constructor].
      intros start chunks. apply step_chunks_length. lia.
    + simpl. intros c Hc. lia.
Qed.

Lemma chunk_terminates_bounded_witness :
  (0 <= chunk_overlap default < chunk_size default ∧
   chunk_overlap default <= chunk_size default `div` 2 + 2) ∧
  (∀ start chunks, start < (step default (lit "short text") start chunks).2) ∧
  ∃ res, chunk (length (lit "short text")) default (lit "short text") = Some res ∧
         Forall (fun c => len c <= chunk_size default + 2) res.
Proof.
  split; [|apply (chunk_terminates_bounded default (lit "short text"))];
    unfold default; cbn [chunk_size chunk_overlap];
    change (500 `div` 2) with 250; lia.
Defined.

(** C10: whenever [chunk] returns, every chunk of the list is a
    non-empty string and a run of consecutive characters of the text. *)
Theorem chunk_substrings (fuel : nat) (self : TextChunker.t) (text : pystr)
    (res : list pystr) :
  chunk fuel self text = Some res ->
  Forall (fun c => c ≠ [] ∧ substring c text) res.
Proof.
  unfold chunk. case_bool_decide.
  - intros [= <-]. constructor.
  - apply (loop_invariant self text (Forall (fun c => c ≠ [] ∧ substring c text)));
      [|constructor].
    intros start chunks. apply step_chunks_substring.
Qed.

Lemma chunk_substrings_witness :
  chunk 20 (mk 10 2) (lit "abcdefg. hijklmnopqrstu")
  = Some [lit "abcdefg."; lit ". hijklmno"; lit "nopqrstu"] ∧
  Forall (fun c => c ≠ [] ∧ substring c (lit "abcdefg. hijklmnopqrstu"))
         [lit "abcdefg."; lit ". hijklmno"; lit "nopqrstu"].
Proof.
  split; [vm_compute; reflexivity|].
  apply (chunk_substrings 20 (mk 10 2)). vm_compute. reflexivity.
Defined.

(** C5, counterexample: in the six-character window ["abc. e"] of
    ["abc. efghij"] the last occurrence of a marker is ['. '] at index 3,
    which is the midpoint [6 // 2]; the text goes on after the window, yet
    the cut is at the raw boundary 6 and not after the marker at 5. *)
Lemma cut_at_midpoint_marker_not_taken :
  0 + chunk_size (mk 6 0) < len (lit "abc. efghij") ∧
  last_occurrence (slice (lit "abc. efghij") 0 (0 + 6)) [46; 32]%N 3 ∧
  (∀ q r, q ∈ markers ->
          last_occurrence (slice (lit "abc. efghij") 0 (0 + 6)) q r -> r <= 3) ∧
  chunk_size (mk 6 0) `div` 2 <= 3 ∧
  window_end (mk 6 0) (lit "abc. efghij") 0 = 0 + 6 ∧
  window_end (mk 6 0) (lit "abc. efghij") 0 ≠ 0 + 3 + len [46; 32]%N.
Proof.
  split; [vm_compute; reflexivity|]. split; [|split; [|split; [|split]]].
  - destruct (rfind_spec (slice (lit "abc. efghij") 0 (0 + 6)) [46; 32]%N)
      as [[Hr _] | [Hlast _]]; [vm_compute in Hr; discriminate|].
    exact Hlast.
  - intros q r Hq Hr. apply last_occurrence_rfind in Hr as <-.
    unfold markers in Hq. rewrite !elem_of_cons, elem_of_nil in Hq.
    destruct Hq as [->|[->|[->|[->|[]]]]]; vm_compute; discriminate.
  - vm_compute; discriminate.
  - vm_compute; reflexivity.
  - vm_compute; discriminate.
Qed.

(** The markers are tried in the order of the list, not by position: in
    ["abcdefg. h! klmnopqrstuvw"] with twelve-character windows the cut
    is after ['. '] (index 7), though ['! '] occurs later (index 10). *)
Example cut_follows_marker_order :
  rfind (slice (lit "abcdefg. h! klmnopqrstuvw") 0 12) [46; 32]%N = 7 ∧
  rfind (slice (lit "abcdefg. h! klmnopqrstuvw") 0 12) [33; 32]%N = 10 ∧
  window_end (mk 12 0) (lit "abcdefg. h! klmnopqrstuvw") 0 = 9.
Proof. vm_compute. done. Qed.

(** C5, as amended: in a window that does not reach the end of the text
    (for a [chunk_size] that is not negative), the markers are taken in
    the order ['. '], ['.\n'], ['! '], ['? ']; the first of them whose last
    occurrence in the window is at an index greater than
    [chunk_size // 2] puts the cut right after that occurrence, and when
    no marker has such an occurrence the cut is at the raw boundary
    [start + chunk_size]. *)
Theorem window_end_sentence_break (self : TextChunker.t) (text : pystr)
    (start : Z) :
  0 <= chunk_size self ->
  start + chunk_size self < len text ->
  (∀ pre p post r,
     markers = pre ++ p :: post ->
     (∀ q r', q ∈ pre ->
        last_occurrence (slice text start (start + chunk_size self)) q r' ->
        r' <= chunk_size self `div` 2) ->
     last_occurrence (slice text start (start + chunk_size self)) p r ->
     chunk_size self `div` 2 < r ->
     window_end self text start = start + r + len p) ∧
  ((∀ q r', q ∈ markers ->
      last_occurrence (slice text start (start + chunk_size self)) q r' ->
      r' <= chunk_size self `div` 2) ->
   window_end self text start = start + chunk_size self).
Proof.
  intros Hcs Hend. pose proof (Z.div_pos (chunk_size self) 2).
  unfold window_end.
  destruct (Z.ltb_spec (start + chunk_size self) (len text)); [|lia].
  split.
  - intros pre p post r -> Hpre Hp Hhalf.
    apply last_occurrence_rfind in Hp as Hr. rewrite <- Hr in *.
    rewrite (sentence_break_first self); [done | | done].
    intros q Hq. apply rfind_le_half; [lia|]. intros r'. by apply Hpre.
  - intros Hnone. rewrite (sentence_break_none self); [done|].
    intros q Hq. apply rfind_le_half; [lia|]. intros r'. by apply Hnone.
Qed.

Lemma window_end_sentence_break_witness :
  (0 <= chunk_size (mk 10 2) ∧
   0 + chunk_size (mk 10 2) < len (lit "abcdefg. hijklmnopqrstu")) ∧
  (∀ pre p post r,
     markers = pre ++ p :: post ->
     (∀ q r', q ∈ pre ->
        last_occurrence (slice (lit "abcdefg. hijklmnopqrstu") 0 (0 + chunk_size (mk 10 2))) q r' ->
        r' <= chunk_size (mk 10 2) `div` 2) ->
     last_occurrence (slice (lit "abcdefg. hijklmnopqrstu") 0 (0 + chunk_size (mk 10 2))) p r ->
     chunk_size (mk 10 2) `div` 2 < r ->
     window_end (mk 10 2) (lit "abcdefg. hijklmnopqrstu") 0 = 0 + r + len p) ∧
  ((∀ q r', q ∈ markers ->
      last_occurrence (slice (lit "abcdefg. hijklmnopqrstu") 0 (0 + chunk_size (mk 10 2))) q r' ->
      r' <= chunk_size (mk 10 2) `div` 2) ->
   window_end (mk 10 2) (lit "abcdefg. hijklmnopqrstu") 0 = 0 + chunk_size (mk 10 2)).
Proof.
  split; [split; [simpl; lia | vm_compute; reflexivity]|].
  apply (window_end_sentence_break (mk 10 2) (lit "abcdefg. hijklmnopqrstu") 0);
    [simpl; lia | vm_compute; reflexivity].
Defined.

End chunker_statements.

(** ** TextChunker: a text that is not blank gives a chunk *)

Section chunker_cover.

Import TextChunker.

Lemma lstrip_split s :
  ∃ ws, s = ws ++ lstrip s ∧ Forall (fun c => isspace c = true) ws.
Proof.
  induction s as [|c s (ws & Hs & Hws)]; [by exists []|]. cbn [lstrip].
  destruct (isspace c) eqn:Hc.
  - exists (c :: ws). split; [by rewrite Hs at 1 | by constructor].
  - by exists [].
Qed.

Lemma lstrip_nil s :
  lstrip s = [] <-> Forall (fun c => isspace c = true) s.
Proof.
  split.
  - intros Hnil. destruct (lstrip_split s) as (ws & Hs & Hws).
    rewrite Hnil, app_nil_r in Hs. by subst.
  - induction 1 as [|c s Hc _ IH]; [done|]. cbn [lstrip]. by rewrite Hc.
Qed.

Lemma rstrip_nil s :
  rstrip s = [] <-> Forall (fun c => isspace c = true) s.
Proof.
  unfold rstrip. rewrite <- Forall_reverse, <- lstrip_nil.
  split; [|by intros ->].
  intros H. apply (f_equal reverse) in H. by rewrite reverse_involutive in H.
Qed.

(** [strip] leaves nothing exactly when every character is a space. *)
Lemma strip_nil s :
  strip s = [] <-> Forall (fun c => isspace c = true) s.
Proof.
  unfold strip. rewrite rstrip_nil. split.
  - intros H. destruct (lstrip_split s) as (ws & Hs & Hws).
    rewrite Hs. by apply Forall_app.
  - intros H. apply lstrip_nil in H. rewrite H. constructor.
Qed.

Lemma Forall_take_le {A} (P : A -> Prop) (l : list A) n m :
  Forall P (take m l) -> (n <= m)%nat ∨ (length l <= m)%nat ->
  Forall P (take n l).
Proof.
  intros H [Hle|Hle].
  - replace n with (n `min` m)%nat by lia. rewrite <- take_take.
    by apply Forall_take.
  - rewrite take_ge in H by done. by apply Forall_take.
Qed.

Variable self : TextChunker.t.
Variable text : pystr.

(** As [loop_invariant], for a property that also speaks of [start]: it
    holds of the list returned and of a [start] at or beyond the end of
    the text. *)
Lemma loop_invariant_start (P : Z -> list pystr -> Prop) :
  (∀ start chunks,
     start < len text -> P start chunks ->
     P (step self text start chunks).2 (step self text start chunks).1) ->
  ∀ fuel start chunks res,
    P start chunks -> loop fuel self text start chunks = Some res ->
    ∃ start', len text <= start' ∧ P start' res.
Proof.
  intros Hstep. induction fuel as [|fuel IH]; intros start chunks res HP;
    rewrite loop_unfold; destruct (Z.ltb_spec start (len text)); try done.
  - intros [= <-]. eauto.
  - apply IH. by apply Hstep.
  - intros [= <-]. eauto.
Qed.

(** A window whose chunk is dropped holds spaces only, so the characters
    before the next [start] are all spaces if those before [start] were. *)
Lemma step_blank_prefix start chunks :
  0 <= chunk_overlap self < chunk_size self ->
  chunk_overlap self <= chunk_size self `div` 2 + 2 ->
  0 <= start < len text ->
  Forall (fun c => isspace c = true) (take (Z.to_nat start) text) ->
  (step self text start chunks).1 = chunks ->
  chunks = [] ->
  Forall (fun c => isspace c = true)
         (take (Z.to_nat (step self text start chunks).2) text).
Proof.
  intros Hov Hhalf Hstart Hpre Hsame ->. rewrite step_start.
  pose proof (window_end_bounds self text start ltac:(lia)) as Hend.
  pose proof (Z.div_pos (chunk_size self) 2 ltac:(lia) ltac:(lia)).
  unfold step in Hsame. cbn [fst] in Hsame.
  case_bool_decide as Hblank; [|by destruct (strip _)].
  apply strip_nil in Hblank. unfold slice, clamp_index in Hblank.
  destruct (Z.ltb_spec start 0); [lia|].
  destruct (Z.ltb_spec (window_end self text start) 0); [lia|].
  rewrite (Z.min_l start) in Hblank by lia.
  assert (Hboth : Forall (fun c => isspace c = true)
            (take (Z.to_nat start +
                   Z.to_nat (Z.min (window_end self text start) (len text) - start)) text)).
  { rewrite <- take_take_drop. by apply Forall_app. }
  eapply Forall_take_le; [exact Hboth|]. unfold len in *. lia.
Qed.

Lemma chunk_nonblank fuel res :
  0 <= chunk_overlap self < chunk_size self ->
  chunk_overlap self <= chunk_size self `div` 2 + 2 ->
  strip text ≠ [] ->
  chunk fuel self text = Some res -> res ≠ [].
Proof.
  intros Hov Hhalf Hstrip. unfold chunk.
  case_bool_decide as Hnil; [by subst text|]. intros Hloop.
  destruct (loop_invariant_start
    (fun start chunks =>
       chunks ≠ [] ∨
       (0 <= start ∧
        Forall (fun c => isspace c = true) (take (Z.to_nat start) text)))
    ) with (3 := Hloop) as (start' & Hend & [Hres | [_ Hblank]]).
  - intros start chunks Hlt [Hne | [Hstart Hpre]].
    + left. unfold step. cbn [fst]. case_bool_decide; [done|].
      by destruct chunks.
    + destruct (decide (chunks = [])) as [->|Hne].
      * destruct (decide ((step self text start []).1 = [])) as [Hsame|Hnew];
          [right | by left].
        pose proof (step_advances self text start [] Hov Hhalf).
        split; [lia|]. by apply step_blank_prefix.
      * left. unfold step. cbn [fst]. case_bool_decide; [done|].
        by destruct chunks.
  - right. split; [done|]. constructor.
  - done.
  - rewrite take_ge in Hblank by (unfold len in Hend; lia).
    by apply strip_nil in Hblank.
Qed.

End chunker_cover.

(** [TextChunker()] returns on every text, within [len(text)] turns. *)
Lemma chunk_default_returns text :
  ∃ chunks,
    TextChunker.chunk (length text) TextChunker.default text = Some chunks.
Proof.
  unfold TextChunker.chunk. case_bool_decide; [by exists []|].
  apply loop_terminates; [|unfold len; lia].
  intros start chunks. apply step_advances; cbn; [lia|].
  change (500 `div` 2) with 250. lia.
Qed.

Lemma chunk_default_nonblank text chunks :
  strip text ≠ [] ->
  TextChunker.chunk (length text) TextChunker.default text = Some chunks ->
  chunks ≠ [].
Proof.
  apply chunk_nonblank; cbn; [lia|]. change (500 `div` 2) with 250. lia.
Qed.

(** ** RagService.answer_question *)

Section answer_question.

Import RagService.

Variable E : env.

Lemma key_not_configured_distinct :
  (∀ s, key_not_configured ≠ error_prefix ++ s) ∧
  key_not_configured ≠ no_response ∧
  key_not_configured ≠ no_information.
Proof. repeat split; try intros s; discriminate. Qed.

(** The [try] block returns or raises; it does not run for ever. *)
Lemma answer_question_try_outcome question user_id ids chat_history w :
  ∃ w', (∃ answer, answer_question_try E question user_id ids chat_history w
                   = (Returned answer, w')) ∨
        (∃ e, answer_question_try E question user_id ids chat_history w
              = (Raised e, w')).
Proof.
  unfold answer_question_try. run.
  repeat (case_match; run; simplify_eq); eauto.
Qed.

(** C1: for every question, user, selection and history, and whatever
    the libraries do, [answer_question] returns a string; when the [try]
    block raises, the string is the fixed error text followed by the
    text of the exception. *)
Theorem answer_question_never_raises (question : pystr) (user_id : Z)
    (ids : list Z) (chat_history : option (list message)) (w : world) :
  (∃ answer w',
     answer_question E question user_id ids chat_history w
     = (Returned answer, w')) ∧
  (∀ e w1,
     answer_question_try E question user_id ids chat_history w = (Raised e, w1) ->
     answer_question E question user_id ids chat_history w
     = (Returned (error_prefix ++ exn_str e),
        mk_world (store w1) (trace w1 ++ [EvLog ERROR]))).
Proof.
  unfold answer_question, try_except. split.
  - destruct (answer_question_try_outcome question user_id ids chat_history w)
      as [w' [[answer ->] | [e ->]]]; run; eauto.
  - intros e w1 ->. by run.
Qed.

(** A failure of the embedding of the question or of the retrieval ends
    in the error text. *)
Lemma answer_question_retrieval_error question user_id ids chat_history w emb e :
  embedder_warm_up E = Ok tt ->
  embed_text E question = Ok emb ->
  retrieve E (store w) emb (mk_filter user_id ids) 5 = Err e ->
  (answer_question E question user_id ids chat_history w).1
  = Returned (error_prefix ++ exn_str e).
Proof.
  intros Hw He Hr. unfold answer_question, answer_question_try. run.
  rewrite Hw, He. run. by rewrite Hr.
Qed.

(** A failure of the model call ends in the error text. *)
Lemma answer_question_model_error question user_id ids chat_history w emb
    docs api_key e :
  embedder_warm_up E = Ok tt ->
  embed_text E question = Ok emb ->
  retrieve E (store w) emb (mk_filter user_id ids) 5 = Ok docs -> docs ≠ [] ->
  GOOGLE_API_KEY E = Some api_key -> api_key ≠ [] -> api_key ≠ placeholder_key ->
  genai_client E api_key = Ok tt ->
  (∀ prompt, generate_content E (lit "gemini-2.5-flash") prompt = Err e) ->
  (answer_question E question user_id ids chat_history w).1
  = Returned (error_prefix ++ exn_str e).
Proof.
  intros Hw He Hr Hdocs Hkey Hk1 Hk2 Hc Hg.
  unfold answer_question, answer_question_try. run.
  rewrite Hw, He. run. rewrite Hr, Hkey.
  rewrite (bool_decide_eq_false_2 (docs = [])) by done.
  rewrite (bool_decide_eq_false_2 (api_key = [])) by done.
  rewrite (bool_decide_eq_false_2 (api_key = placeholder_key)) by done.
  cbn [orb]. run. rewrite Hc. run. by rewrite Hg.
Qed.

(** C6: when the retrieval returns no chunk, the answer is the fixed
    \"no relevant information\" text, and the calls made are the embedding
    of the question and the retrieval: none reaches the language model. *)
Theorem answer_question_no_documents (question : pystr) (user_id : Z)
    (ids : list Z) (chat_history : option (list message)) (w : world)
    (emb : embedding) :
  embedder_warm_up E = Ok tt ->
  embed_text E question = Ok emb ->
  retrieve E (store w) emb (mk_filter user_id ids) 5 = Ok [] ->
  ∃ evs,
    answer_question E question user_id ids chat_history w
    = (Returned no_information, mk_world (store w) (trace w ++ evs)) ∧
    no_information
    = lit "I couldn't find any relevant information in the selected documents." ∧
    Forall (fun ev => ¬ model_call ev) evs.
Proof.
  intros Hw He Hr.
  exists [EvEmbedText question; EvRetrieve (mk_filter user_id ids) 5].
  split; [|split; [done|]].
  - unfold answer_question, answer_question_try. run.
    rewrite Hw, He. run. rewrite Hr.
    rewrite bool_decide_eq_true_2 by done. by rewrite <- (assoc_L (++)).
  - repeat constructor; by intros [].
Qed.

(** C7: when the retrieval returns chunks and the key is [None], empty
    or the placeholder, the answer is the fixed configuration text, which
    is not an instance of the generic error text, and no call reaches the
    language model. *)
Theorem answer_question_key_not_configured (question : pystr) (user_id : Z)
    (ids : list Z) (chat_history : option (list message)) (w : world)
    (emb : embedding) (docs : list hdoc) :
  embedder_warm_up E = Ok tt ->
  embed_text E question = Ok emb ->
  retrieve E (store w) emb (mk_filter user_id ids) 5 = Ok docs ->
  docs ≠ [] ->
  GOOGLE_API_KEY E = None ∨ GOOGLE_API_KEY E = Some [] ∨
    GOOGLE_API_KEY E = Some placeholder_key ->
  ∃ evs,
    answer_question E question user_id ids chat_history w
    = (Returned key_not_configured, mk_world (store w) (trace w ++ evs)) ∧
    (∀ s, key_not_configured ≠ error_prefix ++ s) ∧
    Forall (fun ev => ¬ model_call ev) evs.
Proof.
  intros Hw He Hr Hdocs Hkey.
  exists [EvEmbedText question; EvRetrieve (mk_filter user_id ids) 5].
  split; [|split; [apply key_not_configured_distinct|]].
  - unfold answer_question, answer_question_try. run.
    rewrite Hw, He. run. rewrite Hr.
    rewrite (bool_decide_eq_false_2 (docs = [])) by done.
    rewrite <- (assoc_L (++)).
    destruct Hkey as [->|[->| ->]]; [done| |].
    + by rewrite bool_decide_eq_true_2.
    + rewrite (bool_decide_eq_true_2 (placeholder_key = placeholder_key)) by done.
      by rewrite orb_true_r.
  - repeat constructor; by intros [].
Qed.

End answer_question.

(** ** DocumentParser *)

Section parser.

Import DocumentParser.

Variable E : env.

(** The dictionary has the three keys and no other. *)
Lemma parsers_lookup k :
  parsers E !! k =
  if decide (k = lit "pdf") then Some (parse_pdf E)
  else if decide (k = lit "docx") then Some (parse_docx E)
  else if decide (k = lit "txt") then Some (parse_txt E)
  else None.
Proof.
  unfold parsers. rewrite !lookup_insert, lookup_empty.
  repeat case_decide; congruence.
Qed.

Lemma utf8_decode_nonempty bs s :
  bs ≠ [] -> utf8_decode bs = Some s -> s ≠ [].
Proof.
  destruct bs as [|b0 r0]; [done|]. intros _. cbn [utf8_decode].
  repeat case_match; try discriminate;
    (destruct (utf8_decode _); cbn; intros [= <-]; discriminate).
Qed.

Lemma universal_newlines_nonempty s : s ≠ [] -> universal_newlines s ≠ [].
Proof.
  destruct s as [|c s]; [done|]. intros _. cbn [universal_newlines].
  by destruct (c =? 13)%N.
Qed.

(** [read_text] in Latin-1 returns whenever the file can be opened. *)
Lemma read_text_latin1 file_path bs w :
  file_bytes E file_path = Ok bs ->
  read_text E file_path Latin1 w
  = (Returned (universal_newlines (latin1_decode bs)),
     mk_world (store w) (trace w ++ [EvOpen file_path (lit "latin-1")])).
Proof. intros Hb. unfold read_text. run. by rewrite Hb. Qed.

Lemma read_text_utf8 file_path bs w :
  file_bytes E file_path = Ok bs ->
  read_text E file_path Utf8 w
  = (match utf8_decode (List.map Byte.to_N bs) with
     | Some s => Returned (universal_newlines s)
     | None => Raised (mk_exn UnicodeDecodeError (lit "invalid byte sequence"))
     end,
     mk_world (store w) (trace w ++ [EvOpen file_path (lit "utf-8")])).
Proof.
  intros Hb. unfold read_text. run. rewrite Hb. cbn [decode].
  by destruct (utf8_decode _).
Qed.

(** C8: an extension that is none of [pdf], [docx], [txt] once lowered
    makes [parse] raise [ValueError] with the world as it was (no file
    was opened, nothing was logged); an extension that lowers to one of
    the three, in whatever case it is written, selects that parser. *)
Theorem parse_dispatch (file_path extension : pystr) (w : world) :
  (lower extension ≠ lit "pdf" -> lower extension ≠ lit "docx" ->
   lower extension ≠ lit "txt" ->
   parse E file_path extension w
   = (Raised (mk_exn ValueError (lit "Unsupported file type: " ++ extension)), w)) ∧
  (lower extension = lit "pdf" ->
   parse E file_path extension = parse_pdf E file_path) ∧
  (lower extension = lit "docx" ->
   parse E file_path extension = parse_docx E file_path) ∧
  (lower extension = lit "txt" ->
   parse E file_path extension = parse_txt E file_path).
Proof.
  unfold parse. rewrite parsers_lookup.
  repeat split; intros; repeat case_decide; try done;
    match goal with
    | H1 : ?x = lit _, H2 : ?x = lit _ |- _ => rewrite H1 in H2; discriminate H2
    end.
Qed.

(** C9: whatever bytes the file holds, [parse_txt] returns once the file
    can be opened: the text is the UTF-8 reading of the bytes when they
    are valid UTF-8 and their Latin-1 reading when they are not, it is
    not empty when the file is not, and [parse] with an extension that
    lowers to [txt] does the same. *)
Theorem parse_txt_total (file_path : pystr) (bs : list byte) (w : world) :
  file_bytes E file_path = Ok bs ->
  ∃ text w',
    parse_txt E file_path w = (Returned text, w') ∧
    text = universal_newlines
             (default (latin1_decode bs) (utf8_decode (List.map Byte.to_N bs))) ∧
    (bs ≠ [] -> text ≠ []) ∧
    (∀ extension, lower extension = lit "txt" ->
       parse E file_path extension w = (Returned text, w')).
Proof.
  intros Hb.
  assert (Hparse : ∀ extension, lower extension = lit "txt" ->
            parse E file_path extension = parse_txt E file_path).
  { intros extension Hext. unfold parse. rewrite parsers_lookup, Hext.
    by repeat case_decide. }
  unfold parse_txt, try_except_decode.
  rewrite (read_text_utf8 _ bs) by done.
  destruct (utf8_decode (List.map Byte.to_N bs)) as [s|] eqn:Hdec.
  - eexists _, _. split; [done|]. split; [done|]. split.
    + intros Hne. apply universal_newlines_nonempty.
      apply (utf8_decode_nonempty (List.map Byte.to_N bs)); [|done].
      by destruct bs.
    + intros extension Hext. rewrite (Hparse _ Hext).
      unfold parse_txt, try_except_decode.
      by rewrite (read_text_utf8 _ bs), Hdec.
  - rewrite (read_text_latin1 _ bs) by done.
    eexists _, _. split; [done|]. split; [done|]. split.
    + intros Hne. apply universal_newlines_nonempty. by destruct bs.
    + intros extension Hext. rewrite (Hparse _ Hext).
      unfold parse_txt, try_except_decode.
      rewrite (read_text_utf8 _ bs), Hdec by done.
      by rewrite (read_text_latin1 _ bs).
Qed.

End parser.

(** ** RagService.index_document *)

Section index_document.

Import RagService.

Variable E : env.

(** [parse] returns or raises, leaves the collection as it is, and calls
    neither the store nor the embedding model. *)
Lemma parse_outcome file_path extension w :
  ∃ o evs,
    DocumentParser.parse E file_path extension w
    = (o, mk_world (store w) (trace w ++ evs)) ∧
    o ≠ Diverged ∧
    Forall (fun ev => ¬ store_or_embedder_call ev) evs.
Proof.
  unfold DocumentParser.parse. rewrite parsers_lookup.
  repeat case_decide.
  - unfold DocumentParser.parse_pdf. run_all.
    repeat (case_match; run_all; simplify_eq); rewrite <- ?(assoc_L (++));
      eexists _, _; (split; [reflexivity|]); (split; [done|]);
      repeat constructor; by intros [].
  - unfold DocumentParser.parse_docx. run_all.
    repeat (case_match; run_all; simplify_eq); rewrite <- ?(assoc_L (++));
      eexists _, _; (split; [reflexivity|]); (split; [done|]);
      repeat constructor; by intros [].
  - unfold DocumentParser.parse_txt, read_text. run_all.
    repeat (case_match; run_all; simplify_eq); rewrite <- ?(assoc_L (++));
      eexists _, _; (split; [reflexivity|]); (split; [done|]);
      repeat constructor; by intros [].
  - run. exists (Raised (mk_exn ValueError (lit "Unsupported file type: " ++ extension))), [].
    rewrite app_nil_r. by destruct w.
Qed.

(** The chunker of [index_document] returns. *)
Lemma run_chunker_returns text w :
  ∃ chunks,
    TextChunker.chunk (length text) TextChunker.default text = Some chunks ∧
    run_chunker text w = (Returned chunks, w).
Proof.
  unfold run_chunker. destruct (chunk_default_returns text) as [chunks ->].
  by exists chunks.
Qed.

(** The [try] block returns or raises; it does not run for ever. *)
Lemma index_document_try_outcome document_model user_id w :
  (index_document_try E document_model user_id w).1 ≠ Diverged.
Proof.
  unfold index_document_try, bind at 1.
  destruct (parse_outcome (file_path document_model)
              (file_extension document_model) w) as (o & evs & -> & Ho & _).
  destruct o as [text|e|]; [|done|done].
  case_bool_decide; [by run|].
  unfold bind at 1.
  destruct (run_chunker_returns text (mk_world (store w) (trace w ++ evs)))
    as (chunks & _ & ->).
  unfold write_documents. run_all.
  repeat (case_match; run_all; simplify_eq); done.
Qed.

(** C3: [index_document] returns a boolean whatever the libraries do;
    when the [try] block raises, it returns [False]; and when the parsed
    text is blank (which is the only way for the chunker to give no
    chunk), it returns [False] with the collection as it was and without
    a call to the store or to the embedding model. *)
Theorem index_document_returns_bool (document_model : document) (user_id : Z)
    (w : world) :
  (∃ b w', index_document E document_model user_id w = (Returned b, w')) ∧
  (∀ e w1,
     index_document_try E document_model user_id w = (Raised e, w1) ->
     index_document E document_model user_id w
     = (Returned false, mk_world (store w1) (trace w1 ++ [EvLog ERROR]))) ∧
  (∀ text w1,
     DocumentParser.parse E (file_path document_model)
       (file_extension document_model) w = (Returned text, w1) ->
     strip text = [] ∨
       TextChunker.chunk (length text) TextChunker.default text = Some [] ->
     ∃ evs,
       index_document E document_model user_id w
       = (Returned false, mk_world (store w) (trace w ++ evs)) ∧
       Forall (fun ev => ¬ store_or_embedder_call ev) evs).
Proof.
  split; [|split].
  - unfold index_document, try_except.
    pose proof (index_document_try_outcome document_model user_id w) as Hout.
    destruct (index_document_try E document_model user_id w) as [[b|e|] w'];
      run; eauto. done.
  - intros e w1 Htry. unfold index_document, try_except. rewrite Htry. by run.
  - intros text w1 Hparse Hempty.
    assert (Hblank : strip text = []).
    { destruct Hempty as [H|H]; [done|].
      destruct (decide (strip text = [])) as [Hs|Hs]; [done|].
      by apply (chunk_default_nonblank text []) in Hs. }
    destruct (parse_outcome (file_path document_model)
                (file_extension document_model) w) as (o & evs & Hp & _ & Hevs).
    rewrite Hp in Hparse. injection Hparse as -> <-.
    exists (evs ++ [EvLog WARNING]). split.
    + unfold index_document, try_except, index_document_try, bind at 1.
      rewrite Hp. rewrite bool_decide_eq_true_2 by done. run.
      by rewrite <- (assoc_L (++)).
    + apply Forall_app. split; [done|]. repeat constructor. by intros [].
Qed.

End index_document.

(** ** RagService.delete_document_embeddings *)

Section delete_document_embeddings.

Import RagService.

Variable E : env.

(** The dictionary of [delete_document_embeddings] is not a filter of
    the store, while the one of [answer_question] is. *)
Lemma delete_filters_no_operator document_id user_id :
  has_operator (delete_filters document_id user_id) = false.
Proof. reflexivity. Qed.

Lemma answer_filters_operator user_id ids :
  has_operator (answer_filters user_id ids) = true.
Proof. reflexivity. Qed.

(** So [filter_documents] raises, the handler logs, and the call ends
    with the collection as it was. *)
Lemma delete_document_embeddings_refused document_id user_id w :
  delete_document_embeddings E document_id user_id w
  = (Returned tt,
     mk_world (store w)
       (trace w ++
        [EvFilterDocuments (delete_filters document_id user_id);
         EvLog ERROR])).
Proof.
  unfold delete_document_embeddings, delete_document_embeddings_try,
    filter_documents.
  rewrite delete_filters_no_operator. run.
  by rewrite <- (assoc_L (++)).
Qed.

(** X17: whether the store calls fail or not,
    [delete_document_embeddings] returns, and an entry of another document
    or of another user is kept as it was. *)
Lemma delete_keeps_other_entries document_id user_id w k e :
  store w !! k = Some e ->
  meta_document_id (st_meta e) ≠ document_id ∨
    meta_user_id (st_meta e) ≠ user_id ->
  ∃ w', delete_document_embeddings E document_id user_id w = (Returned tt, w') ∧
        store w' !! k = Some e.
Proof.
  intros Hk Hne. rewrite delete_document_embeddings_refused.
  eexists. split; [reflexivity|]. exact Hk.
Qed.

(** C4: [delete_document_embeddings] does not remove the entries of the
    document. With the entry ["a"] of document 5 and user 1 in the
    collection, the call for document 5 and user 1 hands the store a
    dictionary that has no ['operator'], unlike the one that
    [answer_question] builds; whatever the libraries do, the store
    refuses it, the handler logs the error, no delete call is made and
    the entry is still there when the call has returned. *)
Theorem delete_leaves_matching_entry :
  has_operator (answer_filters 1 [5]) = true ∧
  has_operator (delete_filters 5 1) = false ∧
  store (mk_world sample_store []) !! lit "a"
  = Some (mk_stored (lit "alpha") (mk_meta 1 5 (lit "notes.txt") 0) None) ∧
  delete_document_embeddings E 5 1 (mk_world sample_store [])
  = (Returned tt,
     mk_world sample_store [EvFilterDocuments (delete_filters 5 1); EvLog ERROR]) ∧
  store (delete_document_embeddings E 5 1 (mk_world sample_store [])).2
    !! lit "a"
  = Some (mk_stored (lit "alpha") (mk_meta 1 5 (lit "notes.txt") 0) None).
Proof.
  rewrite delete_document_embeddings_refused.
  repeat split; reflexivity.
Qed.

End delete_document_embeddings.

(** ** The statements on the sample environment *)

Section samples.

Import RagService.

Lemma answer_question_no_documents_witness :
  (embedder_warm_up (sample_env [] (Some (lit "secret")) []) = Ok tt ∧
   embed_text (sample_env [] (Some (lit "secret")) []) (lit "What is new?")
   = Ok [1; 2; 3] ∧
   retrieve (sample_env [] (Some (lit "secret")) [])
     (store (mk_world sample_store [])) [1; 2; 3] (mk_filter 1 [5]) 5 = Ok []) ∧
  ∃ evs,
    answer_question (sample_env [] (Some (lit "secret")) [])
      (lit "What is new?") 1 [5] None (mk_world sample_store [])
    = (Returned no_information,
       mk_world (store (mk_world sample_store []))
                (trace (mk_world sample_store []) ++ evs)) ∧
    no_information
    = lit "I couldn't find any relevant information in the selected documents." ∧
    Forall (fun ev => ¬ model_call ev) evs.
Proof.
  split; [repeat split; reflexivity|].
  apply (answer_question_no_documents (sample_env [] (Some (lit "secret")) [])
           (lit "What is new?") 1 [5] None (mk_world sample_store []) [1; 2; 3]);
    reflexivity.
Defined.

Lemma answer_question_key_not_configured_witness :
  (embedder_warm_up (sample_env [] None [sample_hdoc "a" "alpha" 1 5 0]) = Ok tt ∧
   embed_text (sample_env [] None [sample_hdoc "a" "alpha" 1 5 0])
     (lit "What is new?") = Ok [1; 2; 3] ∧
   retrieve (sample_env [] None [sample_hdoc "a" "alpha" 1 5 0])
     (store (mk_world sample_store [])) [1; 2; 3] (mk_filter 1 [5]) 5
   = Ok [sample_hdoc "a" "alpha" 1 5 0] ∧
   [sample_hdoc "a" "alpha" 1 5 0] ≠ [] ∧
   GOOGLE_API_KEY (sample_env [] None [sample_hdoc "a" "alpha" 1 5 0]) = None) ∧
  ∃ evs,
    answer_question (sample_env [] None [sample_hdoc "a" "alpha" 1 5 0])
      (lit "What is new?") 1 [5] None (mk_world sample_store [])
    = (Returned key_not_configured,
       mk_world (store (mk_world sample_store []))
                (trace (mk_world sample_store []) ++ evs)) ∧
    (∀ s, key_not_configured ≠ error_prefix ++ s) ∧
    Forall (fun ev => ¬ model_call ev) evs.
Proof.
  split; [repeat split; (reflexivity || discriminate)|].
  apply (answer_question_key_not_configured
           (sample_env [] None [sample_hdoc "a" "alpha" 1 5 0])
           (lit "What is new?") 1 [5] None (mk_world sample_store []) [1; 2; 3]
           [sample_hdoc "a" "alpha" 1 5 0]);
    [reflexivity | reflexivity | reflexivity | discriminate | left; reflexivity].
Defined.

(** The bytes [e9 74 e9] are not UTF-8; in Latin-1 they read as three
    characters. *)
Lemma parse_txt_total_witness :
  file_bytes (sample_env [xe9; x74; xe9] None []) (lit "notes.txt")
  = Ok [xe9; x74; xe9] ∧
  ∃ text w',
    DocumentParser.parse_txt (sample_env [xe9; x74; xe9] None [])
      (lit "notes.txt") (mk_world ∅ []) = (Returned text, w') ∧
    text = universal_newlines
             (default (latin1_decode [xe9; x74; xe9])
                      (utf8_decode (List.map Byte.to_N [xe9; x74; xe9]))) ∧
    ([xe9; x74; xe9] ≠ [] -> text ≠ []) ∧
    (∀ extension, lower extension = lit "txt" ->
       DocumentParser.parse (sample_env [xe9; x74; xe9] None [])
         (lit "notes.txt") extension (mk_world ∅ []) = (Returned text, w')).
Proof.
  split; [reflexivity|].
  apply (parse_txt_total (sample_env [xe9; x74; xe9] None []) (lit "notes.txt")
           [xe9; x74; xe9] (mk_world ∅ [])).
  reflexivity.
Defined.

End samples.

(** * Further properties *)

(** Settles a comparison or an equation between closed terms. *)
Ltac concrete :=
  repeat split;
  first [lia | vm_compute; first [reflexivity | discriminate]].

(** ** TextChunker: what the chunks look like *)

Section chunker_shape.

Import TextChunker.

Lemma lstrip_head s c r : lstrip s = c :: r -> isspace c = false.
Proof.
  induction s as [|x s IH]; [done|]. cbn [lstrip].
  destruct (isspace x) eqn:Hx; [done|]. by intros [= <- _].
Qed.

Lemma rstrip_split s :
  ∃ ws, s = rstrip s ++ ws ∧ Forall (fun c => isspace c = true) ws.
Proof.
  unfold rstrip. destruct (lstrip_split (reverse s)) as (ws & Hs & Hws).
  exists (reverse ws). split; [|by apply Forall_reverse].
  rewrite <- reverse_app, <- Hs. by rewrite reverse_involutive.
Qed.

(** [strip] takes spaces off both ends and keeps what is between. *)
Lemma strip_split s :
  ∃ ws ws', s = ws ++ strip s ++ ws' ∧
            Forall (fun c => isspace c = true) ws ∧
            Forall (fun c => isspace c = true) ws'.
Proof.
  destruct (lstrip_split s) as (ws & Hs & Hws).
  destruct (rstrip_split (lstrip s)) as (ws' & Hs' & Hws').
  exists ws, ws'. unfold strip. by rewrite <- Hs'.
Qed.

Lemma strip_head s c : head (strip s) = Some c -> isspace c = false.
Proof.
  intros Hh. apply head_Some in Hh as [r Hr]. unfold strip in Hr.
  destruct (rstrip_prefix (lstrip s)) as [k Hk]. rewrite Hr in Hk.
  by apply lstrip_head in Hk.
Qed.

Lemma strip_last s c : last (strip s) = Some c -> isspace c = false.
Proof.
  unfold strip, rstrip. rewrite last_reverse. intros Hh.
  apply head_Some in Hh as [r Hr]. by apply lstrip_head in Hr.
Qed.

Lemma slice_all {A} (s : list A) j : len s <= j -> slice s 0 j = s.
Proof.
  intros Hj. unfold slice, clamp_index. pose proof (len_nonneg s).
  destruct (Z.ltb_spec 0 0); [lia|]. destruct (Z.ltb_spec j 0); [lia|].
  rewrite (Z.min_l 0), (Z.min_r j) by lia. cbn [Z.to_nat drop].
  apply take_ge. unfold len. lia.
Qed.

Lemma slice_from {A} (s : list A) i j :
  0 <= i -> len s <= j -> slice s i j = drop (Z.to_nat i) s.
Proof.
  intros Hi Hj. unfold slice, clamp_index. pose proof (len_nonneg s).
  destruct (Z.ltb_spec i 0); [lia|]. destruct (Z.ltb_spec j 0); [lia|].
  rewrite (Z.min_r j) by lia.
  destruct (Z.le_gt_cases i (len s)).
  - rewrite Z.min_l by lia. apply take_ge. rewrite length_drop. unfold len. lia.
  - rewrite Z.min_r by lia. rewrite !drop_ge by (unfold len in *; lia).
    by rewrite take_nil.
Qed.

(** In a window that reaches the end of the text the cut is the raw
    boundary. *)
Lemma window_end_at_end self text start :
  len text <= start + chunk_size self ->
  window_end self text start = start + chunk_size self.
Proof.
  intros H. unfold window_end.
  by destruct (Z.ltb_spec (start + chunk_size self) (len text)); [lia|].
Qed.

Lemma step_chunks_stripped self text start chunks :
  Forall (fun c => (∀ x, head c = Some x -> isspace x = false) ∧
                   (∀ x, last c = Some x -> isspace x = false)) chunks ->
  Forall (fun c => (∀ x, head c = Some x -> isspace x = false) ∧
                   (∀ x, last c = Some x -> isspace x = false))
         (step self text start chunks).1.
Proof.
  intros Hall. unfold step. cbn [fst]. case_bool_decide; [done|].
  apply Forall_app. split; [done|]. apply Forall_singleton.
  split; intros x; [apply strip_head | apply strip_last].
Qed.

(** X1: whenever [chunk] returns for a [chunk_size] that is not negative,
    no chunk is longer than [chunk_size], whatever the overlap. *)
Theorem chunk_length_le_size (fuel : nat) (self : TextChunker.t)
    (text : pystr) (res : list pystr) :
  0 <= chunk_size self ->
  chunk fuel self text = Some res ->
  Forall (fun c => len c <= chunk_size self) res.
Proof.
  intros Hcs. unfold chunk. case_bool_decide.
  - intros [= <-]. constructor.
  - apply (loop_invariant self text (Forall (fun c => len c <= chunk_size self)));
      [|constructor].
    intros start chunks. by apply step_chunks_length.
Qed.

Lemma chunk_length_le_size_witness :
  (0 <= chunk_size (mk 10 8) ∧
   chunk 6 (mk 10 8) (lit "abcdefghijkl")
   = Some [lit "abcdefghij"; lit "cdefghijkl"; lit "efghijkl"; lit "ghijkl";
           lit "ijkl"; lit "kl"]) ∧
  Forall (fun c => len c <= chunk_size (mk 10 8))
         [lit "abcdefghij"; lit "cdefghijkl"; lit "efghijkl"; lit "ghijkl";
           lit "ijkl"; lit "kl"].
Proof.
  split; [split; [simpl; lia | vm_compute; reflexivity]|].
  apply (chunk_length_le_size 6 (mk 10 8) (lit "abcdefghijkl"));
    [simpl; lia | vm_compute; reflexivity].
Defined.

(** X2: whenever [chunk] returns, no chunk begins or ends with a
    whitespace character. *)
Theorem chunk_stripped (fuel : nat) (self : TextChunker.t) (text : pystr)
    (res : list pystr) :
  chunk fuel self text = Some res ->
  Forall (fun c => (∀ x, head c = Some x -> isspace x = false) ∧
                   (∀ x, last c = Some x -> isspace x = false)) res.
Proof.
  unfold chunk. case_bool_decide.
  - intros [= <-]. constructor.
  - apply (loop_invariant self text
             (Forall (fun c => (∀ x, head c = Some x -> isspace x = false) ∧
                               (∀ x, last c = Some x -> isspace x = false))));
      [|constructor].
    intros start chunks. apply step_chunks_stripped.
Qed.

Lemma chunk_stripped_witness :
  chunk 20 (mk 10 2) (lit "Hello wor. Next one! and then more text.")
  = Some [lit "Hello wor."; lit "r. Next on"; lit "one! and t";
          lit "then more"; lit "re text."] ∧
  Forall (fun c => (∀ x, head c = Some x -> isspace x = false) ∧
                   (∀ x, last c = Some x -> isspace x = false))
         [lit "Hello wor."; lit "r. Next on"; lit "one! and t";
          lit "then more"; lit "re text."].
Proof.
  split; [vm_compute; reflexivity|].
  apply (chunk_stripped 20 (mk 10 2)
           (lit "Hello wor. Next one! and then more text.")).
  vm_compute. reflexivity.
Defined.

End chunker_shape.

(** ** TextChunker: blank texts, short texts, how many chunks *)

Section chunker_count.

Import TextChunker.

Lemma slice_blank (s : pystr) i j :
  Forall (fun c => isspace c = true) s -> strip (slice s i j) = [].
Proof.
  intros Hs. apply strip_nil. unfold slice. by apply Forall_take, Forall_drop.
Qed.

(** X3: for sizes with [chunk_size > overlap >= 0] and
    [overlap <= chunk_size // 2 + 2], [chunk] returns the empty list
    exactly when the text has no character that is not whitespace. *)
Theorem chunk_nil_iff_blank (fuel : nat) (self : TextChunker.t)
    (text : pystr) (res : list pystr) :
  0 <= chunk_overlap self < chunk_size self ->
  chunk_overlap self <= chunk_size self `div` 2 + 2 ->
  chunk fuel self text = Some res ->
  (res = [] <-> Forall (fun c => isspace c = true) text).
Proof.
  intros Hov Hhalf Hres. split.
  - intros ->. apply strip_nil.
    destruct (decide (strip text = [])) as [|Hne]; [done|].
    by apply (chunk_nonblank self text fuel []) in Hne.
  - intros Hblank. revert Hres. unfold chunk. case_bool_decide.
    + by intros [= <-].
    + apply (loop_invariant self text (fun chunks => chunks = [])); [|done].
      intros start chunks ->. unfold step. cbn [fst].
      by rewrite slice_blank, bool_decide_eq_true_2.
Qed.

Lemma chunk_nil_iff_blank_witness :
  (0 <= chunk_overlap default < chunk_size default ∧
   chunk_overlap default <= chunk_size default `div` 2 + 2 ∧
   chunk 1 default [32; 10; 9; 160]%N = Some []) ∧
  (([] : list pystr) = [] <->
   Forall (fun c => isspace c = true) [32; 10; 9; 160]%N).
Proof.
  split; [split; [simpl; lia | split; [|vm_compute; reflexivity]]|].
  - unfold default. cbn [chunk_size chunk_overlap].
    change (500 `div` 2) with 250. lia.
  - apply (chunk_nil_iff_blank 1 default [32; 10; 9; 160]%N []);
      [simpl; lia | | vm_compute; reflexivity].
    unfold default. cbn [chunk_size chunk_overlap].
    change (500 `div` 2) with 250. lia.
Defined.

(** X4: a text of at most [chunk_size - overlap] characters gives one
    chunk, the stripped text, or none when it is blank. *)
Theorem chunk_short_text (fuel : nat) (self : TextChunker.t) (text : pystr) :
  0 <= chunk_overlap self ->
  len text <= chunk_size self - chunk_overlap self ->
  (1 <= fuel)%nat ->
  chunk fuel self text
  = Some (if bool_decide (strip text = []) then [] else [strip text]).
Proof.
  intros Hov Hlen Hfuel. unfold chunk. case_bool_decide as Hnil.
  - by subst text.
  - apply (loop_fuel_mono self text 1); [done|].
    rewrite loop_unfold.
    destruct (Z.ltb_spec 0 (len text)) as [_|Hle].
    + rewrite step_start. unfold step. cbn [fst].
      rewrite window_end_at_end by lia. rewrite Z.add_0_l.
      rewrite slice_all by lia. rewrite loop_unfold.
      destruct (Z.ltb_spec (chunk_size self - chunk_overlap self) (len text));
        [lia|].
      by case_bool_decide.
    + destruct text; [done|]. unfold len in Hle. cbn in Hle. lia.
Qed.

Lemma chunk_short_text_witness :
  (0 <= chunk_overlap default ∧
   len (lit "  short text ") <= chunk_size default - chunk_overlap default ∧
   (1 <= 1)%nat) ∧
  chunk 1 default (lit "  short text ")
  = Some (if bool_decide (strip (lit "  short text ") = [])
          then [] else [strip (lit "  short text ")]).
Proof.
  split; [split; [simpl; lia | split; [vm_compute; discriminate | lia]]|].
  apply (chunk_short_text 1 default (lit "  short text "));
    [simpl; lia | vm_compute; discriminate | lia].
Defined.

(** X5: a text longer than [chunk_size - overlap] but no longer than
    [chunk_size], and no longer than twice [chunk_size - overlap], is cut
    in two windows: the whole text, and its tail from index
    [chunk_size - overlap] on. The result is the stripped text followed by
    the stripped tail, each left out when blank; so when the tail is not
    blank there are exactly two chunks and the second repeats the end of
    the first, and when it is blank the stripped text is the only
    chunk. *)
Theorem chunk_tail_repeated (fuel : nat) (self : TextChunker.t)
    (text : pystr) :
  0 <= chunk_overlap self ->
  chunk_size self - chunk_overlap self < len text <= chunk_size self ->
  len text <= 2 * (chunk_size self - chunk_overlap self) ->
  (2 <= fuel)%nat ->
  chunk fuel self text
  = Some ((if bool_decide (strip text = []) then [] else [strip text]) ++
          (if bool_decide
                (strip (drop (Z.to_nat (chunk_size self - chunk_overlap self))
                             text) = [])
           then []
           else [strip (drop (Z.to_nat (chunk_size self - chunk_overlap self))
                             text)])) ∧
  (strip (drop (Z.to_nat (chunk_size self - chunk_overlap self)) text) ≠ [] ->
   chunk fuel self text
   = Some [strip text;
           strip (drop (Z.to_nat (chunk_size self - chunk_overlap self)) text)]) ∧
  (strip (drop (Z.to_nat (chunk_size self - chunk_overlap self)) text) = [] ->
   strip text ≠ [] ->
   chunk fuel self text = Some [strip text]).
Proof.
  intros Hov Hlen Htwice Hfuel.
  assert (chunk fuel self text
          = Some ((if bool_decide (strip text = []) then [] else [strip text]) ++
                  (if bool_decide
                        (strip (drop (Z.to_nat (chunk_size self
                                                - chunk_overlap self)) text) = [])
                   then []
                   else [strip (drop (Z.to_nat (chunk_size self
                                                - chunk_overlap self)) text)])))
    as Hres.
  { unfold chunk. case_bool_decide as Hnil.
    - subst text. unfold len in Hlen, Htwice. cbn in Hlen, Htwice. lia.
    - apply (loop_fuel_mono self text 2); [done|].
      rewrite loop_unfold.
      destruct (Z.ltb_spec 0 (len text)); [|lia].
      rewrite step_start. unfold step at 1. cbn [fst].
      rewrite window_end_at_end by lia. rewrite Z.add_0_l.
      rewrite slice_all by lia. rewrite loop_unfold.
      destruct (Z.ltb_spec (chunk_size self - chunk_overlap self) (len text));
        [|lia].
      rewrite step_start. unfold step at 1. cbn [fst].
      rewrite window_end_at_end by lia.
      rewrite slice_from by lia. rewrite loop_unfold.
      destruct (Z.ltb_spec (chunk_size self - chunk_overlap self
                            + chunk_size self - chunk_overlap self) (len text));
        [lia|].
      repeat case_bool_decide; by rewrite ?app_nil_r. }
  split; [exact Hres|]. split.
  - intros Htail. rewrite Hres.
    rewrite (bool_decide_eq_false_2 (strip text = [])).
    + by rewrite bool_decide_eq_false_2.
    + intros Hblank. apply Htail, strip_nil, Forall_drop.
      by apply strip_nil.
  - intros Htail Htext. rewrite Hres.
    rewrite (bool_decide_eq_false_2 (strip text = [])) by done.
    by rewrite bool_decide_eq_true_2.
Qed.

Lemma chunk_tail_repeated_witness :
  (0 <= chunk_overlap (mk 10 3) ∧
   chunk_size (mk 10 3) - chunk_overlap (mk 10 3) < len (lit "abcdefghi")
     <= chunk_size (mk 10 3) ∧
   len (lit "abcdefghi") <= 2 * (chunk_size (mk 10 3) - chunk_overlap (mk 10 3)) ∧
   (2 <= 2)%nat) ∧
  chunk 2 (mk 10 3) (lit "abcdefghi") = Some [lit "abcdefghi"; lit "hi"].
Proof.
  split; [concrete|].
  destruct (chunk_tail_repeated 2 (mk 10 3) (lit "abcdefghi")) as (_ & Htwo & _);
    [concrete ..|].
  apply Htwo. vm_compute. discriminate.
Defined.

(** The same sizes on a text whose tail is blank: one chunk. *)
Example chunk_blank_tail :
  chunk 2 (mk 10 3) (lit "abcdefg  ") = Some [lit "abcdefg"].
Proof. vm_compute. reflexivity. Qed.

(** X6: for sizes with [chunk_size > overlap >= 0] and
    [overlap <= chunk_size // 2 + 2], every turn moves [start] by at least
    [d = min(chunk_size, chunk_size // 2 + 3) - overlap], so a list of [n]
    chunks needs a text of more than [(n - 1) * d] characters. *)
Theorem chunk_count_bound (fuel : nat) (self : TextChunker.t) (text : pystr)
    (res : list pystr) :
  0 <= chunk_overlap self < chunk_size self ->
  chunk_overlap self <= chunk_size self `div` 2 + 2 ->
  chunk fuel self text = Some res ->
  (len res - 1) *
    (Z.min (chunk_size self) (chunk_size self `div` 2 + 3) - chunk_overlap self)
  < len text.
Proof.
  intros Hov Hhalf. unfold chunk. pose proof (len_nonneg text) as Htext.
  set (d := Z.min (chunk_size self) (chunk_size self `div` 2 + 3)
            - chunk_overlap self).
  assert (Hd : 0 < d) by (unfold d; lia).
  case_bool_decide as Hnil.
  - intros [= <-]. unfold len. cbn. lia.
  - intros Hloop.
    destruct (loop_invariant_start self text
      (fun start chunks =>
         len chunks * d <= start ∧
         (chunks = [] ∨ (len chunks - 1) * d < len text)))
      with (3 := Hloop) as (start' & _ & _ & [-> | Hb]).
    + intros start chunks Hlt [Hn Hlast].
      pose proof (window_end_bounds self text start ltac:(lia)) as He.
      pose proof (len_nonneg chunks).
      rewrite step_start. unfold step. cbn [fst].
      case_bool_decide.
      * split; [fold d in He; unfold d in *; lia|].
        destruct Hlast as [->|Hlast]; [by left | by right].
      * rewrite len_app. change (len [strip _]) with 1.
        split; [unfold d in *; nia|]. right. nia.
    + split; [unfold len; cbn; lia | by left].
    + unfold len. cbn. lia.
    + done.
Qed.

Lemma chunk_count_bound_witness :
  (0 <= chunk_overlap (mk 10 2) < chunk_size (mk 10 2) ∧
   chunk_overlap (mk 10 2) <= chunk_size (mk 10 2) `div` 2 + 2 ∧
   chunk 20 (mk 10 2) (lit "abcdefg. hijklmnopqrstu")
   = Some [lit "abcdefg."; lit ". hijklmno"; lit "nopqrstu"]) ∧
  (len [lit "abcdefg."; lit ". hijklmno"; lit "nopqrstu"] - 1) *
    (Z.min (chunk_size (mk 10 2)) (chunk_size (mk 10 2) `div` 2 + 3)
     - chunk_overlap (mk 10 2))
  < len (lit "abcdefg. hijklmnopqrstu").
Proof.
  split; [split; [simpl; lia | split; [vm_compute; discriminate
                                      | vm_compute; reflexivity]]|].
  apply (chunk_count_bound 20 (mk 10 2) (lit "abcdefg. hijklmnopqrstu"));
    [simpl; lia | vm_compute; discriminate | vm_compute; reflexivity].
Defined.

End chunker_count.

(** ** TextChunker: no character that is not a space is lost *)

Section chunker_covers.

Import TextChunker.

Lemma covered_mono text chunks chunks' i :
  (∀ c, c ∈ chunks -> c ∈ chunks') ->
  covered text chunks i -> covered text chunks' i.
Proof.
  intros Hsub (c & pre & post & Hc & Htext & Hi).
  exists c, pre, post. auto.
Qed.

(** A character of [s] that is not a space lies in [strip s]. *)
Lemma strip_keeps s j x :
  s !! j = Some x -> isspace x = false ->
  ∃ ws ws', s = ws ++ strip s ++ ws' ∧
            (length ws <= j < length ws + length (strip s))%nat.
Proof.
  intros Hj Hx. destruct (strip_split s) as (ws & ws' & Hs & Hws & Hws').
  exists ws, ws'. split; [done|].
  rewrite Hs in Hj. unfold pystr in *.
  destruct (decide (j < length ws)%nat) as [Hlt|Hge].
  - rewrite lookup_app_l in Hj by done.
    apply (Forall_lookup_1 _ _ _ _ Hws) in Hj. congruence.
  - rewrite lookup_app_r in Hj by lia.
    destruct (decide (j - length ws < length (strip s))%nat) as [Hlt|Hge'];
      [lia|].
    rewrite lookup_app_r in Hj by lia.
    apply (Forall_lookup_1 _ _ _ _ Hws') in Hj. congruence.
Qed.

Variable self : TextChunker.t.
Variable text : pystr.

(** After a turn, every character before the cut that is not a space
    lies in a chunk, if this held of the characters before [start]. *)
Lemma step_covers start chunks :
  0 <= chunk_overlap self < chunk_size self ->
  0 <= start < len text ->
  (∀ i x, Z.of_nat i < start -> text !! i = Some x -> isspace x = false ->
          covered text chunks i) ->
  ∀ i x, Z.of_nat i < window_end self text start ->
         text !! i = Some x -> isspace x = false ->
         covered text (step self text start chunks).1 i.
Proof.
  intros Hov Hstart Hbefore i x Hi Hix Hx. unfold pystr in *.
  pose proof (window_end_bounds self text start ltac:(lia)) as He.
  pose proof (Z.div_pos (chunk_size self) 2 ltac:(lia) ltac:(lia)).
  apply lookup_lt_Some in Hix as Hilen.
  destruct (Z.lt_ge_cases (Z.of_nat i) start) as [Hlt|Hge].
  { eapply covered_mono; [|by eapply Hbefore].
    intros c Hc. unfold step. cbn [fst]. case_bool_decide; [done|].
    apply elem_of_app. by left. }
  unfold step. cbn [fst].
  set (e := window_end self text start) in *.
  assert (Hslice : slice text start e
            = take (Z.to_nat (Z.min e (len text) - start))
                   (drop (Z.to_nat start) text)).
  { unfold slice, clamp_index.
    destruct (Z.ltb_spec start 0); [lia|]. destruct (Z.ltb_spec e 0); [lia|].
    by rewrite (Z.min_l start) by lia. }
  assert (Hj : slice text start e !! (i - Z.to_nat start)%nat = Some x).
  { rewrite Hslice, lookup_take, lookup_drop.
    unfold len in *. case_decide; [|lia].
    by replace (Z.to_nat start + (i - Z.to_nat start))%nat with i by lia. }
  destruct (strip_keeps _ _ _ Hj Hx) as (ws & ws' & Hs & Hin).
  case_bool_decide as Hnil;
    [rewrite Hnil in Hin; cbn in Hin; lia|].
  exists (strip (slice text start e)), (take (Z.to_nat start) text ++ ws),
    (ws' ++ drop (Z.to_nat (Z.min e (len text) - start))
                 (drop (Z.to_nat start) text)).
  split; [apply elem_of_app; right; apply list_elem_of_singleton; done|].
  split.
  - rewrite <- (assoc_L (++)), (assoc_L (++) ws), (assoc_L (++) (ws ++ _)).
    rewrite <- (assoc_L (++) ws), <- Hs, Hslice.
    by rewrite !take_drop.
  - rewrite length_app, length_take_le by (unfold len in *; lia). lia.
Qed.

(** X7: for sizes with [chunk_size > overlap >= 0] and
    [overlap <= chunk_size // 2 + 2], every character of the text that is
    not whitespace lies inside one of the chunks returned, at its place in
    the text. *)
Theorem chunk_covers_text (fuel : nat) (res : list pystr) :
  0 <= chunk_overlap self < chunk_size self ->
  chunk_overlap self <= chunk_size self `div` 2 + 2 ->
  chunk fuel self text = Some res ->
  ∀ i x, text !! i = Some x -> isspace x = false -> covered text res i.
Proof.
  intros Hov Hhalf. unfold chunk. case_bool_decide as Hnil.
  - subst text. by intros _ i x Hi.
  - intros Hloop.
    destruct (loop_invariant_start self text
      (fun start chunks =>
         0 <= start ∧
         ∀ i x, Z.of_nat i < start -> text !! i = Some x ->
                isspace x = false -> covered text chunks i))
      with (3 := Hloop) as (start' & Hend & _ & Hcov).
    + intros start chunks Hlt [Hstart Hbefore].
      pose proof (step_advances self text start chunks Hov Hhalf) as Hadv.
      split; [lia|]. intros i x Hi. rewrite step_start in Hi.
      apply step_covers; [done | lia | done | lia].
    + split; [done|]. intros i x Hi. lia.
    + intros i x Hix Hx. apply (Hcov i x); [|done|done].
      apply lookup_lt_Some in Hix. unfold len in Hend. lia.
Qed.

End chunker_covers.

Lemma chunk_covers_text_witness :
  (0 <= TextChunker.chunk_overlap (TextChunker.mk 10 2)
     < TextChunker.chunk_size (TextChunker.mk 10 2) ∧
   TextChunker.chunk_overlap (TextChunker.mk 10 2)
     <= TextChunker.chunk_size (TextChunker.mk 10 2) `div` 2 + 2 ∧
   TextChunker.chunk 20 (TextChunker.mk 10 2) (lit "abcdefg. hijklmnopqrstu")
   = Some [lit "abcdefg."; lit ". hijklmno"; lit "nopqrstu"]) ∧
  ∀ i x, lit "abcdefg. hijklmnopqrstu" !! i = Some x -> isspace x = false ->
         covered (lit "abcdefg. hijklmnopqrstu")
                 [lit "abcdefg."; lit ". hijklmno"; lit "nopqrstu"] i.
Proof.
  split; [concrete|].
  apply (chunk_covers_text (TextChunker.mk 10 2)
           (lit "abcdefg. hijklmnopqrstu") 20); concrete.
Defined.

(** ** DocumentParser: PDF and DOCX *)

Section parser_formats.

Import DocumentParser.

Variable E : env.

(** [join] with a separator made of spaces is blank exactly when every
    part is. *)
Lemma join_blank sep parts :
  Forall (fun c => isspace c = true) sep ->
  (Forall (fun c => isspace c = true) (join sep parts) <->
   Forall (fun p => Forall (fun c => isspace c = true) p) parts).
Proof.
  intros Hsep. induction parts as [|p [|q parts] IH].
  - cbn. split; constructor.
  - cbn. split; [by repeat constructor | by inversion 1].
  - cbn [join] in *. rewrite !Forall_app, IH, (Forall_cons _ p). tauto.
Qed.

Lemma Forall_blank_filter_nonempty (texts : list pystr) :
  Forall (fun p => Forall (fun c => isspace c = true) p)
         (List.filter (fun t => negb (bool_decide (t = []))) texts) <->
  Forall (fun p => Forall (fun c => isspace c = true) p) texts.
Proof.
  induction texts as [|t texts IH]; [done|]. cbn [List.filter].
  case_bool_decide as Ht; cbn [negb]; rewrite !Forall_cons, IH; [|done].
  subst t. split; [by split | by intros [_ H]].
Qed.

Lemma Forall_blank_filter_nonblank (texts : list pystr) :
  Forall (fun p => Forall (fun c => isspace c = true) p)
         (List.filter (fun t => negb (bool_decide (strip t = []))) texts) <->
  Forall (fun t => strip t = []) texts.
Proof.
  induction texts as [|t texts IH]; [by split; constructor|].
  cbn [List.filter]. case_bool_decide as Ht; cbn [negb].
  - rewrite IH, Forall_cons. split; [by split | by intros []].
  - rewrite !Forall_cons, <- strip_nil. split; by intros [].
Qed.

(** The page loop keeps the texts that are not empty, in page order, and
    stops at the first page that raises. *)
Lemma extract_pages_ok texts text_parts :
  extract_pages (Ok <$> texts) text_parts
  = Ok (text_parts ++ List.filter (fun t => negb (bool_decide (t = []))) texts).
Proof.
  revert text_parts. induction texts as [|t texts IH]; intros text_parts.
  - by rewrite app_nil_r.
  - cbn [fmap list_fmap extract_pages List.filter]. rewrite IH.
    repeat case_bool_decide; cbn [negb]; try done.
    by rewrite <- (assoc_L (++)).
Qed.

Lemma extract_pages_err texts e rest text_parts :
  extract_pages ((Ok <$> texts) ++ Err e :: rest) text_parts = Err e.
Proof.
  revert text_parts. induction texts as [|t texts IH]; intros text_parts;
    [done|]. cbn [fmap list_fmap extract_pages app]. apply IH.
Qed.

(** X8: when the reader opens the file and every page gives its text,
    [parse_pdf] returns the texts of the pages that have one, in page
    order and joined by a blank line; nothing is logged, and the result is
    blank exactly when every page text is. *)
Theorem parse_pdf_joins_pages (file_path : pystr) (texts : list pystr)
    (w : world) :
  pdf_pages E file_path = Ok (Ok <$> texts) ->
  parse_pdf E file_path w
  = (Returned (join [10; 10]%N
                 (List.filter (fun t => negb (bool_decide (t = []))) texts)),
     mk_world (store w) (trace w ++ [EvPdfReader file_path])) ∧
  (strip (join [10; 10]%N
            (List.filter (fun t => negb (bool_decide (t = []))) texts)) = [] <->
   Forall (fun t => strip t = []) texts).
Proof.
  intros Hpages. split.
  - unfold parse_pdf. run. rewrite Hpages. run.
    by rewrite extract_pages_ok.
  - rewrite strip_nil, join_blank by (by repeat constructor).
    rewrite Forall_blank_filter_nonempty.
    apply Forall_iff. intros t. by rewrite strip_nil.
Qed.

(** X9: when the PDF reader, a page of the PDF or the DOCX reader raises,
    the parser logs one error and raises the same exception; pages after
    the failing one are not read. *)
Theorem parse_reraises (file_path : pystr) (e : exn) (w : world) :
  (pdf_pages E file_path = Err e ∨
   (∃ texts rest, pdf_pages E file_path = Ok ((Ok <$> texts) ++ Err e :: rest)) ->
   parse_pdf E file_path w
   = (Raised e, mk_world (store w)
                  (trace w ++ [EvPdfReader file_path; EvLog ERROR]))) ∧
  (docx_paragraphs E file_path = Err e ->
   parse_docx E file_path w
   = (Raised e, mk_world (store w)
                  (trace w ++ [EvDocxDocument file_path; EvLog ERROR]))).
Proof.
  split.
  - intros [Hp | (texts & rest & Hp)]; unfold parse_pdf; run; rewrite Hp; run.
    + by rewrite <- (assoc_L (++)).
    + rewrite extract_pages_err. run. by rewrite <- (assoc_L (++)).
  - intros Hd. unfold parse_docx. run. rewrite Hd. run.
    by rewrite <- (assoc_L (++)).
Qed.

(** X10: when the DOCX reader opens the file, [parse_docx] returns the
    paragraphs that are not blank, in order and joined by a blank line;
    the result is blank exactly when every paragraph is. *)
Theorem parse_docx_joins_paragraphs (file_path : pystr)
    (paragraphs : list pystr) (w : world) :
  docx_paragraphs E file_path = Ok paragraphs ->
  parse_docx E file_path w
  = (Returned (join [10; 10]%N
                 (List.filter (fun t => negb (bool_decide (strip t = [])))
                              paragraphs)),
     mk_world (store w) (trace w ++ [EvDocxDocument file_path])) ∧
  (strip (join [10; 10]%N
            (List.filter (fun t => negb (bool_decide (strip t = [])))
                         paragraphs)) = [] <->
   Forall (fun t => strip t = []) paragraphs).
Proof.
  intros Hd. split.
  - unfold parse_docx. run. by rewrite Hd.
  - rewrite strip_nil, join_blank by (by repeat constructor).
    apply Forall_blank_filter_nonblank.
Qed.

End parser_formats.

Lemma parse_pdf_joins_pages_witness :
  pdf_pages (sample_env [] None []) (lit "/m/t.pdf")
  = Ok (Ok <$> [lit "page one"; []; lit "page three"]) ∧
  DocumentParser.parse_pdf (sample_env [] None []) (lit "/m/t.pdf") (mk_world ∅ [])
  = (Returned (join [10; 10]%N
                 (List.filter (fun t => negb (bool_decide (t = [])))
                              [lit "page one"; []; lit "page three"])),
     mk_world (store (mk_world ∅ []))
              (trace (mk_world ∅ []) ++ [EvPdfReader (lit "/m/t.pdf")])) ∧
  (strip (join [10; 10]%N
            (List.filter (fun t => negb (bool_decide (t = [])))
                         [lit "page one"; []; lit "page three"])) = [] <->
   Forall (fun t => strip t = []) [lit "page one"; []; lit "page three"]).
Proof.
  split; [reflexivity|].
  apply (parse_pdf_joins_pages (sample_env [] None []) (lit "/m/t.pdf")
           [lit "page one"; []; lit "page three"] (mk_world ∅ [])).
  reflexivity.
Defined.

Lemma parse_docx_joins_paragraphs_witness :
  docx_paragraphs (sample_env [] None []) (lit "/m/t.docx")
  = Ok [lit "first"; lit "  "; lit "second"] ∧
  DocumentParser.parse_docx (sample_env [] None []) (lit "/m/t.docx") (mk_world ∅ [])
  = (Returned (join [10; 10]%N
                 (List.filter (fun t => negb (bool_decide (strip t = [])))
                              [lit "first"; lit "  "; lit "second"])),
     mk_world (store (mk_world ∅ []))
              (trace (mk_world ∅ []) ++ [EvDocxDocument (lit "/m/t.docx")])) ∧
  (strip (join [10; 10]%N
            (List.filter (fun t => negb (bool_decide (strip t = [])))
                         [lit "first"; lit "  "; lit "second"])) = [] <->
   Forall (fun t => strip t = []) [lit "first"; lit "  "; lit "second"]).
Proof.
  split; [reflexivity|].
  apply (parse_docx_joins_paragraphs (sample_env [] None []) (lit "/m/t.docx")
           [lit "first"; lit "  "; lit "second"] (mk_world ∅ [])).
  reflexivity.
Defined.

(** ** RagService.index_document: the stages *)

Section index_document_stages.

Import RagService.

Variable E : env.

Lemma lower_char_idem c : lower_char (lower_char c) = lower_char c.
Proof.
  unfold lower_char.
  destruct (((65 <=? c) && (c <=? 90))%N) eqn:Hc; [|by rewrite Hc].
  destruct (((65 <=? c + 32) && (c + 32 <=? 90))%N) eqn:Hc'; [|done].
  apply andb_true_iff in Hc as [H1%N.leb_le _].
  apply andb_true_iff in Hc' as [_ H2%N.leb_le]. lia.
Qed.

Lemma lower_idem s : lower (lower s) = lower s.
Proof.
  unfold lower. rewrite List.map_map. apply List.map_ext, lower_char_idem.
Qed.

Lemma file_extension_lower d : lower (file_extension d) = file_extension d.
Proof.
  unfold file_extension. case_bool_decide; [apply lower_idem | done].
Qed.

Lemma chunk_nonempty_chunks fuel self text res :
  TextChunker.chunk fuel self text = Some res -> Forall (fun c => c ≠ []) res.
Proof.
  unfold TextChunker.chunk. case_bool_decide.
  - intros [= <-]. constructor.
  - apply (loop_invariant self text (Forall (fun c => c ≠ []))); [|constructor].
    intros start chunks Hall. unfold TextChunker.step. cbn [fst].
    case_bool_decide; [done|]. apply Forall_app. split; [done|].
    by apply Forall_singleton.
Qed.

(** What [index_document] does once the parser has returned a text that
    is not blank. *)
Lemma index_document_after_parse document_model user_id w text w1 :
  DocumentParser.parse E (file_path document_model)
    (file_extension document_model) w = (Returned text, w1) ->
  strip text ≠ [] ->
  ∃ chunks,
    TextChunker.chunk (length text) TextChunker.default text = Some chunks ∧
    chunks ≠ [] ∧
    index_document E document_model user_id w
    = match embedder_warm_up E with
      | Err _ => (Returned false, mk_world (store w1) (trace w1 ++ [EvLog ERROR]))
      | Ok _ =>
          let docs := chunk_documents E document_model user_id chunks in
          match embed_documents E docs with
          | Err _ =>
              (Returned false,
               mk_world (store w1)
                 (trace w1 ++ [EvEmbedDocuments docs; EvLog ERROR]))
          | Ok embedded =>
              match write_error E (store w1) embedded with
              | Some _ =>
                  (Returned false,
                   mk_world (store w1)
                     (trace w1 ++ [EvEmbedDocuments docs;
                                   EvWriteDocuments embedded; EvLog ERROR]))
              | None =>
                  (Returned true,
                   mk_world
                     (foldr (fun d m => <[doc_id d := stored_of d]> m)
                            (store w1) embedded)
                     (trace w1 ++ [EvEmbedDocuments docs;
                                   EvWriteDocuments embedded; EvLog INFO]))
              end
          end
      end.
Proof.
  intros Hparse Hstrip.
  destruct (run_chunker_returns text w1) as (chunks & Hchunks & Hrun).
  exists chunks. split; [done|].
  split; [by apply (chunk_default_nonblank text)|].
  unfold index_document, try_except, index_document_try, bind at 1.
  rewrite Hparse. rewrite bool_decide_eq_false_2 by done.
  unfold bind at 1. rewrite Hrun.
  fold (chunk_documents E document_model user_id chunks).
  unfold write_documents. run_all.
  repeat (case_match; run_all; simplify_eq); rewrite <- ?(assoc_L (++)); done.
Qed.

Lemma chunk_documents_lookup document_model user_id chunks i d :
  chunk_documents E document_model user_id chunks !! i = Some d ->
  ∃ chunk, chunks !! i = Some chunk ∧ content d = chunk ∧
           meta d = mk_meta user_id (pk document_model)
                            (name document_model) (Z.of_nat i) ∧
           doc_embedding d = None.
Proof.
  unfold chunk_documents. rewrite list_lookup_imap.
  destruct (chunks !! i) as [chunk|]; [|done].
  intros [= <-]. by exists chunk.
Qed.

(** A [True] result: every stage went through. *)
Lemma index_document_true_inv document_model user_id w w' :
  index_document E document_model user_id w = (Returned true, w') ->
  ∃ text w1 chunks embedded,
    DocumentParser.parse E (file_path document_model)
      (file_extension document_model) w = (Returned text, w1) ∧
    strip text ≠ [] ∧
    TextChunker.chunk (length text) TextChunker.default text = Some chunks ∧
    embedder_warm_up E = Ok tt ∧
    embed_documents E (chunk_documents E document_model user_id chunks)
    = Ok embedded ∧
    write_error E (store w1) embedded = None ∧
    w' = mk_world
           (foldr (fun d m => <[doc_id d := stored_of d]> m) (store w1) embedded)
           (trace w1 ++
            [EvEmbedDocuments (chunk_documents E document_model user_id chunks);
             EvWriteDocuments embedded; EvLog INFO]).
Proof.
  intros Hidx.
  destruct (DocumentParser.parse E (file_path document_model)
              (file_extension document_model) w) as [[text|e|] w1] eqn:Hparse.
  - destruct (decide (strip text = [])) as [Hblank|Hne].
    + revert Hidx.
      unfold index_document, try_except, index_document_try, bind at 1.
      rewrite Hparse, bool_decide_eq_true_2 by done. by run.
    + destruct (index_document_after_parse _ user_id _ _ _ Hparse Hne)
        as (chunks & Hchunks & _ & Heq).
      rewrite Heq in Hidx. cbv zeta in Hidx.
      destruct (embedder_warm_up E) as [[]|]; [|done].
      destruct (embed_documents E _) as [embedded|] eqn:Hemb; [|done].
      destruct (write_error E (store w1) embedded) eqn:Hwrite; [done|].
      injection Hidx as <-. by exists text, w1, chunks, embedded.
  - revert Hidx.
    unfold index_document, try_except, index_document_try, bind at 1.
    rewrite Hparse. by run.
  - destruct (parse_outcome E (file_path document_model)
                (file_extension document_model) w) as (o & evs & Hp & Ho & _).
    congruence.
Qed.

(** X11: [index_document] returns [True] exactly when the parser returned
    a text that is not blank and warming up, embedding and writing all
    went through; the collection is then the old one with the embedded
    documents put under their ids, after one embedding call, one write
    and one INFO log. *)
Theorem index_document_true_iff (document_model : document) (user_id : Z)
    (w w' : world) :
  index_document E document_model user_id w = (Returned true, w') <->
  ∃ text w1 chunks embedded,
    DocumentParser.parse E (file_path document_model)
      (file_extension document_model) w = (Returned text, w1) ∧
    strip text ≠ [] ∧
    TextChunker.chunk (length text) TextChunker.default text = Some chunks ∧
    embedder_warm_up E = Ok tt ∧
    embed_documents E (chunk_documents E document_model user_id chunks)
    = Ok embedded ∧
    write_error E (store w1) embedded = None ∧
    w' = mk_world
           (foldr (fun d m => <[doc_id d := stored_of d]> m) (store w1) embedded)
           (trace w1 ++
            [EvEmbedDocuments (chunk_documents E document_model user_id chunks);
             EvWriteDocuments embedded; EvLog INFO]).
Proof.
  split; [apply index_document_true_inv|].
  intros (text & w1 & chunks & embedded & Hparse & Hne & Hchunks & Hwarm &
          Hemb & Hwrite & ->).
    destruct (index_document_after_parse _ user_id _ _ _ Hparse Hne)
      as (chunks' & Hchunks' & _ & Heq).
    rewrite Hchunks in Hchunks'. injection Hchunks' as <-.
    rewrite Heq, Hwarm. cbv zeta. by rewrite Hemb, Hwrite.
Qed.

(** X12: whatever happens later in the call, the documents that
    [index_document] hands to the embedding model carry the given user id
    and the id and name of the document, are numbered from 0 in chunk
    order, have a chunk that is not empty as content, and no embedding. *)
Theorem index_document_tags_chunks (document_model : document) (user_id : Z)
    (w : world) (evs : list event) (docs : list hdoc) :
  trace (index_document E document_model user_id w).2 = trace w ++ evs ->
  EvEmbedDocuments docs ∈ evs ->
  ∀ i d, docs !! i = Some d ->
    content d ≠ [] ∧
    meta d = mk_meta user_id (pk document_model) (name document_model)
                     (Z.of_nat i) ∧
    doc_embedding d = None.
Proof.
  intros Htrace Hin i d Hd.
  destruct (parse_outcome E (file_path document_model)
              (file_extension document_model) w) as (o & pevs & Hp & Ho & Hpevs).
  assert (Hnot : EvEmbedDocuments docs ∉ pevs).
  { intros Hin'. apply (Forall_forall (fun ev => ¬ store_or_embedder_call ev))
      with (x := EvEmbedDocuments docs) in Hpevs; [|done]. by apply Hpevs. }
  destruct o as [text|e|]; [|exfalso|done].
  - destruct (decide (strip text = [])) as [Hblank|Hne].
    + exfalso. revert Htrace.
      unfold index_document, try_except, index_document_try, bind at 1.
      rewrite Hp, bool_decide_eq_true_2 by done. run.
      rewrite <- (assoc_L (++)). intros Heq%(inj (app (trace w))). subst evs.
      apply elem_of_app in Hin as [|Hin]; [done|].
      by apply list_elem_of_singleton in Hin.
    + destruct (index_document_after_parse _ user_id _ _ _ Hp Hne)
        as (chunks & Hchunks & _ & Heq).
      rewrite Heq in Htrace. cbv zeta in Htrace.
      assert (Hdocs : docs = chunk_documents E document_model user_id chunks).
      { destruct (embedder_warm_up E) as [[]|];
          [destruct (embed_documents E _) as [embedded|];
           [destruct (write_error E _ embedded)|]|];
          cbn [snd trace] in Htrace; rewrite <- (assoc_L (++)) in Htrace;
          apply (inj (app (trace w))) in Htrace; subst evs;
          apply elem_of_app in Hin as [|Hin]; try done;
          repeat (apply elem_of_cons in Hin as [Hin|Hin]; [congruence|]);
          by apply elem_of_nil in Hin. }
      subst docs. apply chunk_documents_lookup in Hd as (chunk & Hc & <- & Hm & Hn).
      split; [|done].
      pose proof (chunk_nonempty_chunks _ _ _ _ Hchunks) as Hall.
      by apply (Forall_lookup_1 _ _ _ _ Hall) in Hc.
  - revert Htrace.
    unfold index_document, try_except, index_document_try, bind at 1.
    rewrite Hp. run.
    rewrite <- (assoc_L (++)). intros Heq%(inj (app (trace w))). subst evs.
    apply elem_of_app in Hin as [|Hin]; [done|].
    by apply list_elem_of_singleton in Hin.
Qed.

(** X13: for a document whose name has no dot, or whose last segment is
    none of [pdf], [docx], [txt] once lowered, [index_document] returns
    [False] after one ERROR log: no file is opened, nothing is embedded
    and the collection is as it was. *)
Theorem index_document_unsupported_name (document_model : document)
    (user_id : Z) (w : world) :
  46%N ∉ name document_model ∨
  (lower (last_segment (name document_model)) ≠ lit "pdf" ∧
   lower (last_segment (name document_model)) ≠ lit "docx" ∧
   lower (last_segment (name document_model)) ≠ lit "txt") ->
  index_document E document_model user_id w
  = (Returned false, mk_world (store w) (trace w ++ [EvLog ERROR])).
Proof.
  intros Hname.
  assert (Hext : file_extension document_model ≠ lit "pdf" ∧
                 file_extension document_model ≠ lit "docx" ∧
                 file_extension document_model ≠ lit "txt").
  { unfold file_extension. destruct Hname as [Hdot | (H1 & H2 & H3)].
    - rewrite bool_decide_eq_false_2 by done. repeat split; discriminate.
    - case_bool_decide; [done|]. repeat split; discriminate. }
  destruct Hext as (H1 & H2 & H3).
  unfold index_document, try_except, index_document_try, bind at 1.
  unfold DocumentParser.parse.
  rewrite parsers_lookup, file_extension_lower.
  by repeat case_decide.
Qed.

End index_document_stages.

Lemma index_document_tags_chunks_witness :
  (trace (RagService.index_document
            (sample_env [x48; x69; x2e; x20; x42; x79; x65; x2e; x0a] None [])
            (mk_document 7 (lit "notes.TXT") (lit "/m/notes.TXT")) 1
            (mk_world ∅ [])).2
   = trace (mk_world ∅ []) ++
     [EvOpen (lit "/m/notes.TXT") (lit "utf-8");
      EvEmbedDocuments
        [mk_hdoc (lit "Hi. Bye.") (lit "Hi. Bye.")
                 (mk_meta 1 7 (lit "notes.TXT") 0) None];
      EvWriteDocuments
        [mk_hdoc (lit "Hi. Bye.") (lit "Hi. Bye.")
                 (mk_meta 1 7 (lit "notes.TXT") 0) None];
      EvLog INFO] ∧
   [mk_hdoc (lit "Hi. Bye.") (lit "Hi. Bye.")
            (mk_meta 1 7 (lit "notes.TXT") 0) None] !! 0%nat
   = Some (mk_hdoc (lit "Hi. Bye.") (lit "Hi. Bye.")
                   (mk_meta 1 7 (lit "notes.TXT") 0) None)) ∧
  content (mk_hdoc (lit "Hi. Bye.") (lit "Hi. Bye.")
                   (mk_meta 1 7 (lit "notes.TXT") 0) None) ≠ [] ∧
  meta (mk_hdoc (lit "Hi. Bye.") (lit "Hi. Bye.")
                (mk_meta 1 7 (lit "notes.TXT") 0) None)
  = mk_meta 1 7 (name (mk_document 7 (lit "notes.TXT") (lit "/m/notes.TXT")))
            (Z.of_nat 0) ∧
  doc_embedding (mk_hdoc (lit "Hi. Bye.") (lit "Hi. Bye.")
                         (mk_meta 1 7 (lit "notes.TXT") 0) None) = None.
Proof.
  split; [split; [vm_compute; reflexivity | reflexivity]|].
  apply (index_document_tags_chunks
           (sample_env [x48; x69; x2e; x20; x42; x79; x65; x2e; x0a] None [])
           (mk_document 7 (lit "notes.TXT") (lit "/m/notes.TXT")) 1
           (mk_world ∅ [])
           [EvOpen (lit "/m/notes.TXT") (lit "utf-8");
            EvEmbedDocuments
              [mk_hdoc (lit "Hi. Bye.") (lit "Hi. Bye.")
                       (mk_meta 1 7 (lit "notes.TXT") 0) None];
            EvWriteDocuments
              [mk_hdoc (lit "Hi. Bye.") (lit "Hi. Bye.")
                       (mk_meta 1 7 (lit "notes.TXT") 0) None];
            EvLog INFO]
           [mk_hdoc (lit "Hi. Bye.") (lit "Hi. Bye.")
                    (mk_meta 1 7 (lit "notes.TXT") 0) None]);
    [vm_compute; reflexivity
    | apply list_elem_of_further, list_elem_of_here
    | reflexivity].
Defined.

Lemma index_document_unsupported_name_witness :
  (lower (last_segment (name (mk_document 7 (lit "sheet.XLSX") (lit "/m/sheet.XLSX"))))
     ≠ lit "pdf" ∧
   lower (last_segment (name (mk_document 7 (lit "sheet.XLSX") (lit "/m/sheet.XLSX"))))
     ≠ lit "docx" ∧
   lower (last_segment (name (mk_document 7 (lit "sheet.XLSX") (lit "/m/sheet.XLSX"))))
     ≠ lit "txt") ∧
  RagService.index_document (sample_env [] None [])
    (mk_document 7 (lit "sheet.XLSX") (lit "/m/sheet.XLSX")) 1
    (mk_world sample_store [])
  = (Returned false,
     mk_world (store (mk_world sample_store []))
              (trace (mk_world sample_store []) ++ [EvLog ERROR])).
Proof.
  split; [concrete|].
  apply (index_document_unsupported_name (sample_env [] None [])
           (mk_document 7 (lit "sheet.XLSX") (lit "/m/sheet.XLSX")) 1
           (mk_world sample_store [])).
  right. concrete.
Defined.

(** ** RagService.answer_question: the prompt *)

Section answer_question_prompt.

Import RagService.

Variable E : env.

Lemma substring_refl s : substring s s.
Proof. exists [], []. by rewrite app_nil_r. Qed.

Lemma substring_app_l a s t : substring a s -> substring a (s ++ t).
Proof.
  intros (pre & post & ->). exists pre, (post ++ t).
  by rewrite <- !(assoc_L (++)).
Qed.

Lemma substring_app_r a s t : substring a t -> substring a (s ++ t).
Proof.
  intros (pre & post & ->). exists (s ++ pre), post.
  by rewrite <- !(assoc_L (++)).
Qed.

Lemma join_substring sep parts p : p ∈ parts -> substring p (join sep parts).
Proof.
  induction parts as [|q [|r parts] IH]; intros Hp.
  - by apply elem_of_nil in Hp.
  - apply list_elem_of_singleton in Hp as ->. apply substring_refl.
  - cbn [join] in *. apply elem_of_cons in Hp as [->|Hp].
    + apply substring_app_l, substring_refl.
    + by apply substring_app_r, substring_app_r, IH.
Qed.

(** [h[-10:]] is [h] without all but its last ten elements. *)
Lemma slice_last_ten {A} (h : list A) :
  slice h (-10) (len h) = drop (length h - 10) h.
Proof.
  unfold slice, clamp_index, len.
  destruct (Z.ltb_spec (-10) 0); [|lia].
  destruct (Z.ltb_spec (Z.of_nat (length h)) 0); [lia|].
  rewrite Z.min_id.
  replace (Z.to_nat (Z.max 0 (-10 + Z.of_nat (length h))))
    with (length h - 10)%nat by lia.
  apply take_ge. rewrite length_drop. lia.
Qed.

Lemma history_block_last_ten h :
  history_block (Some h) = history_block (Some (drop (length h - 10) h)).
Proof.
  unfold history_block. destruct h as [|m h]; [done|].
  destruct (drop (length (m :: h) - 10) (m :: h)) as [|m' h'] eqn:Hd.
  - apply (f_equal length) in Hd. rewrite length_drop in Hd. cbn in Hd. lia.
  - rewrite !slice_last_ten, <- Hd, drop_drop.
    replace (length (m :: h) - 10 +
             (length (drop (length (m :: h) - 10) (m :: h)) - 10))%nat
      with (length (m :: h) - 10)%nat; [done|].
    rewrite length_drop. lia.
Qed.

(** The [try] block in terms of the pieces of the prompt. *)
Lemma answer_question_try_prompt question user_id ids chat_history :
  answer_question_try E question user_id ids chat_history
  = (let filters := mk_filter user_id ids in
     lift (embedder_warm_up E) ;;;
     emit (EvEmbedText question) ;;;
     query_embedding <- lift (embed_text E question) ;;
     st <- get_store ;;
     emit (EvRetrieve filters 5) ;;;
     docs <- lift (retrieve E st query_embedding filters 5) ;;
     if bool_decide (docs = []) then ret no_information
     else
       match GOOGLE_API_KEY E with
       | None => ret key_not_configured
       | Some api_key =>
           if bool_decide (api_key = []) || bool_decide (api_key = placeholder_key)
           then ret key_not_configured
           else
             emit (EvGenaiClient api_key) ;;;
             lift (genai_client E api_key) ;;;
             emit (EvGenerateContent (lit "gemini-2.5-flash")
                     (prompt_for question docs chat_history)) ;;;
             response_text <- lift (generate_content E (lit "gemini-2.5-flash")
                                      (prompt_for question docs chat_history)) ;;
             match response_text with
             | Some ((_ :: _) as t) => ret t
             | _ => ret no_response
             end
       end).
Proof. reflexivity. Qed.

(** X14: when the retrieval returns chunks, the key is set and the model
    answers, [answer_question] makes one generation call; its prompt holds
    the question and the content of every retrieved chunk, and the answer
    is the text of the response, or the fixed \"couldn't generate\" text
    when the response has no text. *)
Theorem answer_question_prompt (question : pystr) (user_id : Z)
    (ids : list Z) (chat_history : option (list message)) (w : world)
    (emb : embedding) (docs : list hdoc) (api_key : pystr)
    (response : option pystr) :
  embedder_warm_up E = Ok tt ->
  embed_text E question = Ok emb ->
  retrieve E (store w) emb (mk_filter user_id ids) 5 = Ok docs ->
  docs ≠ [] ->
  GOOGLE_API_KEY E = Some api_key ->
  api_key ≠ [] -> api_key ≠ placeholder_key ->
  genai_client E api_key = Ok tt ->
  generate_content E (lit "gemini-2.5-flash")
    (prompt_for question docs chat_history) = Ok response ->
  answer_question E question user_id ids chat_history w
  = (Returned (match response with
               | Some ((_ :: _) as t) => t
               | _ => no_response
               end),
     mk_world (store w)
       (trace w ++
        [EvEmbedText question; EvRetrieve (mk_filter user_id ids) 5;
         EvGenaiClient api_key;
         EvGenerateContent (lit "gemini-2.5-flash")
           (prompt_for question docs chat_history)])) ∧
  substring question (prompt_for question docs chat_history) ∧
  Forall (fun d => substring (content d)
                     (prompt_for question docs chat_history)) docs.
Proof.
  intros Hw He Hr Hdocs Hkey Hk1 Hk2 Hc Hg. split; [|split].
  - unfold answer_question. rewrite answer_question_try_prompt. run.
    rewrite Hw, He. run. rewrite Hr, Hkey.
    rewrite (bool_decide_eq_false_2 (docs = [])) by done.
    rewrite (bool_decide_eq_false_2 (api_key = [])) by done.
    rewrite (bool_decide_eq_false_2 (api_key = placeholder_key)) by done.
    cbn [orb]. run. rewrite Hc. run. rewrite Hg.
    rewrite <- !(assoc_L (++)).
    by destruct response as [[|c t]|].
  - unfold prompt_for, prompt_of.
    do 5 apply substring_app_r. apply substring_app_l, substring_refl.
  - apply Forall_forall. intros d Hd. unfold prompt_for, prompt_of.
    do 3 apply substring_app_r. apply substring_app_l.
    apply join_substring. by apply list_elem_of_fmap_2.
Qed.

(** X15: of a history longer than ten messages only the last ten count:
    the call does the same with the whole history and with its last ten
    messages. *)
Theorem answer_question_last_ten (question : pystr) (user_id : Z)
    (ids : list Z) (h : list message) (w : world) :
  answer_question E question user_id ids (Some h) w
  = answer_question E question user_id ids
      (Some (drop (length h - 10) h)) w.
Proof.
  unfold answer_question. rewrite !answer_question_try_prompt.
  unfold prompt_for. by rewrite <- history_block_last_ten.
Qed.

(** X16: [answer_question] only reads: whatever the libraries do, the
    collection after the call is the one before, and no call of it writes
    to the store or deletes from it. *)
Theorem answer_question_read_only (question : pystr) (user_id : Z)
    (ids : list Z) (chat_history : option (list message)) (w : world) :
  ∃ evs,
    (answer_question E question user_id ids chat_history w).2
    = mk_world (store w) (trace w ++ evs) ∧
    Forall (fun ev => ¬ store_change ev) evs.
Proof.
  unfold answer_question. rewrite answer_question_try_prompt. run_all.
  repeat (case_match; run_all; simplify_eq); rewrite <- ?(assoc_L (++));
    cbn [snd]; eexists; (split; [reflexivity|]);
    repeat constructor; by intros [].
Qed.

End answer_question_prompt.

Lemma answer_question_prompt_witness :
  (embedder_warm_up (sample_env [] (Some (lit "secret"))
                       [sample_hdoc "a" "alpha" 1 5 0]) = Ok tt ∧
   embed_text (sample_env [] (Some (lit "secret"))
                 [sample_hdoc "a" "alpha" 1 5 0]) (lit "What is new?")
   = Ok [1; 2; 3] ∧
   retrieve (sample_env [] (Some (lit "secret"))
               [sample_hdoc "a" "alpha" 1 5 0])
     (store (mk_world sample_store [])) [1; 2; 3] (mk_filter 1 [5]) 5
   = Ok [sample_hdoc "a" "alpha" 1 5 0] ∧
   GOOGLE_API_KEY (sample_env [] (Some (lit "secret"))
                     [sample_hdoc "a" "alpha" 1 5 0]) = Some (lit "secret") ∧
   genai_client (sample_env [] (Some (lit "secret"))
                   [sample_hdoc "a" "alpha" 1 5 0]) (lit "secret") = Ok tt ∧
   generate_content (sample_env [] (Some (lit "secret"))
                       [sample_hdoc "a" "alpha" 1 5 0])
     (lit "gemini-2.5-flash")
     (prompt_for (lit "What is new?") [sample_hdoc "a" "alpha" 1 5 0] None)
   = Ok (Some (lit "An answer."))) ∧
  RagService.answer_question
    (sample_env [] (Some (lit "secret")) [sample_hdoc "a" "alpha" 1 5 0])
    (lit "What is new?") 1 [5] None (mk_world sample_store [])
  = (Returned (lit "An answer."),
     mk_world (store (mk_world sample_store []))
       (trace (mk_world sample_store []) ++
        [EvEmbedText (lit "What is new?"); EvRetrieve (mk_filter 1 [5]) 5;
         EvGenaiClient (lit "secret");
         EvGenerateContent (lit "gemini-2.5-flash")
           (prompt_for (lit "What is new?") [sample_hdoc "a" "alpha" 1 5 0]
                       None)])) ∧
  substring (lit "What is new?")
    (prompt_for (lit "What is new?") [sample_hdoc "a" "alpha" 1 5 0] None) ∧
  Forall (fun d => substring (content d)
                     (prompt_for (lit "What is new?")
                        [sample_hdoc "a" "alpha" 1 5 0] None))
         [sample_hdoc "a" "alpha" 1 5 0].
Proof.
  split; [repeat split; reflexivity|].
  apply (answer_question_prompt
           (sample_env [] (Some (lit "secret")) [sample_hdoc "a" "alpha" 1 5 0])
           (lit "What is new?") 1 [5] None (mk_world sample_store []) [1; 2; 3]
           [sample_hdoc "a" "alpha" 1 5 0] (lit "secret")
           (Some (lit "An answer.")));
    first [reflexivity | discriminate].
Defined.

(** ** RagService: deleting, and indexing then deleting *)

Section delete_more.

Import RagService.

Variable E : env.


Lemma lookup_foldr_insert_docs_elem (st : gmap pystr stored)
    (docs : list hdoc) d :
  d ∈ docs ->
  is_Some (foldr (fun d m => <[doc_id d := stored_of d]> m) st docs !! doc_id d).
Proof.
  induction docs as [|d' docs IH]; cbn [foldr]; [by intros ?%elem_of_nil|].
  intros Hd. rewrite lookup_insert. case_decide as Hk; [by eexists|].
  apply IH. apply elem_of_cons in Hd as [->|Hd]; [done|exact Hd].
Qed.

(** X19: indexing a document and then deleting its embeddings leaves the
    embeddings in the collection. After an [index_document] that returned
    [True], [delete_document_embeddings] for the same document and user
    returns with the collection as the indexing left it: every document
    that the indexing wrote is still stored under its id. *)
Theorem index_then_delete (document_model : document) (user_id : Z)
    (w w1 : world) :
  index_document E document_model user_id w = (Returned true, w1) ->
  ∃ embedded w2,
    EvWriteDocuments embedded ∈ trace w1 ∧
    delete_document_embeddings E (pk document_model) user_id w1
    = (Returned tt, w2) ∧
    store w2 = store w1 ∧
    ∀ d, d ∈ embedded -> is_Some (store w2 !! doc_id d).
Proof.
  intros Hidx.
  apply index_document_true_inv in Hidx
    as (text & w0 & chunks & embedded & _ & _ & _ & _ & _ & _ & ->).
  rewrite delete_document_embeddings_refused.
  exists embedded. eexists. split; [|split; [reflexivity|split; [reflexivity|]]].
  - cbn [trace]. rewrite elem_of_app. right.
    apply elem_of_cons. right. apply elem_of_cons. by left.
  - intros d Hd. cbn [store]. by apply lookup_foldr_insert_docs_elem.
Qed.

End delete_more.

Lemma delete_keeps_other_entries_witness :
  (store (mk_world sample_store []) !! lit "b"
   = Some (stored_of (sample_hdoc "b" "beta" 2 5 0)) ∧
   meta_user_id (st_meta (stored_of (sample_hdoc "b" "beta" 2 5 0))) ≠ 1) ∧
  ∃ w', RagService.delete_document_embeddings (sample_env [] None []) 5 1
          (mk_world sample_store []) = (Returned tt, w') ∧
        store w' !! lit "b" = Some (stored_of (sample_hdoc "b" "beta" 2 5 0)).
Proof.
  split; [split; [reflexivity | discriminate]|].
  apply (delete_keeps_other_entries (sample_env [] None []) 5 1
           (mk_world sample_store []) (lit "b")
           (stored_of (sample_hdoc "b" "beta" 2 5 0)));
    [reflexivity | right; discriminate].
Defined.

Lemma index_then_delete_witness :
  RagService.index_document
    (sample_env [x48; x69; x2e; x20; x42; x79; x65; x2e; x0a] None [])
    (mk_document 7 (lit "notes.TXT") (lit "/m/notes.TXT")) 1
    (mk_world sample_store [])
  = (Returned true,
     mk_world
       (<[lit "Hi. Bye." :=
            mk_stored (lit "Hi. Bye.") (mk_meta 1 7 (lit "notes.TXT") 0) None]>
          sample_store)
       [EvOpen (lit "/m/notes.TXT") (lit "utf-8");
        EvEmbedDocuments
          [mk_hdoc (lit "Hi. Bye.") (lit "Hi. Bye.")
                   (mk_meta 1 7 (lit "notes.TXT") 0) None];
        EvWriteDocuments
          [mk_hdoc (lit "Hi. Bye.") (lit "Hi. Bye.")
                   (mk_meta 1 7 (lit "notes.TXT") 0) None];
        EvLog INFO]) ∧
  ∃ embedded w2,
    EvWriteDocuments embedded
    ∈ trace
        (mk_world
           (<[lit "Hi. Bye." :=
                mk_stored (lit "Hi. Bye.") (mk_meta 1 7 (lit "notes.TXT") 0)
                          None]> sample_store)
           [EvOpen (lit "/m/notes.TXT") (lit "utf-8");
            EvEmbedDocuments
              [mk_hdoc (lit "Hi. Bye.") (lit "Hi. Bye.")
                       (mk_meta 1 7 (lit "notes.TXT") 0) None];
            EvWriteDocuments
              [mk_hdoc (lit "Hi. Bye.") (lit "Hi. Bye.")
                       (mk_meta 1 7 (lit "notes.TXT") 0) None];
            EvLog INFO]) ∧
    RagService.delete_document_embeddings
      (sample_env [x48; x69; x2e; x20; x42; x79; x65; x2e; x0a] None [])
      (pk (mk_document 7 (lit "notes.TXT") (lit "/m/notes.TXT"))) 1
      (mk_world
         (<[lit "Hi. Bye." :=
              mk_stored (lit "Hi. Bye.") (mk_meta 1 7 (lit "notes.TXT") 0)
                        None]> sample_store)
         [EvOpen (lit "/m/notes.TXT") (lit "utf-8");
          EvEmbedDocuments
            [mk_hdoc (lit "Hi. Bye.") (lit "Hi. Bye.")
                     (mk_meta 1 7 (lit "notes.TXT") 0) None];
          EvWriteDocuments
            [mk_hdoc (lit "Hi. Bye.") (lit "Hi. Bye.")
                     (mk_meta 1 7 (lit "notes.TXT") 0) None];
          EvLog INFO])
    = (Returned tt, w2) ∧
    store w2
    = store
        (mk_world
           (<[lit "Hi. Bye." :=
                mk_stored (lit "Hi. Bye.") (mk_meta 1 7 (lit "notes.TXT") 0)
                          None]> sample_store)
           [EvOpen (lit "/m/notes.TXT") (lit "utf-8");
            EvEmbedDocuments
              [mk_hdoc (lit "Hi. Bye.") (lit "Hi. Bye.")
                       (mk_meta 1 7 (lit "notes.TXT") 0) None];
            EvWriteDocuments
              [mk_hdoc (lit "Hi. Bye.") (lit "Hi. Bye.")
                       (mk_meta 1 7 (lit "notes.TXT") 0) None];
            EvLog INFO]) ∧
    ∀ d, d ∈ embedded -> is_Some (store w2 !! doc_id d).
Proof.
  split; [vm_compute; reflexivity|].
  exact (index_then_delete
           (sample_env [x48; x69; x2e; x20; x42; x79; x65; x2e; x0a] None [])
           (mk_document 7 (lit "notes.TXT") (lit "/m/notes.TXT")) 1
           (mk_world sample_store []) _ ltac:(vm_compute; reflexivity)).
Defined.

(** ** ChatMessage: the history handed to the service *)

Section chat_history.

Import ChatMessage.

Variable order_by_created_at : list chat_message -> list chat_message.

Hypothesis order_by_sorted :
  ∀ l, StronglySorted created_before
                      (order_by_created_at l).
Hypothesis order_by_perm : ∀ l, order_by_created_at l ≡ₚ l.

(** X20: for a bound that is not negative, [get_history_for_context]
    returns the dictionaries of at most [max_messages] rows; they are rows
    of the user from the last [hours] hours, in ascending order of time,
    and they are the oldest ones: a row of the user in the window that is
    left out is at least as recent as every row returned. *)
Theorem get_history_for_context_oldest (table : list chat_message)
    (now user hours max_messages : Z) :
  0 <= max_messages ->
  ∃ rows,
    get_history_for_context order_by_created_at table now user hours
      max_messages = Ok (message_dict <$> rows) ∧
    (length rows <= Z.to_nat max_messages)%nat ∧
    StronglySorted created_before rows ∧
    (∀ r, r ∈ rows ->
       r ∈ table ∧ chat_user r = user ∧ now - hours * hour <= created_at r) ∧
    (∀ r m, r ∈ rows -> m ∈ table -> chat_user m = user ->
       now - hours * hour <= created_at m -> m ∉ rows ->
       created_at r <= created_at m).
Proof.
  intros Hmax. unfold get_history_for_context.
  destruct (Z.ltb_spec max_messages 0); [lia|]. cbv zeta.
  set (recent := get_recent_history order_by_created_at table now user hours).
  exists (take (Z.to_nat max_messages) recent). split; [done|].
  assert (Hsorted : StronglySorted created_before
                      (take (Z.to_nat max_messages) recent ++
                       drop (Z.to_nat max_messages) recent)).
  { rewrite take_drop. apply order_by_sorted. }
  assert (Hrecent : ∀ m, m ∈ recent <->
            (chat_user m = user ∧ now - hours * hour <= created_at m) ∧
            m ∈ table).
  { intros m. unfold recent, get_recent_history. cbv zeta.
    by rewrite order_by_perm, list_elem_of_filter. }
  split; [rewrite length_take; lia|].
  split; [by apply StronglySorted_app_1_l in Hsorted|]. split.
  - intros r Hr. apply elem_of_take in Hr as (i & Hi & _).
    apply list_elem_of_lookup_2, Hrecent in Hi. tauto.
  - intros r m Hr Hm Hu Hc Hnot.
    apply (StronglySorted_app_1_elem_of _ _ _ _ _ Hsorted); [done|].
    assert (Hin : m ∈ recent) by (by apply Hrecent).
    rewrite <- (take_drop (Z.to_nat max_messages) recent) in Hin.
    apply elem_of_app in Hin as [|]; done.
Qed.

Lemma render_message_dict msg :
  RagService.render_message (message_dict msg)
  = capitalize (chat_role msg) ++ lit ": " ++ chat_content msg.
Proof.
  unfold RagService.render_message, message_dict, RagService.message.
  rewrite lookup_insert_eq, lookup_insert_ne by discriminate.
  by rewrite lookup_insert_eq.
Qed.

Lemma join_nonempty sep (parts : list pystr) :
  parts ≠ [] -> Forall (fun p => p ≠ []) parts -> join sep parts ≠ [].
Proof.
  intros Hne Hall. destruct parts as [|p [|q parts]]; [done| |].
  - by inversion Hall.
  - cbn [join]. inversion Hall as [|? ? Hp _]. by destruct p.
Qed.

(** X21: the dictionaries that [get_history_for_context] builds fit the
    reading of [answer_question]: a history of at most ten rows is used
    whole, every row gives the line [Role: content] with the row's own
    role and content (the defaults ['user'] and [''] are never used), and
    the placeholder stands in the prompt exactly when there is no row. *)
Theorem history_block_of_rows (rows : list chat_message) :
  (length rows <= 10)%nat ->
  history_block (Some (message_dict <$> rows))
  = if bool_decide (rows = []) then lit "No previous history."
    else join [10%N]
           ((fun msg => capitalize (chat_role msg) ++ lit ": " ++
                        chat_content msg) <$> rows).
Proof.
  intros Hlen.
  assert (Hlines : RagService.render_message <$> (message_dict <$> rows)
                   = (fun msg => capitalize (chat_role msg) ++ lit ": " ++
                                 chat_content msg) <$> rows).
  { rewrite <- list_fmap_compose. apply list_fmap_ext.
    intros i msg _. apply render_message_dict. }
  unfold history_block. destruct rows as [|r rows].
  { cbn [fmap list_fmap]. by rewrite !bool_decide_eq_true_2. }
  rewrite (bool_decide_eq_false_2 (r :: rows = [])) by done.
  assert (Hdrop : slice (message_dict <$> r :: rows) (-10)
                    (len (message_dict <$> r :: rows))
                  = message_dict <$> r :: rows).
  { rewrite slice_last_ten, length_fmap.
    by replace (length (r :: rows) - 10)%nat with 0%nat by lia. }
  change (match message_dict <$> r :: rows with
          | [] => []
          | _ :: _ =>
              join [10%N]
                (RagService.render_message <$>
                 slice (message_dict <$> r :: rows) (-10)
                       (len (message_dict <$> r :: rows)))
          end)
    with (join [10%N]
            (RagService.render_message <$>
             slice (message_dict <$> r :: rows) (-10)
                   (len (message_dict <$> r :: rows)))).
  rewrite Hdrop, Hlines.
  rewrite bool_decide_eq_false_2; [done|].
  apply join_nonempty; [done|].
  apply Forall_fmap, Forall_forall. intros msg _. cbn.
  by destruct (capitalize (chat_role msg)).
Qed.

End chat_history.

Lemma get_history_for_context_oldest_witness :
  (0 <= 2) ∧
  ∃ rows,
    ChatMessage.get_history_for_context
      (merge_sort ChatMessage.created_before)
      [mk_chat 1 (lit "user") (lit "third") 30;
       mk_chat 2 (lit "user") (lit "other") 15;
       mk_chat 1 (lit "user") (lit "first") 10;
       mk_chat 1 (lit "assistant") (lit "second") 20]
      40 1 24 2 = Ok (ChatMessage.message_dict <$> rows) ∧
    (length rows <= Z.to_nat 2)%nat ∧
    StronglySorted ChatMessage.created_before rows ∧
    (∀ r, r ∈ rows ->
       r ∈ [mk_chat 1 (lit "user") (lit "third") 30;
            mk_chat 2 (lit "user") (lit "other") 15;
            mk_chat 1 (lit "user") (lit "first") 10;
            mk_chat 1 (lit "assistant") (lit "second") 20] ∧
       chat_user r = 1 ∧ 40 - 24 * ChatMessage.hour <= created_at r) ∧
    (∀ r m, r ∈ rows ->
       m ∈ [mk_chat 1 (lit "user") (lit "third") 30;
            mk_chat 2 (lit "user") (lit "other") 15;
            mk_chat 1 (lit "user") (lit "first") 10;
            mk_chat 1 (lit "assistant") (lit "second") 20] ->
       chat_user m = 1 ->
       40 - 24 * ChatMessage.hour <= created_at m -> m ∉ rows ->
       created_at r <= created_at m).
Proof.
  split; [lia|].
  assert (Htrans : Transitive ChatMessage.created_before)
    by (intros a b c; unfold ChatMessage.created_before; lia).
  assert (Htotal : Total ChatMessage.created_before)
    by (intros a b; unfold ChatMessage.created_before; lia).
  apply (get_history_for_context_oldest
           (merge_sort ChatMessage.created_before));
    [intros l; by apply StronglySorted_merge_sort
    | intros l; apply merge_sort_Permutation
    | lia].
Defined.

(** The oldest messages are the ones kept: of three messages of the user
    with a bound of two, the latest one is not handed on. *)
Example get_history_for_context_example :
  ChatMessage.get_history_for_context
    (merge_sort ChatMessage.created_before)
    [mk_chat 1 (lit "user") (lit "third") 30;
     mk_chat 2 (lit "user") (lit "other") 15;
     mk_chat 1 (lit "user") (lit "first") 10;
     mk_chat 1 (lit "assistant") (lit "second") 20]
    40 1 24 2
  = Ok [ChatMessage.message_dict (mk_chat 1 (lit "user") (lit "first") 10);
        ChatMessage.message_dict (mk_chat 1 (lit "assistant") (lit "second") 20)].
Proof. vm_compute. reflexivity. Qed.

Lemma history_block_of_rows_witness :
  (length [mk_chat 1 (lit "user") (lit "hi") 10;
           mk_chat 1 (lit "assistant") (lit "hello") 20] <= 10)%nat ∧
  history_block
    (Some (ChatMessage.message_dict <$>
           [mk_chat 1 (lit "user") (lit "hi") 10;
            mk_chat 1 (lit "assistant") (lit "hello") 20]))
  = if bool_decide ([mk_chat 1 (lit "user") (lit "hi") 10;
                     mk_chat 1 (lit "assistant") (lit "hello") 20] = [])
    then lit "No previous history."
    else join [10%N]
           ((fun msg => capitalize (chat_role msg) ++ lit ": " ++
                        chat_content msg) <$>
            [mk_chat 1 (lit "user") (lit "hi") 10;
             mk_chat 1 (lit "assistant") (lit "hello") 20]).
Proof.
  split; [simpl; lia|].
  apply (history_block_of_rows
           [mk_chat 1 (lit "user") (lit "hi") 10;
            mk_chat 1 (lit "assistant") (lit "hello") 20]).
  simpl; lia.
Defined.

(** ** The upload checks and the parser *)

Section upload_checks.

Variable E : env.

Lemma allowed_extension_iff ext :
  ext ∈ DocumentUploadForm.allowed_extensions <->
  ext = lit "pdf" ∨ ext = lit "txt" ∨ ext = lit "docx".
Proof.
  unfold DocumentUploadForm.allowed_extensions.
  rewrite !elem_of_cons, elem_of_nil. tauto.
Qed.

(** X22: the checks at the head of the upload loop let through exactly
    the files that [clean_file] of the form lets through: those with an
    extension that lowers to [pdf], [txt] or [docx] and a size of at most
    10485760 bytes (a file of exactly that size passes). *)
Theorem upload_checks_agree (file : uploaded_file) :
  up_name file ≠ [] ->
  (DocumentUploadForm.clean_file (Some file) = Ok (Some file) <->
   DocumentUploadView.rejection file = None) ∧
  (DocumentUploadView.rejection file = None <->
   upload_extension file ∈ DocumentUploadForm.allowed_extensions ∧
   up_size file <= 10485760).
Proof.
  intros Hname.
  unfold DocumentUploadForm.clean_file, DocumentUploadView.rejection.
  rewrite (bool_decide_eq_false_2 (up_name file = [])) by done. cbv zeta.
  change [lit "pdf"; lit "txt"; lit "docx"]
    with DocumentUploadForm.allowed_extensions.
  change max_upload_size with 10485760.
  case_bool_decide as Hext;
    [|destruct (Z.ltb_spec 10485760 (up_size file))].
  - split; [done|]. split; [done|]. intros [He _]. by apply Hext in He.
  - split; [done|]. split; [done|]. lia.
  - split; [done|]. split; [|done].
    intros _. split; [done | lia].
Qed.

Lemma upload_checks_agree_witness :
  up_name (mk_upload (lit "notes.TXT") 10485760) ≠ [] ∧
  (DocumentUploadForm.clean_file (Some (mk_upload (lit "notes.TXT") 10485760))
   = Ok (Some (mk_upload (lit "notes.TXT") 10485760)) <->
   DocumentUploadView.rejection (mk_upload (lit "notes.TXT") 10485760) = None) ∧
  (DocumentUploadView.rejection (mk_upload (lit "notes.TXT") 10485760) = None <->
   upload_extension (mk_upload (lit "notes.TXT") 10485760)
     ∈ DocumentUploadForm.allowed_extensions ∧
   up_size (mk_upload (lit "notes.TXT") 10485760) <= 10485760).
Proof.
  split; [discriminate|].
  apply (upload_checks_agree (mk_upload (lit "notes.TXT") 10485760)).
  discriminate.
Defined.

(** X23: for a file that the upload checks let through, the document
    made from it finds a parser exactly when its name has a dot: the
    checks lower the whole name when there is none (so [pdf] passes), while
    [file_extension] is then empty. *)
Theorem accepted_upload_parser (file : uploaded_file) (id : Z)
    (path : pystr) :
  DocumentUploadView.rejection file = None ->
  (46%N ∈ up_name file <->
   is_Some (DocumentParser.parsers E
              !! lower (file_extension (mk_document id (up_name file) path)))).
Proof.
  intros Hok. rewrite file_extension_lower, parsers_lookup.
  unfold file_extension. cbn [name].
  unfold DocumentUploadView.rejection in Hok. cbv zeta in Hok.
  case_bool_decide as Hext; [done|].
  change [lit "pdf"; lit "txt"; lit "docx"]
    with DocumentUploadForm.allowed_extensions in Hext.
  apply allowed_extension_iff in Hext. unfold upload_extension in Hext.
  case_bool_decide as Hdot.
  - split; [intros _ | done].
    destruct Hext as [-> | [-> | ->]]; repeat case_decide; try done;
      by exists (DocumentParser.parse_pdf E)
      || by exists (DocumentParser.parse_docx E)
      || by exists (DocumentParser.parse_txt E).
  - split; [done|]. repeat case_decide; try discriminate.
    intros [parser Hp]. discriminate Hp.
Qed.

End upload_checks.

Lemma accepted_upload_parser_witness :
  DocumentUploadView.rejection (mk_upload (lit "PDF") 100) = None ∧
  (46%N ∈ up_name (mk_upload (lit "PDF") 100) <->
   is_Some (DocumentParser.parsers (sample_env [] None [])
              !! lower (file_extension
                          (mk_document 7 (up_name (mk_upload (lit "PDF") 100))
                                       (lit "/m/PDF"))))).
Proof.
  split; [vm_compute; reflexivity|].
  apply (accepted_upload_parser (sample_env [] None [])
           (mk_upload (lit "PDF") 100) 7 (lit "/m/PDF")).
  vm_compute; reflexivity.
Defined.

(** ** The views of [documents/views.py] *)

(** Unfolds the plumbing of a view. *)
Ltac vrun :=
  unfold vbind, vret, vraise, vtry, via_rag, flash, save_document,
    create_chat_message in *;
  cbn [documents chat_messages flashes rag fst snd] in *.

Section document_views.

Variable E : env.
Variable D : django.

Lemma index_document_returns document_model user_id w :
  ∃ b w', RagService.index_document E document_model user_id w
          = (Returned b, w').
Proof.
  unfold RagService.index_document, try_except.
  pose proof (index_document_try_outcome E document_model user_id w) as Hout.
  destruct (RagService.index_document_try E document_model user_id w)
    as [[b|e|] w']; run; eauto. done.
Qed.

Lemma delete_document_embeddings_returns document_id user_id w :
  ∃ w', RagService.delete_document_embeddings E document_id user_id w
        = (Returned tt, w').
Proof.
  rewrite delete_document_embeddings_refused. by eexists.
Qed.

(** X24: [DocumentDeleteView.post] for a key that is not a document of
    the requesting user (no row, or a row of another user) raises
    [Http404] and changes nothing: no row, no message, no embedding. *)
Theorem delete_view_not_owner (user pk : Z) (s : site) :
  (∀ row, documents s !! pk = Some row -> row_user row ≠ user) ->
  DocumentDeleteView.post E D user pk s
  = (Raised (mk_exn (OtherException (lit "Http404"))
               (lit "No Document matches the given query.")), s).
Proof.
  intros Hrow. unfold DocumentDeleteView.post,
    DocumentDeleteView.get_object_or_404. vrun.
  destruct (documents s !! pk) as [row|]; [|done].
  rewrite bool_decide_eq_false_2; [done|]. by apply Hrow.
Qed.

(** X25: [DocumentDeleteView.post] for a document of the requesting user
    whose [save()] goes through flags that row as deleted and leaves all
    other rows, flashes the success message and redirects, whether the
    deletion of the embeddings worked or failed; the collection after it
    is the one [delete_document_embeddings] leaves. *)
Theorem delete_view_owner (user pk : Z) (s : site) (row : document_row) :
  documents s !! pk = Some row ->
  row_user row = user ->
  document_save_error D (documents s) pk
    (mk_row (row_user row) (row_name row) (row_path row) true
            (row_indexed row)) = None ->
  DocumentDeleteView.post E D user pk s
  = (Returned documents_list,
     mk_site
       (<[pk := mk_row (row_user row) (row_name row) (row_path row) true
                       (row_indexed row)]> (documents s))
       (chat_messages s)
       (flashes s ++
        [(FlashSuccess, lit "'" ++ row_name row ++ lit "' has been deleted.")])
       (RagService.delete_document_embeddings E pk user (rag s)).2).
Proof.
  intros Hrow Huser Hsave. unfold DocumentDeleteView.post,
    DocumentDeleteView.get_object_or_404. vrun.
  rewrite Hrow, bool_decide_eq_true_2 by done. rewrite Hsave. vrun.
  destruct (delete_document_embeddings_returns pk user (rag s)) as [w' ->].
  done.
Qed.

(** One file of the upload loop is counted, as a success or as a
    failure. *)
Lemma upload_one_returns user file s :
  ∃ ok s',
    vtry (DocumentUploadView.upload_try E D user file)
      (fun e =>
         flash FlashError
           (lit "Error uploading '" ++ up_name file ++ lit "': " ++ exn_str e) ;;~
         vret false) s = (Returned ok, s').
Proof.
  unfold DocumentUploadView.upload_try. vrun.
  destruct (new_document D (documents s) file) as [id path].
  destruct (document_save_error D (documents s) id _); [by eexists _, _|].
  vrun.
  destruct (index_document_returns (mk_document id (up_name file) path) user
              (rag s)) as (b & w' & ->).
  vrun. destruct b; vrun; [|by eexists _, _].
  destruct (document_save_error D _ id _); by eexists _, _.
Qed.

Lemma upload_loop_returns user files success_count fail_count s :
  ∃ sc fc s',
    DocumentUploadView.loop E D user files success_count fail_count s
    = (Returned (sc, fc), s') ∧
    success_count <= sc ∧ fail_count <= fc ∧
    (sc - success_count) + (fc - fail_count) = len files.
Proof.
  revert success_count fail_count s.
  induction files as [|file files IH]; intros success_count fail_count s.
  - exists success_count, fail_count, s. unfold len. cbn. split; [done|lia].
  - cbn [DocumentUploadView.loop].
    destruct (DocumentUploadView.rejection file) as [text|].
    + unfold vbind at 1, flash at 1.
      destruct (IH success_count (fail_count + 1)
                  (mk_site (documents s) (chat_messages s)
                     (flashes s ++ [(FlashError, text)]) (rag s)))
        as (sc & fc & s' & -> & Hs & Hf & Hsum).
      exists sc, fc, s'. split; [done|].
      unfold len in *. cbn [length]. lia.
    + unfold vbind at 1.
      destruct (upload_one_returns user file s) as (ok & s1 & ->).
      destruct ok.
      * destruct (IH (success_count + 1) fail_count s1)
          as (sc & fc & s' & -> & Hs & Hf & Hsum).
        exists sc, fc, s'. split; [done|]. unfold len in *. cbn [length]. lia.
      * destruct (IH success_count (fail_count + 1) s1)
          as (sc & fc & s' & -> & Hs & Hf & Hsum).
        exists sc, fc, s'. split; [done|]. unfold len in *. cbn [length]. lia.
Qed.

(** X26: whatever the database, the storage and the RAG libraries do,
    [DocumentUploadView.post] returns its redirect, and its loop counts
    every file once: the successes and the failures add up to the number
    of files. *)
Theorem upload_counts_every_file (user : Z) (files : list uploaded_file)
    (s : site) :
  (∃ sc fc s',
     DocumentUploadView.loop E D user files 0 0 s = (Returned (sc, fc), s') ∧
     0 <= sc ∧ 0 <= fc ∧ sc + fc = len files) ∧
  (∃ s', DocumentUploadView.post E D user files s
         = (Returned documents_list, s')).
Proof.
  destruct (upload_loop_returns user files 0 0 s)
    as (sc & fc & s' & Hloop & Hs & Hf & Hsum).
  split; [exists sc, fc, s'; split; [done|lia]|].
  unfold DocumentUploadView.post. case_bool_decide; [by eexists|].
  unfold vbind at 1. rewrite Hloop. cbn [fst snd].
  destruct (0 <? sc), (0 <? fc); vrun; by eexists.
Qed.

Lemma upload_loop_rejected user files success_count fail_count s :
  Forall (fun file => is_Some (DocumentUploadView.rejection file)) files ->
  DocumentUploadView.loop E D user files success_count fail_count s
  = (Returned (success_count, fail_count + len files),
     mk_site (documents s) (chat_messages s)
       (flashes s ++
        ((fun text => (FlashError, text)) <$>
         omap DocumentUploadView.rejection files))
       (rag s)).
Proof.
  intros Hall. revert fail_count s.
  induction Hall as [|file files [text Hrej] _ IH]; intros fail_count s.
  - cbn. unfold vret, len. cbn. rewrite Z.add_0_r, app_nil_r. by destruct s.
  - cbn [DocumentUploadView.loop omap list_omap]. rewrite Hrej.
    unfold vbind at 1, flash at 1. rewrite IH. cbn [documents chat_messages flashes rag].
    rewrite <- (assoc_L (++)). unfold len. cbn [length fmap list_fmap app].
    do 2 f_equal. f_equal. lia.
Qed.

(** X27: when the checks refuse every file of a request (and there is at
    least one), [DocumentUploadView.post] saves no document and calls
    neither the parser nor the store: the tables and the RAG world are as
    before, and the messages are one error per file, in order, and the
    count of failures. *)
Theorem upload_all_rejected (user : Z) (files : list uploaded_file)
    (s : site) :
  files ≠ [] ->
  Forall (fun file => is_Some (DocumentUploadView.rejection file)) files ->
  DocumentUploadView.post E D user files s
  = (Returned documents_list,
     mk_site (documents s) (chat_messages s)
       (flashes s ++
        ((fun text => (FlashError, text)) <$>
         omap DocumentUploadView.rejection files) ++
        [(FlashInfo,
          lit "Failed to process " ++ str_of_int (len files) ++
          lit " document(s).")])
       (rag s)).
Proof.
  intros Hne Hall. unfold DocumentUploadView.post.
  rewrite bool_decide_eq_false_2 by done.
  unfold vbind at 1. rewrite upload_loop_rejected by done.
  cbn [fst snd]. rewrite Z.add_0_l.
  destruct (Z.ltb_spec 0 0); [lia|].
  destruct (Z.ltb_spec 0 (len files)) as [_|Hle].
  - vrun. by rewrite <- (assoc_L (++)).
  - destruct files; [done|]. unfold len in Hle. cbn in Hle. lia.
Qed.

End document_views.

Lemma delete_view_not_owner_witness :
  (∀ row, documents sample_site !! 7 = Some row -> row_user row ≠ 1) ∧
  DocumentDeleteView.post (sample_env [] None []) sample_django 1 7 sample_site
  = (Raised (mk_exn (OtherException (lit "Http404"))
               (lit "No Document matches the given query.")), sample_site).
Proof.
  assert (∀ row, documents sample_site !! 7 = Some row -> row_user row ≠ 1)
    as Hrow by (intros row [= <-]; vm_compute; discriminate).
  split; [exact Hrow|].
  exact (delete_view_not_owner (sample_env [] None []) sample_django 1 7
           sample_site Hrow).
Defined.

Lemma delete_view_owner_witness :
  (documents sample_site !! 5
   = Some (mk_row 1 (lit "notes.txt") (lit "/m/notes.txt") false true) ∧
   document_save_error sample_django (documents sample_site) 5
     (mk_row 1 (lit "notes.txt") (lit "/m/notes.txt") true true) = None) ∧
  DocumentDeleteView.post (sample_env [] None []) sample_django 1 5 sample_site
  = (Returned documents_list,
     mk_site
       (<[5 := mk_row 1 (lit "notes.txt") (lit "/m/notes.txt") true true]>
          (documents sample_site))
       (chat_messages sample_site)
       (flashes sample_site ++
        [(FlashSuccess, lit "'" ++ lit "notes.txt" ++ lit "' has been deleted.")])
       (RagService.delete_document_embeddings (sample_env [] None []) 5 1
          (rag sample_site)).2).
Proof.
  split; [split; reflexivity|].
  exact (delete_view_owner (sample_env [] None []) sample_django 1 5
           sample_site
           (mk_row 1 (lit "notes.txt") (lit "/m/notes.txt") false true)
           eq_refl eq_refl eq_refl).
Defined.

Lemma upload_all_rejected_witness :
  ([mk_upload (lit "a.exe") 10; mk_upload (lit "b.pdf") 10485761] ≠ [] ∧
   Forall (fun file => is_Some (DocumentUploadView.rejection file))
     [mk_upload (lit "a.exe") 10; mk_upload (lit "b.pdf") 10485761]) ∧
  DocumentUploadView.post (sample_env [] None []) sample_django 1
    [mk_upload (lit "a.exe") 10; mk_upload (lit "b.pdf") 10485761] sample_site
  = (Returned documents_list,
     mk_site (documents sample_site) (chat_messages sample_site)
       (flashes sample_site ++
        ((fun text => (FlashError, text)) <$>
         omap DocumentUploadView.rejection
           [mk_upload (lit "a.exe") 10; mk_upload (lit "b.pdf") 10485761]) ++
        [(FlashInfo,
          lit "Failed to process " ++
          str_of_int (len [mk_upload (lit "a.exe") 10;
                           mk_upload (lit "b.pdf") 10485761]) ++
          lit " document(s).")])
       (rag sample_site)).
Proof.
  assert (Forall (fun file => is_Some (DocumentUploadView.rejection file))
            [mk_upload (lit "a.exe") 10; mk_upload (lit "b.pdf") 10485761])
    as Hall by (repeat constructor; vm_compute; eauto).
  split; [split; [discriminate|exact Hall]|].
  exact (upload_all_rejected (sample_env [] None []) sample_django 1
           [mk_upload (lit "a.exe") 10; mk_upload (lit "b.pdf") 10485761]
           sample_site ltac:(discriminate) Hall).
Defined.

(** What the upload view does on two files, one refused and one taken. *)
Example upload_view_example :
  DocumentUploadView.post (sample_env [x48; x69; x2e] None [])
    sample_django 1
    [mk_upload (lit "a.exe") 10; mk_upload (lit "new.txt") 10] sample_site
  = (Returned documents_list,
     mk_site
       (<[100 := mk_row 1 (lit "new.txt") (lit "/m/new.txt") false true]>
          (documents sample_site))
       (chat_messages sample_site)
       [(FlashError, lit "File 'a.exe' has an unsupported type.");
        (FlashSuccess, lit "Successfully uploaded and indexed 1 document(s).");
        (FlashInfo, lit "Failed to process 1 document(s).")]
       (RagService.index_document (sample_env [x48; x69; x2e] None [])
          (mk_document 100 (lit "new.txt") (lit "/m/new.txt")) 1
          (rag sample_site)).2).
Proof. vm_compute. reflexivity. Qed.

(** ** The views of [chat/views.py] *)

Section chat_views.

Variable E : env.
Variable D : django.
Variable C : clock.

(** [answer_question] returns, leaves the collection alone, and the one
    retrieval it may make carries the filter of its arguments. *)
Lemma answer_question_trace question user_id ids chat_history w :
  ∃ answer evs,
    RagService.answer_question E question user_id ids chat_history w
    = (Returned answer, mk_world (store w) (trace w ++ evs)) ∧
    Forall (fun ev => ∀ flt k, ev = EvRetrieve flt k ->
                               flt = mk_filter user_id ids ∧ k = 5) evs.
Proof.
  unfold RagService.answer_question.
  rewrite answer_question_try_prompt. run_all.
  repeat (case_match; run_all; simplify_eq); rewrite <- ?(assoc_L (++));
    eexists _, _; (split; [reflexivity|]);
    repeat (apply Forall_cons; split; [intros flt k Heq; by simplify_eq|]);
    by apply Forall_nil.
Qed.

(** The ids that the ownership check lets through are selected ids of
    live documents of the user. *)
Lemma valid_doc_ids_owned docs user selected_doc_ids id :
  (∀ ids x, x ∈ document_order D ids -> x ∈ ids) ->
  id ∈ ChatAPIView.valid_doc_ids D docs user selected_doc_ids ->
  id ∈ selected_doc_ids ∧
  ∃ row, docs !! id = Some row ∧ row_user row = user ∧ row_deleted row = false.
Proof.
  intros Horder Hin. apply Horder in Hin.
  apply list_elem_of_fmap in Hin as ([k row] & -> & Hin).
  apply elem_of_map_to_list in Hin.
  apply map_lookup_filter_Some in Hin as (Hrow & (Hu & Hd) & Hsel).
  cbn in *. eauto.
Qed.


(** X29: when a query on documents returns ids of rows that match it,
    [ChatAPIView.post] searches the store only on behalf of the requesting
    user and only in selected documents that are live documents of that
    user: every retrieval it makes has the user's id in its filter and
    only such document ids. The collection itself is not changed. *)
Theorem chat_post_retrieves_own_documents (user : Z) (data : chat_payload)
    (s : site) :
  (∀ ids x, x ∈ document_order D ids -> x ∈ ids) ->
  ∃ evs,
    rag (ChatAPIView.post E D C user (Some data) s).2
    = mk_world (store (rag s)) (trace (rag s) ++ evs) ∧
    Forall (fun ev =>
              ∀ flt k, ev = EvRetrieve flt k ->
                flt_user_id flt = user ∧
                ∀ id, id ∈ flt_document_ids flt ->
                  id ∈ default [] (p_document_ids data) ∧
                  ∃ row, documents s !! id = Some row ∧
                         row_user row = user ∧ row_deleted row = false) evs.
Proof.
  intros Horder.
  assert (∀ w : world, w = mk_world (store w) (trace w ++ [])) as Hsame
    by (intros [st tr]; cbn; by rewrite app_nil_r).
  cbn [ChatAPIView.post]. unfold ChatAPIView.post_try, vtry.
  repeat (case_bool_decide; [exists []; split; [apply Hsame|constructor]|]).
  vrun. destruct (chat_create_error D (chat_messages s) _);
    [exists []; split; [apply Hsame|constructor]|].
  vrun. unfold ChatMessage.get_history_for_context.
  change (10 <? 0) with false. cbn match.
  match goal with
  | |- context [RagService.answer_question E ?q ?u ?ids ?h ?w] =>
      destruct (answer_question_trace q u ids h w) as (answer & evs & -> & Hevs)
  end.
  vrun. exists evs. split; [by destruct (chat_create_error D _ _)|].
  eapply Forall_impl; [exact Hevs|].
  intros ev Hev flt k ->. destruct (Hev flt k eq_refl) as [-> _].
  cbn. split; [done|]. intros id Hid.
  by apply (valid_doc_ids_owned _ _ _ _ Horder Hid).
Qed.

(** X30: a 200 of [ChatAPIView.post] has saved the exchange: the table of
    messages ends with the stripped question and then the answer, both of
    the requesting user, and the answer in the response is the saved one.
    It is what [answer_question] returned for the stripped question, the
    checked ids and the history read after the question was saved, so the
    question itself is a row of the table that history is read from. *)
Theorem chat_post_saves_exchange (user : Z) (data : chat_payload)
    (s : site) (r : json_response) (s' : site) :
  ChatAPIView.post E D C user (Some data) s = (Returned r, s') ->
  status r = 200 ->
  ∃ answer history,
    resp_message r = Some (lit "assistant", answer, t_answer C) ∧
    chat_messages s'
    = chat_messages s ++
      [mk_chat user (lit "user") (strip (default [] (p_message data)))
         (t_question C);
       mk_chat user (lit "assistant") answer (t_answer C)] ∧
    ChatMessage.get_history_for_context (chat_order D)
      (chat_messages s ++
       [mk_chat user (lit "user") (strip (default [] (p_message data)))
          (t_question C)])
      (t_history C) user 24 10 = Ok history ∧
    (RagService.answer_question E (strip (default [] (p_message data))) user
       (ChatAPIView.valid_doc_ids D (documents s) user
          (default [] (p_document_ids data)))
       (Some history) (rag s)).1 = Returned answer ∧
    strip (default [] (p_message data)) ≠ [] ∧
    ChatAPIView.valid_doc_ids D (documents s) user
      (default [] (p_document_ids data)) ≠ [].
Proof.
  cbn [ChatAPIView.post]. unfold ChatAPIView.post_try, vtry.
  repeat (case_bool_decide;
          [intros [= <- <-]; cbn; intros; discriminate|]).
  vrun. destruct (chat_create_error D (chat_messages s) _);
    [intros [= <- <-]; cbn; intros; discriminate|].
  vrun. unfold ChatMessage.get_history_for_context.
  change (10 <? 0) with false. cbn match.
  match goal with
  | |- context [RagService.answer_question E ?q ?u ?ids ?h ?w] =>
      destruct (answer_question_trace q u ids h w) as (answer & evs & Hans & _)
  end.
  rewrite Hans. vrun. destruct (chat_create_error D _ _);
    [intros [= <- <-]; cbn; intros; discriminate|].
  intros [= <- <-] _. cbn [resp_message chat_messages]. eexists answer, _.
  split; [done|]. split; [by rewrite <- (assoc_L (++))|].
  split; [reflexivity|]. rewrite Hans. done.
Qed.

(** [ClearHistoryView.post] removes the rows of the user and no other. *)
Lemma clear_history_rows (user : Z) (s : site) (msg : chat_message) :
  msg ∈ chat_messages (ClearHistoryView.post user s).2 ↔
  msg ∈ chat_messages s ∧ chat_user msg ≠ user.
Proof. cbn. rewrite list_elem_of_filter. tauto. Qed.

End chat_views.

Lemma chat_post_retrieves_own_documents_witness :
  (∀ ids x, x ∈ document_order sample_django ids -> x ∈ ids) ∧
  ∃ evs,
    rag (ChatAPIView.post
           (sample_env [] (Some (lit "secret")) [sample_hdoc "a" "alpha" 1 5 0])
           sample_django (mk_clock 2000 2001 2002) 1
           (Some (mk_payload (Some (lit " What is new? ")) (Some [5; 6; 7])))
           sample_site).2
    = mk_world (store (rag sample_site)) (trace (rag sample_site) ++ evs) ∧
    Forall (fun ev =>
              ∀ flt k, ev = EvRetrieve flt k ->
                flt_user_id flt = 1 ∧
                ∀ id, id ∈ flt_document_ids flt ->
                  id ∈ default [] (p_document_ids
                                     (mk_payload (Some (lit " What is new? "))
                                        (Some [5; 6; 7]))) ∧
                  ∃ row, documents sample_site !! id = Some row ∧
                         row_user row = 1 ∧ row_deleted row = false) evs.
Proof.
  assert (∀ ids x, x ∈ document_order sample_django ids -> x ∈ ids) as Horder
    by (intros ids x Hx; exact Hx).
  split; [exact Horder|].
  exact (chat_post_retrieves_own_documents
           (sample_env [] (Some (lit "secret")) [sample_hdoc "a" "alpha" 1 5 0])
           sample_django (mk_clock 2000 2001 2002) 1
           (mk_payload (Some (lit " What is new? ")) (Some [5; 6; 7]))
           sample_site Horder).
Defined.

(** What the chat view does on a question over the selection [5; 6; 7] of
    user 1: only document 5 is searched, and the history holds the
    question itself. *)
Example chat_view_example :
  ChatAPIView.post
    (sample_env [] (Some (lit "secret")) [sample_hdoc "a" "alpha" 1 5 0])
    sample_django (mk_clock 2000 2001 2002) 1
    (Some (mk_payload (Some (lit " What is new? ")) (Some [5; 6; 7])))
    sample_site
  = (Returned (mk_response 200 true None
                 (Some (lit "assistant", lit "An answer.", 2002))),
     mk_site (documents sample_site)
       [mk_chat 1 (lit "user") (lit "Hello?") 1000;
        mk_chat 1 (lit "user") (lit "What is new?") 2000;
        mk_chat 1 (lit "assistant") (lit "An answer.") 2002]
       []
       (mk_world sample_store
          [EvEmbedText (lit "What is new?"); EvRetrieve (mk_filter 1 [5]) 5;
           EvGenaiClient (lit "secret");
           EvGenerateContent (lit "gemini-2.5-flash")
             (prompt_for (lit "What is new?") [sample_hdoc "a" "alpha" 1 5 0]
                (Some [ChatMessage.message_dict
                         (mk_chat 1 (lit "user") (lit "Hello?") 1000);
                       ChatMessage.message_dict
                         (mk_chat 1 (lit "user") (lit "What is new?") 2000)]))])).
Proof. vm_compute. reflexivity. Qed.

Lemma chat_post_saves_exchange_witness :
  (ChatAPIView.post
     (sample_env [] (Some (lit "secret")) [sample_hdoc "a" "alpha" 1 5 0])
     sample_django (mk_clock 2000 2001 2002) 1
     (Some (mk_payload (Some (lit " What is new? ")) (Some [5; 6; 7])))
     sample_site
   = (Returned (mk_response 200 true None
                  (Some (lit "assistant", lit "An answer.", 2002))),
      mk_site (documents sample_site)
        [mk_chat 1 (lit "user") (lit "Hello?") 1000;
         mk_chat 1 (lit "user") (lit "What is new?") 2000;
         mk_chat 1 (lit "assistant") (lit "An answer.") 2002]
        []
        (mk_world sample_store
           [EvEmbedText (lit "What is new?"); EvRetrieve (mk_filter 1 [5]) 5;
            EvGenaiClient (lit "secret");
            EvGenerateContent (lit "gemini-2.5-flash")
              (prompt_for (lit "What is new?") [sample_hdoc "a" "alpha" 1 5 0]
                 (Some [ChatMessage.message_dict
                          (mk_chat 1 (lit "user") (lit "Hello?") 1000);
                        ChatMessage.message_dict
                          (mk_chat 1 (lit "user") (lit "What is new?") 2000)]))]))
   ∧ status (mk_response 200 true None
               (Some (lit "assistant", lit "An answer.", 2002))) = 200) ∧
  ∃ answer history,
    resp_message (mk_response 200 true None
                    (Some (lit "assistant", lit "An answer.", 2002)))
    = Some (lit "assistant", answer, t_answer (mk_clock 2000 2001 2002)) ∧
    [mk_chat 1 (lit "user") (lit "Hello?") 1000;
     mk_chat 1 (lit "user") (lit "What is new?") 2000;
     mk_chat 1 (lit "assistant") (lit "An answer.") 2002]
    = chat_messages sample_site ++
      [mk_chat 1 (lit "user") (strip (lit " What is new? ")) 2000;
       mk_chat 1 (lit "assistant") answer 2002] ∧
    ChatMessage.get_history_for_context (chat_order sample_django)
      (chat_messages sample_site ++
       [mk_chat 1 (lit "user") (strip (lit " What is new? ")) 2000])
      2001 1 24 10 = Ok history ∧
    (RagService.answer_question
       (sample_env [] (Some (lit "secret")) [sample_hdoc "a" "alpha" 1 5 0])
       (strip (lit " What is new? ")) 1
       (ChatAPIView.valid_doc_ids sample_django (documents sample_site) 1
          [5; 6; 7])
       (Some history) (rag sample_site)).1 = Returned answer ∧
    strip (lit " What is new? ") ≠ [] ∧
    ChatAPIView.valid_doc_ids sample_django (documents sample_site) 1 [5; 6; 7]
    ≠ [].
Proof.
  split; [split; [vm_compute; reflexivity|reflexivity]|].
  exact (chat_post_saves_exchange
           (sample_env [] (Some (lit "secret")) [sample_hdoc "a" "alpha" 1 5 0])
           sample_django (mk_clock 2000 2001 2002) 1
           (mk_payload (Some (lit " What is new? ")) (Some [5; 6; 7]))
           sample_site _ _ ltac:(vm_compute; reflexivity) eq_refl).
Defined.
